(** * Quantum Code Analyzer: pattern scanner, result store and format fixer

    A shallow embedding of
      - [quantum_analyzer.py]  (PatternLoader, CodeAnalyzer, AnalysisResults,
        ProjectAnalyzer),
      - [code_analyzer.py] and [enhanced_code_analyzer.py] (the two older
        per-file analyzers),
      - [quantum_analyzer/fix/__init__.py] and
        [quantum_analyzer/fix/format_to_fstring.py] (the fixer registry and
        the [.format()] to f-string transformer),
    followed by the properties of the design document that concern them.

    Conventions.  A Python [str] is a Rocq [string]; every character is read
    as the code point with the same number, so the model covers the code
    points below 256.  A raised exception is a value of [exn] carried in the
    left summand of [res]; [try/except Exception] is a match on that sum.
    A Python [dict] is an insertion-ordered association list ([PyDict]). *)

From Stdlib Require Import String Ascii NArith.
From stdpp Require Import base tactics option list strings pretty relations.

Set Warnings "-register-all".

Open Scope string_scope.
Open Scope list_scope.

(** ** Exceptions *)

Inductive exn : Type :=
  | ValueError (msg : string)
  | KeyError (key : string)
  | AttributeError
  | OSError
  | ParserSyntaxError.

Definition res (A : Type) : Type := exn + A.

Definition raise {A} (e : exn) : res A := inl e.
Definition ret {A} (a : A) : res A := inr a.

Definition bind {A B} (m : res A) (k : A -> res B) : res B :=
  match m with
  | inl e => inl e
  | inr a => k a
  end.

Declare Scope res_scope.
Delimit Scope res_scope with res.
Notation "'do' x <- m ; k" := (bind m (fun x => k))
  (at level 10, x name, m at level 100, k at level 200) : res_scope.
Notation "'do' ' p <- m ; k" := (bind m (fun x => match x with p => k end))
  (at level 10, p pattern, m at level 100, k at level 200) : res_scope.

(** ** Python string primitives *)

Module PyStr.

Definition code (c : ascii) : N := N_of_ascii c.

(** [str.isspace] on one character: TAB..CR, FS..US, SPACE, NEL, NBSP. *)
Definition is_whitespace (c : ascii) : bool :=
  let n := code c in
  ((9 <=? n) && (n <=? 13) || (28 <=? n) && (n <=? 32)
   || (n =? 133) || (n =? 160))%N.

Fixpoint lstrip (s : string) : string :=
  match s with
  | String c s' => if is_whitespace c then lstrip s' else s
  | EmptyString => EmptyString
  end.

Fixpoint rstrip (s : string) : string :=
  match s with
  | String c s' =>
      match rstrip s' with
      | EmptyString => if is_whitespace c then EmptyString else String c EmptyString
      | r => String c r
      end
  | EmptyString => EmptyString
  end.

(** [s.strip()] *)
Definition strip (s : string) : string := rstrip (lstrip s).

(** [s.startswith(p)] *)
Definition startswith (p s : string) : bool := String.prefix p s.

(** [s.endswith(p)] *)
Definition endswith (p s : string) : bool :=
  let n := String.length s in
  let k := String.length p in
  (k <=? n)%nat && String.eqb (String.substring (n - k) k s) p.

(** [s[i:j]] for non-negative [i] and [j] *)
Definition slice (s : string) (i j : nat) : string :=
  String.substring i (j - i) s.

(** [s[i:]] *)
Definition slice_from (s : string) (i : nat) : string :=
  String.substring i (String.length s - i) s.

(** [s[1:-1]] *)
Definition slice_1_m1 (s : string) : string :=
  slice s 1 (String.length s - 1).

Definition is_ascii_digit (c : ascii) : bool :=
  ((48 <=? code c) && (code c <=? 57))%N.

(** One character of [str.isdigit]: the decimal digits and the
    superscripts 2, 3 and 1 (U+00B2, U+00B3, U+00B9). *)
Definition is_digit_char (c : ascii) : bool :=
  is_ascii_digit c
  || (code c =? 178)%N || (code c =? 179)%N || (code c =? 185)%N.

Fixpoint forallb_string (p : ascii -> bool) (s : string) : bool :=
  match s with
  | EmptyString => true
  | String c s' => p c && forallb_string p s'
  end.

(** [s.isdigit()]: non-empty and every character a digit *)
Definition isdigit (s : string) : bool :=
  match s with
  | EmptyString => false
  | _ => forallb_string is_digit_char s
  end.

Fixpoint int_go (acc : N) (s : string) : res N :=
  match s with
  | EmptyString => ret acc
  | String c s' =>
      if is_ascii_digit c
      then int_go (10 * acc + (code c - 48))%N s'
      else raise (ValueError "invalid literal for int() with base 10")
  end.

(** [sys.get_int_max_str_digits()] as the interpreter starts with it. *)
Definition int_max_str_digits : N := 4300.

(** [int(s)] on a string for which [isdigit] holds: the superscript digits
    are no decimal literals and make [int] raise, and so does a decimal
    literal of more digits than the interpreter converts. *)
Definition int (s : string) : res N :=
  match s with
  | EmptyString => raise (ValueError "invalid literal for int() with base 10")
  | _ =>
      if forallb_string is_ascii_digit s
         && (int_max_str_digits <? N.of_nat (String.length s))%N
      then raise (ValueError
                    "Exceeds the limit (4300 digits) for integer string conversion")
      else int_go 0%N s
  end.

(** [sep.join(l)] *)
Fixpoint join (sep : string) (l : list string) : string :=
  match l with
  | [] => ""
  | [x] => x
  | x :: l' => x +:+ sep +:+ join sep l'
  end.

(** A string of decimal digits only. *)
Definition all_ascii_digits (s : string) : bool :=
  match s with
  | EmptyString => false
  | _ => forallb_string is_ascii_digit s
  end.

End PyStr.

(** ** Python dictionaries: insertion-ordered, one entry per key *)

Module PyDict.
Section Dict.
Context {K V : Type} `{EqDecision K}.

Definition t : Type := list (K * V).

Definition empty : t := [].

(** [d.get(k)] / [k in d] *)
Fixpoint get (k : K) (d : t) : option V :=
  match d with
  | [] => None
  | (k', v) :: d' => if decide (k' = k) then Some v else get k d'
  end.

Definition mem (k : K) (d : t) : bool :=
  match get k d with Some _ => true | None => false end.

(** [d[k] = v]: an existing key keeps its position, a new key goes last *)
Fixpoint set (k : K) (v : V) (d : t) : t :=
  match d with
  | [] => [(k, v)]
  | (k', v') :: d' =>
      if decide (k' = k) then (k, v) :: d' else (k', v') :: set k v d'
  end.

Definition keys (d : t) : list K := d.*1.
Definition items (d : t) : list (K * V) := d.

Definition is_empty (d : t) : bool :=
  match d with [] => true | _ => false end.
End Dict.
Arguments t : clear implicits.
End PyDict.

(** ** quantum_analyzer.py: data model *)

Definition Path : Type := string.

Inductive Severity : Type := INFO | WARNING | CRITICAL.

Global Instance Severity_eq_dec : EqDecision Severity.
Proof. solve_decision. Defined.

(** The value of the enumeration member, as JSON prints it. *)
Definition Severity_value (s : Severity) : string :=
  match s with
  | INFO => "info"
  | WARNING => "warning"
  | CRITICAL => "critical"
  end.

(** [Severity(text)]: lookup by value, [ValueError] for an unknown one. *)
Definition Severity_of_value (text : string) : res Severity :=
  if String.eqb text "info" then ret INFO
  else if String.eqb text "warning" then ret WARNING
  else if String.eqb text "critical" then ret CRITICAL
  else raise (ValueError ("'" +:+ text +:+ "' is not a valid Severity")).

Module ImprovementPattern.
Record t : Type := mk {
  regex : string;
  ideas : list string;
  severity : Severity;
  tags : list string;
  compiled_regex : string -> bool   (* [compiled_regex.search(line)] as a truth value *)
}.

(** [matches]: [bool(self.compiled_regex.search(line))] *)
Definition matches (p : t) (line : string) : bool := compiled_regex p line.
End ImprovementPattern.

Module CodeLine.
Record t : Type := mk {
  line : string;
  ideas : list string;
  severity : Severity;
  tags : list string
}.
End CodeLine.

Global Instance CodeLine_eq_dec : EqDecision CodeLine.t.
Proof. solve_decision. Defined.

Inductive log_record : Type :=
  | LogError (context : string) (e : exn)
  | LogWarning (msg : string).

(** What [yaml.safe_load] hands to the loader: per regex either a list of
    ideas, a mapping whose keys [severity], [tags], [ideas] may each be
    absent, or something else. *)
Inductive PatternData : Type :=
  | IdeasList (ideas : list string)
  | Structured (severity : option string) (tags : option (list string))
               (ideas : option (list string))
  | OtherData.

Inductive YamlDocument : Type :=
  | YMapping (entries : list (string * PatternData))
  | YNotMapping.

(** ** quantum_analyzer.py: PatternLoader *)

Section PatternLoader.
(** [re.compile]: the searcher of a valid expression, or the text of
    [re.error]. *)
Variable re_compile : string -> string + (string -> bool).
(** [open] followed by [yaml.safe_load]. *)
Variable safe_load : Path -> res YamlDocument.

(** The dataclass constructor with its [__post_init__]. *)
Definition new_ImprovementPattern (regex : string) (ideas : list string)
    (severity : Severity) (tags : list string) : res ImprovementPattern.t :=
  match re_compile regex with
  | inr search => ret (ImprovementPattern.mk regex ideas severity tags search)
  | inl e => raise (ValueError ("Invalid regex pattern '" +:+ regex +:+ "': " +:+ e))
  end.

(** One entry of the document: the pattern to append, or nothing with a
    warning, or the exception raised. *)
Definition load_entry (regex : string) (pattern_data : PatternData)
    : res (option ImprovementPattern.t) :=
  match pattern_data with
  | IdeasList ideas =>
      (do p <- new_ImprovementPattern regex ideas INFO []; ret (Some p))%res
  | Structured sev tags ideas =>
      (do severity <- Severity_of_value (default "info" sev);
       do ideas <- match ideas with
                   | Some i => ret i
                   | None => raise (KeyError "ideas")
                   end;
       do p <- new_ImprovementPattern regex ideas severity (default [] tags);
       ret (Some p))%res
  | OtherData => ret None
  end.

(** The [for regex, pattern_data in data.items()] loop. *)
Fixpoint load_entries (entries : list (string * PatternData))
    (patterns : list ImprovementPattern.t) (log : list log_record)
    : res (list ImprovementPattern.t) * list log_record :=
  match entries with
  | [] => (ret patterns, log)
  | (regex, pattern_data) :: rest =>
      match load_entry regex pattern_data with
      | inl e => (raise e, log)
      | inr (Some p) => load_entries rest (patterns ++ [p]) log
      | inr None =>
          load_entries rest patterns
            (log ++ [LogWarning ("Invalid pattern format for " +:+ regex)])
      end
  end.

Definition load_from_yaml (yaml_path : Path)
    : list ImprovementPattern.t * list log_record :=
  let body :=
    match safe_load yaml_path with
    | inl e => (raise e, [])
    | inr (YMapping entries) => load_entries entries [] []
    | inr YNotMapping => (raise AttributeError, [])
    end in
  match body with
  | (inr patterns, log) => (patterns, log)
  | (inl e, log) =>
      ([], log ++ [LogError ("Error loading patterns from " +:+ yaml_path) e])
  end.

Fixpoint load_multiple (yaml_paths : list Path)
    : list ImprovementPattern.t * list log_record :=
  match yaml_paths with
  | [] => ([], [])
  | path :: rest =>
      let '(patterns, log) := load_from_yaml path in
      let '(all_patterns, log') := load_multiple rest in
      (patterns ++ all_patterns, log ++ log')
  end.
End PatternLoader.

(** [convert_patterns_to_yaml]: the mapping handed to [yaml.dump], every
    pattern in the structured form with severity [info] and no tags. *)
Definition convert_patterns_to_yaml (patterns : PyDict.t string (list string))
    : YamlDocument :=
  YMapping
    (fold_left
       (fun structured_patterns '(regex, ideas) =>
          PyDict.set regex (Structured (Some "info") (Some []) (Some ideas))
            structured_patterns)
       (PyDict.items patterns) PyDict.empty).

(** ** quantum_analyzer.py: CodeAnalyzer *)

Module CodeAnalyzer.
Record t : Type := mk {
  patterns : list ImprovementPattern.t;
  min_severity : Severity;
  selected_tags : option (list string)   (* a set, or [None] *)
}.

(** [__init__]: [set(selected_tags) if selected_tags else None]; an empty
    list is falsy. *)
Definition new (patterns : list ImprovementPattern.t) (min_severity : Severity)
    (selected_tags : option (list string)) : t :=
  mk patterns min_severity
     match selected_tags with
     | Some (tag :: more) => Some (tag :: more)
     | _ => None
     end.

(** [self.severity_values] *)
Definition severity_values (s : Severity) : nat :=
  match s with
  | INFO => 0
  | WARNING => 1
  | CRITICAL => 2
  end.

(** [set(pattern.tags) & self.selected_tags] is non-empty *)
Definition tags_intersect (tags selected : list string) : bool :=
  existsb (fun tag => bool_decide (tag ∈ selected)) tags.

Definition _should_include_pattern (self : t) (pattern : ImprovementPattern.t)
    : bool :=
  if (severity_values (ImprovementPattern.severity pattern)
        <? severity_values (min_severity self))%nat
  then false
  else
    match selected_tags self with
    | Some (tag :: more) =>
        if negb (tags_intersect (ImprovementPattern.tags pattern) (tag :: more))
        then false else true
    | _ => true
    end.

(** The [for pattern in self.patterns] loop of [analyze_line]. *)
Fixpoint match_patterns (self : t) (line : string)
    (patterns : list ImprovementPattern.t) (results : list CodeLine.t)
    : list CodeLine.t :=
  match patterns with
  | [] => results
  | pattern :: rest =>
      if negb (_should_include_pattern self pattern)
      then match_patterns self line rest results
      else if ImprovementPattern.matches pattern line
      then match_patterns self line rest
             (results ++ [CodeLine.mk line
                            (ImprovementPattern.ideas pattern)
                            (ImprovementPattern.severity pattern)
                            (ImprovementPattern.tags pattern)])
      else match_patterns self line rest results
  end.

Definition analyze_line (self : t) (line : string) : list CodeLine.t :=
  let line := PyStr.strip line in
  if String.eqb line "" || PyStr.startswith "#" line
  then []
  else match_patterns self line (patterns self) [].

(** The [for line_num, line in enumerate(lines, 1)] loop of
    [analyze_file]. *)
Fixpoint scan_lines (self : t) (line_num : nat) (lines : list string)
    (results : PyDict.t nat CodeLine.t) : PyDict.t nat CodeLine.t :=
  match lines with
  | [] => results
  | line :: rest =>
      match analyze_line self line with
      | first :: _ => scan_lines self (S line_num) rest
                        (PyDict.set line_num first results)
      | [] => scan_lines self (S line_num) rest results
      end
  end.

Section Files.
(** [open(file_path, 'r', encoding='utf-8')] and [f.readlines()]: the
    lines, or the exception of an unreadable or undecodable file. *)
Variable readlines : Path -> res (list string).

(** The result and what was logged. [readlines] fails before the first
    line is analyzed, so [results] is still empty in the handler. *)
Definition analyze_file (self : t) (file_path : Path)
    : PyDict.t nat CodeLine.t * list log_record :=
  match readlines file_path with
  | inr lines => (scan_lines self 1 lines PyDict.empty, [])
  | inl e => (PyDict.empty, [LogError ("Error analyzing " +:+ file_path) e])
  end.
End Files.
End CodeAnalyzer.

(** ** quantum_analyzer.py: AnalysisResults *)

Module AnalysisResults.
(** [self.results]: path, then line number, then the stored dictionary
    with the keys [line], [ideas], [severity], [tags], kept as a
    [CodeLine.t]. *)
Definition t : Type := PyDict.t string (PyDict.t nat CodeLine.t).

Definition new : t := PyDict.empty.

(** [self.results[str_path][line_num] = {...}] on a [defaultdict(dict)] *)
Definition setitem (str_path : string) (line_num : nat) (code_line : CodeLine.t)
    (results : t) : t :=
  let inner := default PyDict.empty (PyDict.get str_path results) in
  PyDict.set str_path (PyDict.set line_num code_line inner) results.

(** The [for line_num, code_line in file_results.items()] loop. *)
Definition assign_all (str_path : string)
    (file_results : PyDict.t nat CodeLine.t) (results : t) : t :=
  fold_left (fun acc '(line_num, code_line) =>
               setitem str_path line_num code_line acc)
            (PyDict.items file_results) results.

Definition add_file_results (file_path : string)
    (file_results : PyDict.t nat CodeLine.t) (results : t) : t :=
  if PyDict.is_empty file_results
  then results
  else assign_all file_path file_results results.

Definition to_dict (results : t) : t := results.

Definition lookup (results : t) (path : string) (line_num : nat)
    : option CodeLine.t :=
  inner ← PyDict.get path results; PyDict.get line_num inner.
End AnalysisResults.

(** ** json.dump(..., indent=2) *)

Module Json.
Inductive value : Type :=
  | JString (s : string)
  | JArray (elements : list value)
  | JObject (members : list (string * value)).

Definition hex_digit (n : N) : ascii :=
  ascii_of_N (if (n <? 10)%N then 48 + n else 87 + n)%N.

Definition quote : string := String (ascii_of_N 34) "".
Definition backslash : string := String (ascii_of_N 92) "".

(** One character under [ensure_ascii=True]. *)
Definition escape_char (c : ascii) : string :=
  let n := N_of_ascii c in
  if (n =? 34)%N then backslash +:+ quote
  else if (n =? 92)%N then backslash +:+ backslash
  else if (n =? 8)%N then backslash +:+ "b"
  else if (n =? 12)%N then backslash +:+ "f"
  else if (n =? 10)%N then backslash +:+ "n"
  else if (n =? 13)%N then backslash +:+ "r"
  else if (n =? 9)%N then backslash +:+ "t"
  else if ((32 <=? n) && (n <=? 126))%N then String c ""
  else backslash +:+ "u00"
       +:+ String (hex_digit (n / 16)) (String (hex_digit (n mod 16)) "").

Fixpoint escape (s : string) : string :=
  match s with
  | EmptyString => ""
  | String c s' => escape_char c +:+ escape s'
  end.

Definition encode_basestring_ascii (s : string) : string :=
  quote +:+ escape s +:+ quote.

Fixpoint spaces (n : nat) : string :=
  match n with
  | O => ""
  | S n' => String " "%char (spaces n')
  end.

Definition newline_indent (level : nat) : string :=
  String (ascii_of_N 10) (spaces (2 * level)).

Fixpoint dumps (level : nat) (v : value) : string :=
  match v with
  | JString s => encode_basestring_ascii s
  | JArray [] => "[]"
  | JArray elements =>
      "[" +:+ newline_indent (S level)
      +:+ PyStr.join ("," +:+ newline_indent (S level))
            (map (dumps (S level)) elements)
      +:+ newline_indent level +:+ "]"
  | JObject [] => "{}"
  | JObject members =>
      "{" +:+ newline_indent (S level)
      +:+ PyStr.join ("," +:+ newline_indent (S level))
            (map (fun kv => encode_basestring_ascii (fst kv) +:+ ": "
                            +:+ dumps (S level) (snd kv)) members)
      +:+ newline_indent level +:+ "}"
  end.
End Json.

Module Report.
Definition of_code_line (c : CodeLine.t) : Json.value :=
  Json.JObject
    [ ("line", Json.JString (CodeLine.line c));
      ("ideas", Json.JArray (map Json.JString (CodeLine.ideas c)));
      ("severity", Json.JString (Severity_value (CodeLine.severity c)));
      ("tags", Json.JArray (map Json.JString (CodeLine.tags c))) ].

(** The integer line numbers become their decimal text as JSON keys. *)
Definition of_results (results : AnalysisResults.t) : Json.value :=
  Json.JObject
    (map (fun '(path, lines) =>
            (path, Json.JObject
                     (map (fun '(line_num, c) =>
                             (pretty (line_num : nat), of_code_line c))
                          (PyDict.items lines))))
         (PyDict.items (AnalysisResults.to_dict results))).

(** The text [save_json] writes. *)
Definition save_json (results : AnalysisResults.t) : string :=
  Json.dumps 0 (of_results results).
End Report.

(** ** quantum_analyzer.py: ProjectAnalyzer *)

Module ProjectAnalyzer.
Record t : Type := mk {
  project_path : Path;
  code_analyzer : CodeAnalyzer.t;
  results : AnalysisResults.t;
  parallel : bool
}.

Definition new (project_path : Path) (patterns : list ImprovementPattern.t)
    (min_severity : Severity) (selected_tags : option (list string))
    (parallel : bool) : t :=
  mk project_path (CodeAnalyzer.new patterns min_severity selected_tags)
     AnalysisResults.new parallel.

Section Files.
Variable readlines : Path -> res (list string).
(** [str(file_path.relative_to(project_path))] *)
Variable relative_to : Path -> Path -> string.
(** [list(project_path.rglob("*.py"))] *)
Variable rglob_py : Path -> list Path.

Definition get_python_files (self : t) : list Path :=
  rglob_py (project_path self).

Definition analyze_file_worker (self : t) (file_path : Path)
    : (string * PyDict.t nat CodeLine.t) * list log_record :=
  let relative_path := relative_to file_path (project_path self) in
  let '(file_results, log) :=
    CodeAnalyzer.analyze_file readlines (code_analyzer self) file_path in
  ((relative_path, file_results), log).

(** The sequential branch of [analyze]: the store and the log. *)
Definition analyze_sequential (self : t)
    : AnalysisResults.t * list log_record :=
  fold_left
    (fun '(results, log) file_path =>
       let relative_path := relative_to file_path (project_path self) in
       let '(file_results, log') :=
         CodeAnalyzer.analyze_file readlines (code_analyzer self) file_path in
       (AnalysisResults.add_file_results relative_path file_results results,
        log ++ log'))
    (get_python_files self) (results self, []).

(** The parallel branch: [executor.map] submits one task per file; the
    worker threads finish the tasks in any order and interleaved with
    the main thread, which takes the results in submission order and is
    the only writer of the store. *)
Record pool_state : Type := mk_pool {
  futures : list (option (string * PyDict.t nat CodeLine.t));
  collected : nat;          (* how many results the main thread has taken *)
  pool_results : AnalysisResults.t;
  pool_log : list log_record
}.

Definition pool_init (self : t) : pool_state :=
  mk_pool (replicate (length (get_python_files self)) None) 0
          (results self) [].

Inductive pool_step (self : t) : pool_state -> pool_state -> Prop :=
  | worker_finishes (s : pool_state) (i : nat) (file_path : Path) :
      get_python_files self !! i = Some file_path ->
      futures s !! i = Some None ->
      pool_step self s
        (mk_pool (<[i := Some (fst (analyze_file_worker self file_path))]>
                    (futures s))
                 (collected s) (pool_results s)
                 (pool_log s ++ snd (analyze_file_worker self file_path)))
  | main_collects (s : pool_state) (relative_path : string)
                  (file_results : PyDict.t nat CodeLine.t) :
      futures s !! collected s = Some (Some (relative_path, file_results)) ->
      pool_step self s
        (mk_pool (futures s) (S (collected s))
                 (AnalysisResults.add_file_results relative_path
                    file_results (pool_results s))
                 (pool_log s)).

Definition pool_done (self : t) (s : pool_state) : Prop :=
  collected s = length (get_python_files self).

(** [analyze] returns [r]. *)
Definition analyze (self : t) (r : AnalysisResults.t) : Prop :=
  if parallel self
  then exists s, rtc (pool_step self) (pool_init self) s
                 /\ pool_done self s /\ r = pool_results s
  else r = fst (analyze_sequential self).
End Files.
End ProjectAnalyzer.

(** ** code_analyzer.py and enhanced_code_analyzer.py: the older analyzers *)

Module Legacy.
(** The stored dictionary with the keys [line] and [ideas]. *)
Record entry : Type := mk_entry { line : string; ideas : list string }.

Definition results_t : Type := PyDict.t string (PyDict.t nat entry).

Definition setitem (relative_path : string) (line_num : nat) (e : entry)
    (results : results_t) : results_t :=
  let inner := default PyDict.empty (PyDict.get relative_path results) in
  PyDict.set relative_path (PyDict.set line_num e inner) results.

Definition lookup (results : results_t) (path : string) (line_num : nat)
    : option entry :=
  inner ← PyDict.get path results; PyDict.get line_num inner.

(** [os.path.join(root, file)] for POSIX paths. *)
Definition path_join (root file : string) : string :=
  if PyStr.startswith "/" file then file
  else if String.eqb root "" || PyStr.endswith "/" root then root +:+ file
  else root +:+ "/" +:+ file.

Section Analyzer.
(** [re.search(pattern, line)] as a truth value, for the patterns of the
    built-in tables. *)
Variable re_search : string -> string -> bool.
Variable readlines : Path -> res (list string).
(** [IMPROVEMENT_PATTERNS], respectively [ALL_PATTERNS]. *)
Variable table : list (string * list string).

(** code_analyzer.py, the [for pattern, ideas in ...] loop: every
    matching pattern assigns the entry of the line. *)
Fixpoint assign_matches (table : list (string * list string))
    (relative_path : string) (line_num : nat) (line : string)
    (results : results_t) : results_t :=
  match table with
  | [] => results
  | (pattern, ideas) :: rest =>
      assign_matches rest relative_path line_num line
        (if re_search pattern line
         then setitem relative_path line_num (mk_entry line ideas) results
         else results)
  end.

(** enhanced_code_analyzer.py, the same loop guarded by
    [if line_num not in results[relative_path]]. *)
Fixpoint assign_first_match (table : list (string * list string))
    (relative_path : string) (line_num : nat) (line : string)
    (results : results_t) : results_t :=
  match table with
  | [] => results
  | (pattern, ideas) :: rest =>
      assign_first_match rest relative_path line_num line
        (if re_search pattern line
         then
           let inner := default PyDict.empty (PyDict.get relative_path results) in
           if PyDict.mem line_num inner
           then PyDict.set relative_path inner results
           else setitem relative_path line_num (mk_entry line ideas) results
         else results)
  end.

Fixpoint scan_lines
    (assign : string -> nat -> string -> results_t -> results_t)
    (relative_path : string) (line_num : nat) (lines : list string)
    (results : results_t) : results_t :=
  match lines with
  | [] => results
  | line :: rest =>
      let line := PyStr.strip line in
      scan_lines assign relative_path (S line_num) rest
        (if String.eqb line "" || PyStr.startswith "#" line
         then results
         else assign relative_path line_num line results)
  end.

(** code_analyzer.py: the file is opened outside any handler. *)
Definition analyze_file (file_path : Path) (relative_path : string)
    (results : results_t) : res results_t :=
  (do lines <- readlines file_path;
   ret (scan_lines (assign_matches table) relative_path 1 lines results))%res.

(** enhanced_code_analyzer.py: any exception is printed and the results
    are left as they are. *)
Definition analyze_file_enhanced (file_path : Path) (relative_path : string)
    (results : results_t) : results_t :=
  match readlines file_path with
  | inr lines =>
      scan_lines (assign_first_match table) relative_path 1 lines results
  | inl _ => results
  end.

(** [os.walk(directory_path)]: each directory with the names of its files;
    [os.path.relpath(file_path, directory_path)]. *)
Variable walk : string -> list (string * list string).
Variable relpath : string -> string -> string.

(** code_analyzer.py, [analyze_code_files]: the loop over the files of one
    directory and the loop over the directories.  An exception of
    [analyze_file] leaves both loops. *)
Fixpoint analyze_files (directory_path root : string) (files : list string)
    (results : results_t) : res results_t :=
  match files with
  | [] => ret results
  | file :: rest =>
      if PyStr.endswith ".py" file then
        let file_path := path_join root file in
        let relative_path := relpath file_path directory_path in
        (do results' <- analyze_file file_path relative_path results;
         analyze_files directory_path root rest results')%res
      else analyze_files directory_path root rest results
  end.

Fixpoint analyze_dirs (directory_path : string)
    (dirs : list (string * list string)) (results : results_t)
    : res results_t :=
  match dirs with
  | [] => ret results
  | (root, files) :: rest =>
      (do results' <- analyze_files directory_path root files results;
       analyze_dirs directory_path rest results')%res
  end.

Definition analyze_code_files (directory_path : string) : res results_t :=
  analyze_dirs directory_path (walk directory_path) PyDict.empty.

(** enhanced_code_analyzer.py, [analyze_code_files]. *)
Fixpoint analyze_files_enhanced (directory_path root : string)
    (files : list string) (results : results_t) : results_t :=
  match files with
  | [] => results
  | file :: rest =>
      if PyStr.endswith ".py" file then
        let file_path := path_join root file in
        let relative_path := relpath file_path directory_path in
        analyze_files_enhanced directory_path root rest
          (analyze_file_enhanced file_path relative_path results)
      else analyze_files_enhanced directory_path root rest results
  end.

Fixpoint analyze_dirs_enhanced (directory_path : string)
    (dirs : list (string * list string)) (results : results_t) : results_t :=
  match dirs with
  | [] => results
  | (root, files) :: rest =>
      analyze_dirs_enhanced directory_path rest
        (analyze_files_enhanced directory_path root files results)
  end.

Definition analyze_code_files_enhanced (directory_path : string) : results_t :=
  analyze_dirs_enhanced directory_path (walk directory_path) PyDict.empty.
End Analyzer.
End Legacy.

(** ** The syntax tree of libcst, as far as the fixer looks at it

    The children listed are those that can hold a call: an expression of an
    f-string has its format specification, again a sequence of parts,
    beside the expression itself; [leave_Call] builds such expressions
    without one ([None], the default of the class). *)

Module Cst.
Inductive expr : Type :=
  | Name (value : string)
  | SimpleString (value : string)      (* the literal with prefix and quotes *)
  | Attribute (value : expr) (attr : string)
  | Call (func : expr) (args : list Arg)
  | FormattedString (parts : list FormattedStringContent) (start end_ : string)
  | Node (kind : string) (children : list expr)   (* every other node class *)
with Arg : Type :=
  | mkArg (keyword : option string) (value : expr)
with FormattedStringContent : Type :=
  | FormattedStringText (value : string)
  | FormattedStringExpression (expression : expr)
      (format_spec : option (list FormattedStringContent)).

Definition keyword (a : Arg) : option string :=
  match a with mkArg k _ => k end.
Definition arg_value (a : Arg) : expr :=
  match a with mkArg _ v => v end.
End Cst.

(** ** quantum_analyzer/fix/format_to_fstring.py *)

Module FormatToFString.
Import Cst.

(** One match of [re.finditer(placeholder_pattern, template)], where the
    pattern is an opening brace, a group of any number of characters
    other than braces, and a closing brace: its span and its group 1. *)
Record re_match : Type := mk_match {
  m_start : nat;
  m_end : nat;
  group1 : string
}.

(** The matches from left to right.  A match starts at an opening brace
    that is followed by characters other than braces and then a closing
    brace; [opened] is the position of the last opening brace with only
    such characters after it, the one candidate start still alive. *)
Fixpoint finditer_go (template rest : string) (pos : nat) (opened : option nat)
    : list re_match :=
  match rest with
  | EmptyString => []
  | String c rest' =>
      if Ascii.eqb c "{" then finditer_go template rest' (S pos) (Some pos)
      else if Ascii.eqb c "}" then
        match opened with
        | Some start =>
            mk_match start (S pos) (PyStr.slice template (S start) pos)
            :: finditer_go template rest' (S pos) None
        | None => finditer_go template rest' (S pos) None
        end
      else finditer_go template rest' (S pos) opened
  end.

Definition finditer (template : string) : list re_match :=
  finditer_go template template 0 None.

(** What the pattern asks of a match: an opening brace at [m_start], the
    group without braces, a closing brace just before [m_end]. *)
Definition no_brace (body : string) : bool :=
  PyStr.forallb_string
    (fun c => negb (Ascii.eqb c "{") && negb (Ascii.eqb c "}")) body.

Definition is_placeholder (template : string) (m : re_match) : Prop :=
  exists before after,
    template = before +:+ "{" +:+ group1 m +:+ "}" +:+ after
    /\ m_start m = String.length before
    /\ m_end m = String.length before + String.length (group1 m) + 2
    /\ no_brace (group1 m) = true.

(** The [for arg in original_node.args] loop. *)
Fixpoint split_args (args : list Arg) (positional_args : list expr)
    (keyword_args : PyDict.t string expr)
    : list expr * PyDict.t string expr :=
  match args with
  | [] => (positional_args, keyword_args)
  | mkArg None value :: rest =>
      split_args rest (positional_args ++ [value]) keyword_args
  | mkArg (Some key) value :: rest =>
      split_args rest positional_args (PyDict.set key value keyword_args)
  end.

(** The variables of the [for match in placeholders] loop. *)
Record loop_state : Type := mk_loop {
  parts : list FormattedStringContent;
  last_end : nat;
  idx : nat
}.

Definition loop_init : loop_state := mk_loop [] 0 0.

(** The body of the loop for one match. *)
Definition process_match (template : string) (positional_args : list expr)
    (keyword_args : PyDict.t string expr) (st : loop_state) (m : re_match)
    : res loop_state :=
  let start := m_start m in
  let placeholder := group1 m in
  let parts :=
    if (last_end st <? start)%nat
    then parts st ++ [FormattedStringText (PyStr.slice template (last_end st) start)]
    else parts st in
  (do '(parts, idx) <-
     (if String.eqb placeholder "" then
        if (idx st <? length positional_args)%nat then
          match positional_args !! idx st with
          | Some e => ret (parts ++ [FormattedStringExpression e None], S (idx st))
          | None => ret (parts, idx st)
          end
        else ret (parts, idx st)
      else if PyStr.isdigit placeholder then
        do index <- PyStr.int placeholder;
        if (index <? N.of_nat (length positional_args))%N then
          match positional_args !! N.to_nat index with
          | Some e => ret (parts ++ [FormattedStringExpression e None], idx st)
          | None => ret (parts, idx st)
          end
        else ret (parts, idx st)
      else
        match PyDict.get placeholder keyword_args with
        | Some e => ret (parts ++ [FormattedStringExpression e None], idx st)
        | None => ret (parts, idx st)
        end);
   ret (mk_loop parts (m_end m) idx))%res.

Fixpoint run_matches (template : string) (positional_args : list expr)
    (keyword_args : PyDict.t string expr) (matches : list re_match)
    (st : loop_state) : res loop_state :=
  match matches with
  | [] => ret st
  | m :: rest =>
      (do st' <- process_match template positional_args keyword_args st m;
       run_matches template positional_args keyword_args rest st')%res
  end.

(** The parts of the f-string: the loop, then the remaining text. *)
Definition fstring_parts (template : string) (positional_args : list expr)
    (keyword_args : PyDict.t string expr) : res (list FormattedStringContent) :=
  (do st <- run_matches template positional_args keyword_args
              (finditer template) loop_init;
   ret (if (last_end st <? String.length template)%nat
        then parts st ++ [FormattedStringText (PyStr.slice_from template (last_end st))]
        else parts st))%res.

(** The guard [template.startswith] on the two quote characters, then
    [template[1:-1]]. *)
Definition strip_quotes (literal : string) : string :=
  if PyStr.startswith "'" literal || PyStr.startswith Json.quote literal
  then PyStr.slice_1_m1 literal
  else literal.

Definition fstring_start : string := "f" +:+ Json.quote.
Definition fstring_end : string := Json.quote.

(** [leave_Call] with the counter [self.changes] passed through. *)
Definition leave_Call (original_node updated_node : expr) (changes : nat)
    : res (expr * nat) :=
  match original_node with
  | Call (Attribute (SimpleString literal) attr) args =>
      if String.eqb attr "format" then
        let template := strip_quotes literal in
        let '(positional_args, keyword_args) := split_args args [] PyDict.empty in
        (do parts <- fstring_parts template positional_args keyword_args;
         ret (FormattedString parts fstring_start fstring_end, S changes))%res
      else ret (updated_node, changes)
  | _ => ret (updated_node, changes)
  end.

(** [node.visit(self)]: the children first, then [leave_Call] on a call
    with the node as it was and the node with its visited children. *)
Fixpoint visit (node : expr) (changes : nat) : res (expr * nat) :=
  match node with
  | Name _ | SimpleString _ => ret (node, changes)
  | Attribute value attr =>
      (do '(value', c) <- visit value changes;
       ret (Attribute value' attr, c))%res
  | Call func args =>
      (do '(func', c1) <- visit func changes;
       do '(args', c2) <-
         (fix visit_args (l : list Arg) (c : nat) : res (list Arg * nat) :=
            match l with
            | [] => ret ([], c)
            | a :: l' =>
                do '(a', c') <- visit_arg a c;
                do '(rest, c2') <- visit_args l' c';
                ret (a' :: rest, c2')
            end) args c1;
       leave_Call node (Call func' args') c2)%res
  | FormattedString parts start end_ =>
      (do '(parts', c) <-
         (fix visit_parts (l : list FormattedStringContent) (c : nat)
            : res (list FormattedStringContent * nat) :=
            match l with
            | [] => ret ([], c)
            | p :: l' =>
                do '(p', c') <- visit_part p c;
                do '(rest, c2') <- visit_parts l' c';
                ret (p' :: rest, c2')
            end) parts changes;
       ret (FormattedString parts' start end_, c))%res
  | Node kind children =>
      (do '(children', c) <-
         (fix visit_children (l : list expr) (c : nat) : res (list expr * nat) :=
            match l with
            | [] => ret ([], c)
            | e :: l' =>
                do '(e', c') <- visit e c;
                do '(rest, c2') <- visit_children l' c';
                ret (e' :: rest, c2')
            end) children changes;
       ret (Node kind children', c))%res
  end
with visit_arg (a : Arg) (changes : nat) : res (Arg * nat) :=
  match a with
  | mkArg keyword value =>
      (do '(value', c) <- visit value changes;
       ret (mkArg keyword value', c))%res
  end
with visit_part (p : FormattedStringContent) (changes : nat)
    : res (FormattedStringContent * nat) :=
  match p with
  | FormattedStringText _ => ret (p, changes)
  | FormattedStringExpression expression format_spec =>
      (do '(expression', c) <- visit expression changes;
       do '(format_spec', c') <-
         match format_spec with
         | None => ret (None, c)
         | Some spec =>
             do '(spec', c2) <-
               (fix visit_spec (l : list FormattedStringContent) (c : nat)
                  : res (list FormattedStringContent * nat) :=
                  match l with
                  | [] => ret ([], c)
                  | p :: l' =>
                      do '(p', c') <- visit_part p c;
                      do '(rest, c2') <- visit_spec l' c';
                      ret (p' :: rest, c2')
                  end) spec c;
             ret (Some spec', c2)
         end;
       ret (FormattedStringExpression expression' format_spec', c'))%res
  end.

(** The test at the head of [leave_Call]: a call of the attribute [format]
    of a string literal. *)
Definition is_target (node : expr) : bool :=
  match node with
  | Call (Attribute (SimpleString _) attr) _ => String.eqb attr "format"
  | _ => false
  end.

(** How many nodes of a tree pass that test. *)
Fixpoint count_targets (node : expr) : nat :=
  (if is_target node then 1 else 0)
  + match node with
    | Name _ | SimpleString _ => 0
    | Attribute value _ => count_targets value
    | Call func args =>
        count_targets func
        + (fix go (l : list Arg) : nat :=
             match l with
             | [] => 0
             | mkArg _ value :: l' => count_targets value + go l'
             end) args
    | FormattedString parts _ _ =>
        (fix go (l : list FormattedStringContent) : nat :=
           match l with
           | [] => 0
           | p :: l' => count_targets_part p + go l'
           end) parts
    | Node _ children =>
        (fix go (l : list expr) : nat :=
           match l with
           | [] => 0
           | e :: l' => count_targets e + go l'
           end) children
    end
with count_targets_part (p : FormattedStringContent) : nat :=
  match p with
  | FormattedStringText _ => 0
  | FormattedStringExpression x format_spec =>
      count_targets x
      + match format_spec with
        | None => 0
        | Some spec =>
            (fix go (l : list FormattedStringContent) : nat :=
               match l with
               | [] => 0
               | p :: l' => count_targets_part p + go l'
               end) spec
        end
  end.

(** A list of children visited from left to right with the counter passed
    along, as [visit] does for arguments, parts and children. *)
Fixpoint visit_all {A : Type} (visit_one : A -> nat -> res (A * nat))
    (l : list A) (changes : nat) : res (list A * nat) :=
  match l with
  | [] => ret ([], changes)
  | a :: l' =>
      (do '(a', c') <- visit_one a changes;
       do '(rest, c2') <- visit_all visit_one l' c';
       ret (a' :: rest, c2'))%res
  end.

Definition count_targets_arg (a : Arg) : nat :=
  match a with mkArg _ value => count_targets value end.

(** [visit_part] on the format specification of an expression. *)
Definition visit_format_spec (format_spec : option (list FormattedStringContent))
    (changes : nat) : res (option (list FormattedStringContent) * nat) :=
  match format_spec with
  | None => ret (None, changes)
  | Some spec =>
      (do '(spec', c) <- visit_all visit_part spec changes;
       ret (Some spec', c))%res
  end.

(** No call that [leave_Call] rewrites has such a call inside one of its
    arguments. *)
Fixpoint flat (node : expr) : bool :=
  match node with
  | Name _ | SimpleString _ => true
  | Attribute value _ => flat value
  | Call func args =>
      if is_target node
      then forallb (fun a => Nat.eqb (count_targets_arg a) 0) args
      else flat func
           && (fix go (l : list Arg) : bool :=
                 match l with
                 | [] => true
                 | mkArg _ value :: l' => flat value && go l'
                 end) args
  | FormattedString parts _ _ =>
      (fix go (l : list FormattedStringContent) : bool :=
         match l with
         | [] => true
         | p :: l' => flat_part p && go l'
         end) parts
  | Node _ children =>
      (fix go (l : list expr) : bool :=
         match l with
         | [] => true
         | e :: l' => flat e && go l'
         end) children
  end
with flat_part (p : FormattedStringContent) : bool :=
  match p with
  | FormattedStringText _ => true
  | FormattedStringExpression x format_spec =>
      flat x
      && match format_spec with
         | None => true
         | Some spec =>
             (fix go (l : list FormattedStringContent) : bool :=
                match l with
                | [] => true
                | p :: l' => flat_part p && go l'
                end) spec
         end
  end.

(** The expressions among the parts of an f-string, in order. *)
Definition expressions_of (parts : list FormattedStringContent) : list expr :=
  omap (fun p => match p with
                 | FormattedStringExpression e _ => Some e
                 | FormattedStringText _ => None
                 end) parts.

Section Apply.
(** [cst.parse_module] and the [code] of a module. *)
Variable parse_module : string -> res expr.
Variable code_for : expr -> string.

(** [apply]: [self.changes = 0], then parse, visit and print inside
    [try]; the handler returns the source and 0. *)
Definition apply (source_code : string) : string * nat :=
  match (do module <- parse_module source_code;
         do '(modified_module, changes) <- visit module 0;
         ret (code_for modified_module, changes))%res with
  | inr result => result
  | inl _ => (source_code, 0)
  end.
End Apply.
End FormatToFString.

(** ** quantum_analyzer/fix/__init__.py *)

Module Fix.
Inductive fixer_class : Type := FormatToFString_class.

Definition AVAILABLE_FIXERS : PyDict.t string fixer_class :=
  [("format_to_fstring", FormatToFString_class)].

Definition not_found_message (fixer_name : string) : string :=
  "Fixer " +:+ fixer_name +:+ " not found. Available fixers: "
  +:+ PyStr.join ", " (PyDict.keys AVAILABLE_FIXERS).

Definition get_fixer (fixer_name : string) : res fixer_class :=
  match PyDict.get fixer_name AVAILABLE_FIXERS with
  | None => raise (ValueError (not_found_message fixer_name))
  | Some cls => ret cls
  end.

(** [file_path.name]: the text after the last slash. *)
Fixpoint name (file_path : Path) : string :=
  match file_path with
  | EmptyString => ""
  | String c rest =>
      if Ascii.eqb c "/" then name rest
      else match String.index 0 "/" rest with
           | Some _ => name rest
           | None => file_path
           end
  end.

Section ApplyFixes.
Variable parse_module : string -> res Cst.expr.
Variable code_for : Cst.expr -> string.
(** The file system, [read_text] and [write_text]. *)
Variable FS : Type.
Variable read_text : FS -> Path -> res string.
Variable write_text : FS -> Path -> string -> res FS.

(** [fixer_class().apply(content)] *)
Definition fixer_apply (cls : fixer_class) (content : string) : string * nat :=
  match cls with
  | FormatToFString_class =>
      FormatToFString.apply parse_module code_for content
  end.

(** The [for fixer_name in fixers] loop; [out] is what was printed. *)
Fixpoint apply_each (file_path : Path) (fixers : list string)
    (content : string) (fixes_applied : nat) (out : list log_record)
    : string * nat * list log_record :=
  match fixers with
  | [] => (content, fixes_applied, out)
  | fixer_name :: rest =>
      match (do cls <- get_fixer fixer_name;
             ret (fixer_apply cls content))%res with
      | inr (new_content, applied) =>
          if (0 <? applied)%nat
          then apply_each file_path rest new_content (fixes_applied + applied) out
          else apply_each file_path rest content fixes_applied out
      | inl e =>
          apply_each file_path rest content fixes_applied
            (out ++ [LogError ("Error applying fixer " +:+ fixer_name
                               +:+ " to " +:+ file_path) e])
      end
  end.

(** The number returned, the file system afterwards and what was
    printed. *)
Definition apply_fixes (fs : FS) (file_path : Path) (fixers : list string)
    : nat * FS * list log_record :=
  if negb (PyStr.endswith ".py" (name file_path)) then (0, fs, [])
  else
    match read_text fs file_path with
    | inl e => (0, fs, [LogError ("Error reading file " +:+ file_path) e])
    | inr content =>
        let '(content, fixes_applied, out) :=
          apply_each file_path fixers content 0 [] in
        if (0 <? fixes_applied)%nat then
          match write_text fs file_path content with
          | inr fs' => (fixes_applied, fs', out)
          | inl e =>
              (0, fs, out ++ [LogError ("Error writing to file " +:+ file_path) e])
          end
        else (fixes_applied, fs, out)
    end.
End ApplyFixes.
End Fix.

(** ** quantum_analyzer/config.py: merge_with_args *)

Module Config.
Section Merge.
(** The values of attributes and arguments stay abstract; [None] is the
    [None] of Python. *)
Variable V : Type.
(** The names [hasattr] finds on the class of the configuration object
    (methods and the like) without their being attributes of the instance. *)
Variable class_attribute : string -> bool.

(** The attributes of an [AnalyzerConfig] instance; [vars(args)]. *)
Definition attributes : Type := PyDict.t string (option V).

Definition hasattr (config : attributes) (key : string) : bool :=
  PyDict.mem key config || class_attribute key.

(** The loop [for key, value in args_dict.items()] with its
    [setattr(config, key, value)]. *)
Definition merge_with_args (config args_dict : attributes) : attributes :=
  fold_left
    (fun config '(key, value) =>
       if hasattr config key
          && match value with Some _ => true | None => false end
       then PyDict.set key value config
       else config)
    (PyDict.items args_dict) config.
End Merge.
End Config.

(** ** Stand-ins for the libraries and the operating system

    The definitions above take the regular-expression engine, the YAML
    reader, the parser and printer of libcst and the file system as
    parameters.  The instances below fix them for worked examples. *)

Module Examples.
Import Cst.

(** A file system in memory: a readable and writable file with its text,
    or a file whose reading fails. *)
Inductive file : Type :=
  | Text (content : string)
  | Unreadable.

Definition FS : Type := PyDict.t Path file.

Definition read_text (fs : FS) (p : Path) : res string :=
  match PyDict.get p fs with
  | Some (Text content) => ret content
  | _ => raise OSError
  end.

Definition write_text (fs : FS) (p : Path) (content : string) : res FS :=
  match PyDict.get p fs with
  | Some Unreadable => raise OSError
  | _ => ret (PyDict.set p (Text content) fs)
  end.

Definition LF : string := String (ascii_of_N 10) "".

(** Lines with their line ends, as [readlines] returns them. *)
Fixpoint split_keepends (s : string) (cur : string) : list string :=
  match s with
  | EmptyString => match cur with EmptyString => [] | _ => [cur] end
  | String c s' =>
      if Ascii.eqb c (ascii_of_N 10)
      then (cur +:+ LF) :: split_keepends s' ""
      else split_keepends s' (cur +:+ String c "")
  end.

Definition readlines (fs : FS) (p : Path) : res (list string) :=
  (do content <- read_text fs p; ret (split_keepends content ""))%res.

(** Paths are kept relative to the project root. *)
Definition relative_to (file_path project_path : Path) : string := file_path.

Fixpoint contains (needle hay : string) : bool :=
  String.prefix needle hay
  || match hay with
     | EmptyString => false
     | String _ hay' => contains needle hay'
     end.

Definition is_meta (c : ascii) : bool :=
  existsb (Ascii.eqb c)
    (list_ascii_of_string ".^$*+?{}[]|()" ++ [ascii_of_N 92]).

(** A regular expression without special characters searches for itself
    as a substring, and [re] rejects a lone opening parenthesis or bracket.
    The stand-in agrees with [re] on these expressions, the only ones the
    examples use; it rejects every other expression with a special
    character as well. *)
Definition re_compile (regex : string) : string + (string -> bool) :=
  if existsb is_meta (list_ascii_of_string regex)
  then inl "unsupported or malformed expression"
  else inr (contains regex).

Definition re_search (regex line : string) : bool :=
  match re_compile regex with
  | inr search => search line
  | inl _ => false
  end.

(** The printer of a tree with default spacing. *)
Fixpoint code_for (e : expr) : string :=
  match e with
  | Name value => value
  | SimpleString value => value
  | Attribute value attr => code_for value +:+ "." +:+ attr
  | Call func args =>
      code_for func +:+ "("
      +:+ PyStr.join ", "
            (map (fun a => match a with
                           | mkArg None v => code_for v
                           | mkArg (Some k) v => k +:+ "=" +:+ code_for v
                           end) args)
      +:+ ")"
  | FormattedString parts start end_ =>
      start +:+ PyStr.join "" (map code_for_part parts) +:+ end_
  | Node _ children => PyStr.join LF (map code_for children)
  end
with code_for_part (p : FormattedStringContent) : string :=
  match p with
  | FormattedStringText t => t
  | FormattedStringExpression x format_spec =>
      "{" +:+ code_for x
      +:+ match format_spec with
          | None => ""
          | Some spec => ":" +:+ PyStr.join "" (map code_for_part spec)
          end
      +:+ "}"
  end.

(** A YAML reader by table: the listed documents, [OSError] otherwise. *)
Definition safe_load (docs : list (Path * YamlDocument)) (p : Path)
    : res YamlDocument :=
  match PyDict.get p docs with
  | Some d => ret d
  | None => raise OSError
  end.

(** A document whose second entry has an expression [re] rejects, one
    whose second entry names an unknown severity, and a sound one. *)
Definition rule_documents : list (Path * YamlDocument) :=
  [ ("regex.yaml",
     YMapping [ ("return", IdeasList ["Validate return values"]);
                ("(", IdeasList ["Balance the parentheses"]);
                ("import random", IdeasList ["Use a safer RNG"]) ]);
    ("severity.yaml",
     YMapping [ ("return", Structured (Some "warning") (Some ["return"])
                             (Some ["Validate return values"]));
                ("print", Structured (Some "fatal") None
                            (Some ["Use logging"])) ]);
    ("good.yaml",
     YMapping [ ("import random", Structured (Some "critical") None
                                    (Some ["Use a safer RNG"])) ]) ].

(** A project of three files, the second of which cannot be read. *)
Definition project_fs : FS :=
  [ ("a.py", Text ("import random" +:+ LF +:+ "x = 1" +:+ LF));
    ("bad.py", Unreadable);
    ("c.py", Text ("# note" +:+ LF +:+ "    return x" +:+ LF)) ].

Definition project_files (project_path : Path) : list Path :=
  ["a.py"; "bad.py"; "c.py"].

Definition project_patterns : list ImprovementPattern.t :=
  [ ImprovementPattern.mk "return" ["Validate return values"] WARNING
      ["return"] (contains "return");
    ImprovementPattern.mk "import random" ["Use a safer RNG"] CRITICAL
      ["import"] (contains "import random") ].

(** A parser by table: the listed trees are found by their printed text,
    every other text is a syntax error. *)
Definition parse_module (known : list expr) (source : string) : res expr :=
  match List.find (fun e => String.eqb (code_for e) source) known with
  | Some e => ret e
  | None => raise ParserSyntaxError
  end.

(** Source trees for the fixer. *)
Definition dq (s : string) : string := Json.quote +:+ s +:+ Json.quote.

Definition format_call (literal : string) (args : list Arg) : expr :=
  Call (Attribute (SimpleString literal) "format") args.

(** [print("{} and {age}".format(x, age=y))] *)
Definition print_source : expr :=
  Node "Module"
    [Call (Name "print")
       [mkArg None
          (format_call (dq "{} and {age}")
             [mkArg None (Name "x"); mkArg (Some "age") (Name "y")])]].

(** A format call whose argument is a format call on a single-quoted
    literal, and what the first and the second run of the fixer make of
    it. *)
Definition nested_source : expr :=
  Node "Module"
    [format_call (dq "{}")
       [mkArg None (format_call "'{}'" [mkArg None (Name "x")])]].

Definition nested_once : expr :=
  Node "Module"
    [FormattedString
       [FormattedStringExpression
          (format_call "'{}'" [mkArg None (Name "x")]) None]
       FormatToFString.fstring_start FormatToFString.fstring_end].

Definition nested_twice : expr :=
  Node "Module"
    [FormattedString
       [FormattedStringExpression
          (FormattedString [FormattedStringExpression (Name "x") None]
             FormatToFString.fstring_start FormatToFString.fstring_end) None]
       FormatToFString.fstring_start FormatToFString.fstring_end].

(** An f-string whose format specification holds a format call, and what
    the fixer makes of it: the specification is visited like any part. *)
Definition spec_source : expr :=
  Node "Module"
    [FormattedString
       [FormattedStringExpression (Name "x")
          (Some [FormattedStringExpression
                   (format_call "'>{}'" [mkArg None (Name "w")]) None])]
       FormatToFString.fstring_start FormatToFString.fstring_end].

Definition spec_once : expr :=
  Node "Module"
    [FormattedString
       [FormattedStringExpression (Name "x")
          (Some [FormattedStringExpression
                   (FormattedString
                      [FormattedStringText ">";
                       FormattedStringExpression (Name "w") None]
                      FormatToFString.fstring_start
                      FormatToFString.fstring_end) None])]
       FormatToFString.fstring_start FormatToFString.fstring_end].

Definition known_modules : list expr :=
  [print_source; nested_source; nested_once].

Definition fixer_fs : FS :=
  [ ("m.py", Text (code_for print_source));
    ("locked.py", Unreadable) ].
End Examples.

(** * Properties *)

(** ** Dictionaries *)

Section PyDictFacts.
Context {K V : Type} `{EqDecision K}.
Implicit Types (d : PyDict.t K V) (k : K) (v : V).

Lemma get_set_eq d k v : PyDict.get k (PyDict.set k v d) = Some v.
Proof.
  induction d as [|[k' v'] d IH]; simpl.
  - by rewrite decide_True.
  - destruct (decide (k' = k)) as [->|Hne]; simpl.
    + by rewrite decide_True.
    + by rewrite decide_False.
Qed.

Lemma get_set_ne d k k' v :
  k <> k' -> PyDict.get k' (PyDict.set k v d) = PyDict.get k' d.
Proof.
  intros Hne. induction d as [|[k0 v0] d IH]; simpl.
  - by rewrite decide_False.
  - destruct (decide (k0 = k)) as [->|Hne0]; simpl.
    + by rewrite !decide_False.
    + destruct (decide (k0 = k')); [done | apply IH].
Qed.

Lemma get_None_notin d k : PyDict.get k d = None <-> k ∉ PyDict.keys d.
Proof.
  unfold PyDict.keys. induction d as [|[k0 v0] d IH]; simpl.
  - split; [intros _; apply not_elem_of_nil | done].
  - rewrite not_elem_of_cons. destruct (decide (k0 = k)) as [->|Hne].
    + split; [done | intros [? _]; done].
    + rewrite IH. split; [intros ?; split; [congruence | done] | intros [_ ?]; done].
Qed.

(** Assigning a key that is absent appends the entry. *)
Lemma set_fresh d k v :
  k ∉ PyDict.keys d -> PyDict.set k v d = d ++ [(k, v)].
Proof.
  unfold PyDict.keys. induction d as [|[k0 v0] d IH]; simpl; [done|].
  rewrite not_elem_of_cons. intros [Hne Hd].
  rewrite decide_False by congruence. by rewrite IH.
Qed.

Lemma keys_set d k v :
  PyDict.keys (PyDict.set k v d)
  = if PyDict.mem k d then PyDict.keys d else PyDict.keys d ++ [k].
Proof.
  unfold PyDict.keys, PyDict.mem.
  induction d as [|[k0 v0] d IH]; csimpl; [done|].
  destruct (decide (k0 = k)) as [->|Hne]; csimpl; [done|].
  rewrite IH. by destruct (PyDict.get k d).
Qed.

Lemma NoDup_keys_set d k v :
  NoDup (PyDict.keys d) -> NoDup (PyDict.keys (PyDict.set k v d)).
Proof.
  intros Hd. rewrite keys_set. unfold PyDict.mem.
  destruct (PyDict.get k d) eqn:Hg; [done|].
  apply get_None_notin in Hg.
  apply NoDup_app. split_and!; [done | | apply NoDup_singleton].
  intros x Hx Hin. apply list_elem_of_singleton in Hin. by subst.
Qed.
End PyDictFacts.

(** ** The result store *)

Section StoreFacts.
Implicit Types (results : AnalysisResults.t) (path : string) (n : nat)
               (c : CodeLine.t) (fr : PyDict.t nat CodeLine.t).

Lemma lookup_new path n : AnalysisResults.lookup AnalysisResults.new path n = None.
Proof. done. Qed.

Lemma lookup_setitem_eq results path n c :
  AnalysisResults.lookup (AnalysisResults.setitem path n c results) path n = Some c.
Proof.
  unfold AnalysisResults.lookup, AnalysisResults.setitem.
  rewrite get_set_eq. simpl. apply get_set_eq.
Qed.

Lemma lookup_setitem_ne results path path' n n' c :
  (path, n) <> (path', n') ->
  AnalysisResults.lookup (AnalysisResults.setitem path n c results) path' n'
  = AnalysisResults.lookup results path' n'.
Proof.
  intros Hne. unfold AnalysisResults.lookup, AnalysisResults.setitem.
  destruct (decide (path = path')) as [->|Hp].
  - rewrite get_set_eq. simpl.
    rewrite get_set_ne by congruence.
    by destruct (PyDict.get path' results).
  - by rewrite get_set_ne.
Qed.

Lemma get_setitem_ne results path path' n c :
  path <> path' ->
  PyDict.get path' (AnalysisResults.setitem path n c results)
  = PyDict.get path' results.
Proof. intros. unfold AnalysisResults.setitem. by rewrite get_set_ne. Qed.

Lemma add_file_results_assign path fr results :
  AnalysisResults.add_file_results path fr results
  = AnalysisResults.assign_all path fr results.
Proof. unfold AnalysisResults.add_file_results. by destruct fr. Qed.

Lemma assign_all_cons path k c fr results :
  AnalysisResults.assign_all path ((k, c) :: fr) results
  = AnalysisResults.assign_all path fr (AnalysisResults.setitem path k c results).
Proof. reflexivity. Qed.

Lemma assign_all_other_path path path' fr results :
  path <> path' ->
  PyDict.get path' (AnalysisResults.assign_all path fr results) = PyDict.get path' results.
Proof.
  intros Hne. revert results.
  induction fr as [|[k c] fr IH]; intros results; [done|].
  rewrite assign_all_cons, IH. by apply get_setitem_ne.
Qed.

Lemma assign_all_absent path fr results n :
  n ∉ PyDict.keys fr ->
  AnalysisResults.lookup (AnalysisResults.assign_all path fr results) path n
  = AnalysisResults.lookup results path n.
Proof.
  revert results. unfold PyDict.keys.
  induction fr as [|[k c] fr IH]; intros results; [done|].
  rewrite assign_all_cons, fmap_cons, not_elem_of_cons. intros [Hne Hfr].
  rewrite IH by done.
  apply lookup_setitem_ne. simpl in Hne. congruence.
Qed.

Lemma assign_all_present path fr results n c :
  NoDup (PyDict.keys fr) -> PyDict.get n fr = Some c ->
  AnalysisResults.lookup (AnalysisResults.assign_all path fr results) path n = Some c.
Proof.
  revert results. unfold PyDict.keys.
  induction fr as [|[k c'] fr IH]; intros results; [done|].
  rewrite assign_all_cons, fmap_cons, NoDup_cons. intros [Hk Hnd]. simpl.
  destruct (decide (k = n)) as [->|Hne]; intros Hget.
  - injection Hget as ->.
    rewrite assign_all_absent by done. apply lookup_setitem_eq.
  - by apply IH.
Qed.

(** What a line of a path holds after [add_file_results]. *)
Lemma lookup_add_file_results path fr results path' n :
  NoDup (PyDict.keys fr) ->
  AnalysisResults.lookup (AnalysisResults.add_file_results path fr results) path' n
  = if decide (path = path')
    then match PyDict.get n fr with
         | Some c => Some c
         | None => AnalysisResults.lookup results path' n
         end
    else AnalysisResults.lookup results path' n.
Proof.
  intros Hnd. rewrite add_file_results_assign.
  destruct (decide (path = path')) as [<-|Hne].
  - destruct (PyDict.get n fr) as [c|] eqn:Hg.
    + by apply assign_all_present.
    + apply assign_all_absent. by apply get_None_notin.
  - unfold AnalysisResults.lookup. by rewrite assign_all_other_path.
Qed.
End StoreFacts.

(** C1, as the design document states it, fails for [AnalysisResults]: the
    second Match added for a line of a path replaces the first. *)
Lemma C1_second_add_replaces_first :
  let first := CodeLine.mk "return x" ["Validate return values"] WARNING ["return"] in
  let second := CodeLine.mk "return x" ["Add type hints"] INFO ["function"] in
  let store :=
    AnalysisResults.add_file_results "a.py" [(7, second)]
      (AnalysisResults.add_file_results "a.py" [(7, first)] AnalysisResults.new) in
  AnalysisResults.lookup store "a.py" 7 = Some second
  /\ AnalysisResults.lookup store "a.py" 7 <> Some first.
Proof. split; [reflexivity | discriminate]. Qed.

(** C1 (amended): [AnalysisResults.add_file_results] assigns: after two adds
    for the same path and line the second Match is the one retained, whatever
    the store held before; the lines and paths the second add does not
    mention keep what they had. *)
Theorem C1_add_file_results_last_write_wins
    (results : AnalysisResults.t) (path : string)
    (fr1 fr2 : PyDict.t nat CodeLine.t) (line_num : nat) (m1 m2 : CodeLine.t) :
  NoDup (PyDict.keys fr2) ->
  PyDict.get line_num fr1 = Some m1 ->
  PyDict.get line_num fr2 = Some m2 ->
  let store := AnalysisResults.add_file_results path fr2
                 (AnalysisResults.add_file_results path fr1 results) in
  AnalysisResults.lookup store path line_num = Some m2
  /\ (forall path' n, (path' <> path \/ PyDict.get n fr2 = None) ->
        AnalysisResults.lookup store path' n
        = AnalysisResults.lookup
            (AnalysisResults.add_file_results path fr1 results) path' n).
Proof.
  intros Hnd _ H2 store. subst store. split.
  - rewrite lookup_add_file_results by done.
    rewrite decide_True by done. by rewrite H2.
  - intros path' n Hcase. rewrite lookup_add_file_results by done.
    destruct (decide (path = path')) as [<-|Hne]; [|done].
    destruct Hcase as [? | Hn]; [done | by rewrite Hn].
Qed.

Lemma C1_add_file_results_last_write_wins_witness :
  AnalysisResults.lookup
    (AnalysisResults.add_file_results "a.py"
       [(7, CodeLine.mk "return x" ["Add type hints"] INFO ["function"])]
       (AnalysisResults.add_file_results "a.py"
          [(7, CodeLine.mk "return x" ["Validate return values"] WARNING ["return"])]
          AnalysisResults.new))
    "a.py" 7
  = Some (CodeLine.mk "return x" ["Add type hints"] INFO ["function"]).
Proof.
  refine (proj1 (C1_add_file_results_last_write_wins AnalysisResults.new "a.py"
            [(7, CodeLine.mk "return x" ["Validate return values"] WARNING ["return"])]
            [(7, CodeLine.mk "return x" ["Add type hints"] INFO ["function"])]
            7 _ _ _ _ _)).
  - apply NoDup_singleton.
  - reflexivity.
  - reflexivity.
Defined.

(** ** The older analyzers and the policy for a line matched twice *)

Section LegacyFacts.
Variable re_search : string -> string -> bool.

Lemma legacy_lookup_setitem_eq (results : Legacy.results_t) path n e :
  Legacy.lookup (Legacy.setitem path n e results) path n = Some e.
Proof.
  unfold Legacy.lookup, Legacy.setitem.
  rewrite get_set_eq. simpl. apply get_set_eq.
Qed.

(** code_analyzer.py: the last matching pattern of the table wins. *)
Lemma legacy_last_match_wins before pattern ideas path n line
    (results : Legacy.results_t) :
  re_search pattern line = true ->
  Legacy.lookup
    (Legacy.assign_matches re_search (before ++ [(pattern, ideas)])
       path n line results) path n
  = Some (Legacy.mk_entry line ideas).
Proof.
  intros Hm. revert results.
  induction before as [|[p i] before IH]; intros results; simpl.
  - rewrite Hm. apply legacy_lookup_setitem_eq.
  - apply IH.
Qed.

(** enhanced_code_analyzer.py: a line that has an entry keeps it. *)
Lemma enhanced_first_match_kept table path n line e
    (results : Legacy.results_t) :
  Legacy.lookup results path n = Some e ->
  Legacy.lookup
    (Legacy.assign_first_match re_search table path n line results) path n
  = Some e.
Proof.
  revert results.
  induction table as [|[p i] table IH]; intros results Hl; simpl; [done|].
  apply IH. destruct (re_search p line); [|done].
  unfold Legacy.lookup in Hl.
  destruct (PyDict.get path results) as [inner|] eqn:Hp; [|done].
  simpl in *. unfold PyDict.mem. rewrite Hl.
  unfold Legacy.lookup. rewrite get_set_eq. done.
Qed.
End LegacyFacts.

(** The two generations on a line that two patterns of the table match. *)
Lemma generations_disagree :
  let table := [("return", ["first"]); ("x", ["second"])] in
  Legacy.lookup
    (Legacy.assign_matches Examples.re_search table "a.py" 1 "return x" [])
    "a.py" 1
  = Some (Legacy.mk_entry "return x" ["second"])
  /\ Legacy.lookup
       (Legacy.assign_first_match Examples.re_search table "a.py" 1 "return x" [])
       "a.py" 1
     = Some (Legacy.mk_entry "return x" ["first"]).
Proof. split; reflexivity. Qed.

(** ** Severity and tag filtering *)

Section LineMatcher.
Import CodeAnalyzer.
Implicit Types (self : CodeAnalyzer.t) (pattern : ImprovementPattern.t)
               (r : CodeLine.t).

(** A match [r] on [line] comes from an eligible pattern that matches. *)
Local Abbreviation produced_by self line r pattern :=
  (pattern ∈ patterns self
   /\ _should_include_pattern self pattern = true
   /\ ImprovementPattern.matches pattern line = true
   /\ r = CodeLine.mk line (ImprovementPattern.ideas pattern)
            (ImprovementPattern.severity pattern)
            (ImprovementPattern.tags pattern)).

Lemma should_include_severity self pattern :
  _should_include_pattern self pattern = true ->
  severity_values (min_severity self)
  <= severity_values (ImprovementPattern.severity pattern).
Proof.
  unfold _should_include_pattern.
  destruct (_ <? _)%nat eqn:Hlt; [done|].
  intros _. apply Nat.ltb_ge in Hlt. lia.
Qed.

Lemma match_patterns_sound self line pats acc r :
  (forall p, p ∈ pats -> p ∈ patterns self) ->
  r ∈ match_patterns self line pats acc ->
  r ∈ acc \/ exists pattern, produced_by self line r pattern.
Proof.
  revert acc. induction pats as [|p pats IH]; intros acc Hsub; simpl.
  - by left.
  - assert (forall q, q ∈ pats -> q ∈ patterns self) as Hsub'.
    { intros q Hq. apply Hsub. by right. }
    destruct (_should_include_pattern self p) eqn:Hinc; simpl.
    + destruct (ImprovementPattern.matches p line) eqn:Hm.
      * intros Hr. destruct (IH _ Hsub' Hr) as [Hacc|?]; [|by right].
        apply elem_of_app in Hacc as [?|Hnew]; [by left|].
        apply list_elem_of_singleton in Hnew. right. exists p.
        split_and!; [apply Hsub; by left | done | done | done].
      * by apply IH.
    + by apply IH.
Qed.

Lemma analyze_line_sound self line r :
  r ∈ analyze_line self line ->
  exists pattern, produced_by self (PyStr.strip line) r pattern.
Proof.
  unfold analyze_line. destruct (_ || _); [by intros ?%elem_of_nil|].
  intros Hr. apply match_patterns_sound in Hr as [?%elem_of_nil|?]; done.
Qed.
End LineMatcher.

(** C3: a match returned by [analyze_line] carries the severity of an
    eligible pattern of the analyzer, whose rank is at least the rank of the
    configured minimum; with the minimum [CRITICAL] no returned match is
    [INFO] or [WARNING]. *)
Theorem C3_severity_threshold_sound
    (patterns : list ImprovementPattern.t) (min_severity : Severity)
    (selected_tags : option (list string)) (line : string) (r : CodeLine.t) :
  let self := CodeAnalyzer.new patterns min_severity selected_tags in
  r ∈ CodeAnalyzer.analyze_line self line ->
  (exists pattern,
      pattern ∈ patterns
      /\ ImprovementPattern.matches pattern (PyStr.strip line) = true
      /\ CodeLine.severity r = ImprovementPattern.severity pattern
      /\ CodeAnalyzer.severity_values min_severity
         <= CodeAnalyzer.severity_values (ImprovementPattern.severity pattern))
  /\ CodeAnalyzer.severity_values min_severity
     <= CodeAnalyzer.severity_values (CodeLine.severity r)
  /\ (min_severity = CRITICAL ->
      CodeLine.severity r <> INFO /\ CodeLine.severity r <> WARNING).
Proof.
  intros self Hr.
  destruct (analyze_line_sound _ _ _ Hr) as (p & Hin & Hinc & Hm & ->).
  apply should_include_severity in Hinc. simpl in *.
  split_and!.
  - exists p. by split_and!.
  - done.
  - intros ->. destruct (ImprovementPattern.severity p); simpl in *; split; (done || lia).
Qed.

Lemma C3_severity_threshold_sound_witness :
  let critical := ImprovementPattern.mk "import random" ["Use a safer RNG"]
                    CRITICAL ["import"] (Examples.contains "import random") in
  let info := ImprovementPattern.mk "import" ["Sort the imports"]
                INFO ["import"] (Examples.contains "import") in
  CodeAnalyzer.analyze_line (CodeAnalyzer.new [info; critical] CRITICAL None)
    "  import random  "
  = [CodeLine.mk "import random" ["Use a safer RNG"] CRITICAL ["import"]]
  /\ CRITICAL <> INFO /\ CRITICAL <> WARNING.
Proof.
  split; [reflexivity|].
  refine (proj2 (proj2 (C3_severity_threshold_sound
    [ImprovementPattern.mk "import" ["Sort the imports"]
       INFO ["import"] (Examples.contains "import");
     ImprovementPattern.mk "import random" ["Use a safer RNG"]
       CRITICAL ["import"] (Examples.contains "import random")]
    CRITICAL None "  import random  "
    (CodeLine.mk "import random" ["Use a safer RNG"] CRITICAL ["import"]) _)) _).
  - vm_compute. apply list_elem_of_here.
  - reflexivity.
Defined.

(** ** Scanning a project *)

Section Scan.
Import ProjectAnalyzer.
Variable readlines : Path -> res (list string).
Variable relative_to : Path -> Path -> string.
Variable rglob_py : Path -> list Path.
Variable self : ProjectAnalyzer.t.

Local Abbreviation files := (get_python_files rglob_py self).
Local Abbreviation rel f := (relative_to f (project_path self)).
Local Abbreviation file_results f :=
  (fst (CodeAnalyzer.analyze_file readlines (code_analyzer self) f)).
Local Abbreviation worker := (analyze_file_worker readlines relative_to self).
Local Abbreviation step := (pool_step readlines relative_to rglob_py self).
Local Abbreviation init := (pool_init rglob_py self).
(** One turn of the sequential loop on the store. *)
Local Abbreviation add_result :=
  (fun (results : AnalysisResults.t) (f : Path) =>
     AnalysisResults.add_file_results (rel f) (file_results f) results).

Lemma worker_result f : fst (worker f) = (rel f, file_results f).
Proof.
  unfold analyze_file_worker.
  by destruct (CodeAnalyzer.analyze_file readlines (code_analyzer self) f).
Qed.

Lemma analyze_sequential_fold :
  fst (analyze_sequential readlines relative_to rglob_py self)
  = fold_left add_result files (results self).
Proof.
  unfold analyze_sequential.
  generalize (results self) ([] : list log_record).
  induction files as [|f l IH]; intros r0 log0; simpl; [done|].
  destruct (CodeAnalyzer.analyze_file readlines (code_analyzer self) f)
    as [fr log'] eqn:Hf. simpl. apply IH.
Qed.

(** *** The worker pool: what holds in every reachable state *)

Local Abbreviation pool_inv s :=
  (length (futures s) = length files
   /\ collected s <= length files
   /\ (forall i r, futures s !! i = Some (Some r) ->
         exists f, files !! i = Some f /\ r = fst (worker f))
   /\ pool_results s
      = fold_left add_result (take (collected s) files) (results self)).

Lemma pool_inv_init : pool_inv init.
Proof.
  unfold pool_init; simpl. split_and!.
  - apply length_replicate.
  - lia.
  - intros i r Hi. apply lookup_replicate in Hi as [? _]. done.
  - done.
Qed.

Lemma pool_inv_step s s' : pool_inv s -> step s s' -> pool_inv s'.
Proof.
  intros (Hlen & Hle & Hfut & Hres) Hstep.
  destruct Hstep as [s i f Hf Hi | s rp fr Hc]; simpl.
  - split_and!; [by rewrite length_insert | done | | done].
    intros j r Hj. destruct (decide (i = j)) as [<-|Hne].
    + rewrite list_lookup_insert_eq in Hj by (by eapply lookup_lt_Some).
      injection Hj as <-. by exists f.
    + rewrite list_lookup_insert_ne in Hj by done. by apply Hfut.
  - destruct (Hfut _ _ Hc) as (f & Hf & Hr).
    pose proof (lookup_lt_Some _ _ _ Hf) as Hlt.
    split_and!; [done | lia | done |].
    rewrite (take_S_r _ _ _ Hf), fold_left_app, <- Hres. simpl.
    rewrite worker_result in Hr. by injection Hr as -> ->.
Qed.

Lemma pool_inv_reachable s : rtc step init s -> pool_inv s.
Proof.
  revert s. apply rtc_ind_r.
  - apply pool_inv_init.
  - intros s1 s2 _ Hlast IH. by eapply pool_inv_step.
Qed.

(** A completed run holds the store of the sequential loop. *)
Lemma pool_run_sequential s :
  rtc step init s -> pool_done rglob_py self s ->
  pool_results s = fst (analyze_sequential readlines relative_to rglob_py self).
Proof.
  intros Hrun Hdone. destruct (pool_inv_reachable s Hrun) as (_ & _ & _ & Hres).
  unfold pool_done in Hdone.
  by rewrite Hres, Hdone, firstn_all, analyze_sequential_fold.
Qed.

(** Some run completes: each task finishes and is collected in turn. *)
Lemma pool_run_prefix k :
  k <= length files ->
  exists s, rtc step init s /\ collected s = k
            /\ length (futures s) = length files
            /\ forall i, k <= i -> i < length files -> futures s !! i = Some None.
Proof.
  induction k as [|k IH]; intros Hk.
  - exists init. split_and!; [done | done | apply length_replicate |].
    intros i _ Hi. unfold pool_init; simpl. by apply lookup_replicate_2.
  - destruct IH as (s & Hrun & Hc & Hlen & Hnone); [lia|].
    destruct (lookup_lt_is_Some_2 files k) as [f Hf]; [lia|].
    pose proof (worker_finishes readlines relative_to rglob_py self s k f Hf
                  (Hnone k ltac:(lia) ltac:(lia))) as Hstep1.
    set (s1 := mk_pool _ _ _ _) in Hstep1.
    destruct (fst (worker f)) as [rp fr] eqn:Hw.
    assert (futures s1 !! collected s1 = Some (Some (rp, fr))) as Hfilled.
    { subst s1; simpl. rewrite Hc.
      apply list_lookup_insert_eq. lia. }
    pose proof (main_collects readlines relative_to rglob_py self s1 rp fr
                  Hfilled) as Hstep2.
    eexists. split_and!.
    + eapply rtc_r; [eapply rtc_r; [exact Hrun | exact Hstep1] | exact Hstep2].
    + simpl. by rewrite Hc.
    + simpl. by rewrite length_insert.
    + intros i Hi1 Hi2. simpl.
      rewrite list_lookup_insert_ne by lia. apply Hnone; lia.
Qed.

Lemma pool_run_exists : exists s, rtc step init s /\ pool_done rglob_py self s.
Proof.
  destruct (pool_run_prefix (length files)) as (s & Hrun & Hc & _); [done|].
  by exists s.
Qed.

(** Both branches of [analyze] return, and return the same store. *)
Lemma analyze_total : exists r, analyze readlines relative_to rglob_py self r.
Proof.
  unfold analyze. destruct (parallel self).
  - destruct pool_run_exists as (s & Hrun & Hdone). by exists (pool_results s), s.
  - by eexists.
Qed.

Lemma analyze_sequential_store r :
  analyze readlines relative_to rglob_py self r ->
  r = fold_left add_result files (results self).
Proof.
  unfold analyze. destruct (parallel self).
  - intros (s & Hrun & Hdone & ->).
    by rewrite pool_run_sequential, analyze_sequential_fold.
  - intros ->. apply analyze_sequential_fold.
Qed.
End Scan.

Section ScanContent.
Import ProjectAnalyzer.
Variable readlines : Path -> res (list string).
Variable relative_to : Path -> Path -> string.
Variable project : Path.
Variable analyzer : CodeAnalyzer.t.

Local Abbreviation rel f := (relative_to f project).
Local Abbreviation file_results f :=
  (fst (CodeAnalyzer.analyze_file readlines analyzer f)).
Local Abbreviation add_result :=
  (fun (results : AnalysisResults.t) (f : Path) =>
     AnalysisResults.add_file_results (rel f) (file_results f) results).

Lemma scan_lines_NoDup k lines (results : PyDict.t nat CodeLine.t) :
  NoDup (PyDict.keys results) ->
  NoDup (PyDict.keys (CodeAnalyzer.scan_lines analyzer k lines results)).
Proof.
  revert k results. induction lines as [|line lines IH]; intros k results Hnd.
  - done.
  - simpl. destruct (CodeAnalyzer.analyze_line analyzer line).
    + by apply IH.
    + apply IH. by apply NoDup_keys_set.
Qed.

Lemma file_results_NoDup f : NoDup (PyDict.keys (file_results f)).
Proof.
  unfold CodeAnalyzer.analyze_file. destruct (readlines f); simpl.
  - apply NoDup_nil_2.
  - apply scan_lines_NoDup, NoDup_nil_2.
Qed.

(** An unreadable or undecodable file yields the empty result. *)
Lemma file_results_unreadable f e :
  readlines f = inl e -> file_results f = PyDict.empty.
Proof. intros Hf. unfold CodeAnalyzer.analyze_file. by rewrite Hf. Qed.

Lemma fold_get_untouched (l : list Path) (r0 : AnalysisResults.t) (p : string) :
  (forall g, g ∈ l -> rel g = p -> file_results g = PyDict.empty) ->
  PyDict.get p (fold_left add_result l r0) = PyDict.get p r0.
Proof.
  revert r0. induction l as [|h t IH]; intros r0 Hl; simpl; [done|].
  rewrite IH by (intros g Hg; apply Hl; by right).
  destruct (decide (rel h = p)) as [Hp|Hp].
  - rewrite (Hl h) by (done || by left). done.
  - rewrite add_file_results_assign. by apply assign_all_other_path.
Qed.

Lemma fold_lookup (l : list Path) (r0 : AnalysisResults.t) (g : Path) (n : nat) :
  NoDup ((fun f => rel f) <$> l) -> g ∈ l ->
  AnalysisResults.lookup (fold_left add_result l r0) (rel g) n
  = match PyDict.get n (file_results g) with
    | Some c => Some c
    | None => AnalysisResults.lookup r0 (rel g) n
    end.
Proof.
  revert r0. induction l as [|h t IH]; intros r0 Hnd Hg.
  - by apply elem_of_nil in Hg.
  - rewrite fmap_cons in Hnd. apply NoDup_cons in Hnd as [Hh Hnd]. simpl.
    destruct (decide (g ∈ t)) as [Hin|Hnin].
    + rewrite IH by done.
      rewrite lookup_add_file_results by apply file_results_NoDup.
      rewrite decide_False; [done|].
      intros Heq. apply Hh. apply list_elem_of_fmap. by exists g.
    + apply elem_of_cons in Hg as [->|?]; [|done].
      unfold AnalysisResults.lookup at 1.
      rewrite fold_get_untouched.
      * fold (AnalysisResults.lookup
                (AnalysisResults.add_file_results (rel h) (file_results h) r0)
                (rel h) n).
        rewrite lookup_add_file_results by apply file_results_NoDup.
        by rewrite decide_True.
      * intros g Hgt Heq. exfalso. apply Hh. apply list_elem_of_fmap.
        by exists g.
Qed.
End ScanContent.

(** C4: for one project, one analyzer and one initial store, the sequential
    branch and the parallel branch of [analyze] both return, every store the
    parallel branch can return (whatever the order in which the workers
    finish) equals the store of the sequential branch, and so does the JSON
    text written from it. *)
Theorem C4_sequential_parallel_same_store
    (readlines : Path -> res (list string))
    (relative_to : Path -> Path -> string) (rglob_py : Path -> list Path)
    (project : Path) (analyzer : CodeAnalyzer.t) (store : AnalysisResults.t) :
  let sequential := ProjectAnalyzer.mk project analyzer store false in
  let parallel := ProjectAnalyzer.mk project analyzer store true in
  (exists r, ProjectAnalyzer.analyze readlines relative_to rglob_py sequential r)
  /\ (exists r, ProjectAnalyzer.analyze readlines relative_to rglob_py parallel r)
  /\ forall r_seq r_par,
       ProjectAnalyzer.analyze readlines relative_to rglob_py sequential r_seq ->
       ProjectAnalyzer.analyze readlines relative_to rglob_py parallel r_par ->
       r_par = r_seq /\ Report.save_json r_par = Report.save_json r_seq.
Proof.
  intros sequential parallel. split_and!.
  - apply analyze_total.
  - apply analyze_total.
  - intros r_seq r_par Hseq Hpar.
    apply analyze_sequential_store in Hseq, Hpar.
    assert (r_par = r_seq) as -> by (by rewrite Hseq, Hpar).
    done.
Qed.

Lemma NoDup_fmap_eq {A B} (f : A -> B) (l : list A) (x y : A) :
  NoDup (f <$> l) -> x ∈ l -> y ∈ l -> f x = f y -> x = y.
Proof.
  induction l as [|h t IH]; [by intros _ ?%elem_of_nil|].
  rewrite fmap_cons, NoDup_cons. intros [Hh Hnd] Hx Hy Hxy.
  apply elem_of_cons in Hx as [->|Hx]; apply elem_of_cons in Hy as [->|Hy].
  - done.
  - exfalso. apply Hh. rewrite Hxy. by apply list_elem_of_fmap_2.
  - exfalso. apply Hh. rewrite <- Hxy. by apply list_elem_of_fmap_2.
  - by apply IH.
Qed.

(** C8: in a scan, sequential or parallel, of files with distinct relative
    paths into an empty store, a file whose reading raises yields the empty
    result and no entry in the store, the scan returns, and for every file
    of the scan each line of the returned store holds exactly what
    [analyze_file] found for that file. *)
Theorem C8_unreadable_file_isolated
    (readlines : Path -> res (list string))
    (relative_to : Path -> Path -> string) (rglob_py : Path -> list Path)
    (self : ProjectAnalyzer.t) (failing : Path) (e : exn) :
  let files := ProjectAnalyzer.get_python_files rglob_py self in
  let rel := fun f => relative_to f (ProjectAnalyzer.project_path self) in
  let file_results := fun f =>
    fst (CodeAnalyzer.analyze_file readlines
           (ProjectAnalyzer.code_analyzer self) f) in
  NoDup (rel <$> files) ->
  ProjectAnalyzer.results self = AnalysisResults.new ->
  failing ∈ files ->
  readlines failing = inl e ->
  file_results failing = PyDict.empty
  /\ (exists r, ProjectAnalyzer.analyze readlines relative_to rglob_py self r)
  /\ forall r, ProjectAnalyzer.analyze readlines relative_to rglob_py self r ->
       PyDict.get (rel failing) r = None
       /\ forall g n, g ∈ files -> g <> failing ->
            AnalysisResults.lookup r (rel g) n = PyDict.get n (file_results g).
Proof.
  intros files rel file_results Hnd Hnew Hin Hfail.
  assert (file_results failing = PyDict.empty) as Hempty
    by (by eapply file_results_unreadable).
  split_and!; [done | apply analyze_total |].
  intros r Hr. apply analyze_sequential_store in Hr. rewrite Hnew in Hr. subst r.
  split.
  - rewrite fold_get_untouched; [done|].
    intros g Hg Heq.
    by rewrite (NoDup_fmap_eq rel files g failing Hnd Hg Hin Heq).
  - intros g n Hg _. subst rel file_results. cbv beta.
    rewrite fold_lookup by done.
    by destruct (PyDict.get n _).
Qed.

Lemma C8_unreadable_file_isolated_witness :
  let self := ProjectAnalyzer.new "proj" Examples.project_patterns INFO None false in
  let r := fst (ProjectAnalyzer.analyze_sequential
                  (Examples.readlines Examples.project_fs)
                  Examples.relative_to Examples.project_files self) in
  PyDict.get "bad.py" r = None
  /\ AnalysisResults.lookup r "a.py" 1
     = Some (CodeLine.mk "import random" ["Use a safer RNG"] CRITICAL ["import"])
  /\ AnalysisResults.lookup r "c.py" 2
     = Some (CodeLine.mk "return x" ["Validate return values"] WARNING ["return"]).
Proof.
  intros self r.
  destruct (C8_unreadable_file_isolated
              (Examples.readlines Examples.project_fs) Examples.relative_to
              Examples.project_files self "bad.py" OSError) as (_ & _ & Hall).
  - compute_done.
  - reflexivity.
  - compute_done.
  - reflexivity.
  - destruct (Hall r eq_refl) as [Hbad Hothers]. split_and!.
    + exact Hbad.
    + refine (Hothers "a.py" 1 _ _); [compute_done | discriminate].
    + refine (Hothers "c.py" 2 _ _); [compute_done | discriminate].
Defined.

Lemma C4_sequential_parallel_same_store_witness :
  let analyzer := CodeAnalyzer.new Examples.project_patterns INFO None in
  let store : AnalysisResults.t :=
    [ ("a.py", [(1, CodeLine.mk "import random" ["Use a safer RNG"] CRITICAL
                      ["import"])]);
      ("c.py", [(2, CodeLine.mk "return x" ["Validate return values"] WARNING
                      ["return"])]) ] in
  ProjectAnalyzer.analyze (Examples.readlines Examples.project_fs)
    Examples.relative_to Examples.project_files
    (ProjectAnalyzer.mk "proj" analyzer AnalysisResults.new false) store
  /\ ProjectAnalyzer.analyze (Examples.readlines Examples.project_fs)
       Examples.relative_to Examples.project_files
       (ProjectAnalyzer.mk "proj" analyzer AnalysisResults.new true) store
  /\ Report.save_json store = Report.save_json store.
Proof.
  intros analyzer store.
  assert (ProjectAnalyzer.analyze (Examples.readlines Examples.project_fs)
            Examples.relative_to Examples.project_files
            (ProjectAnalyzer.mk "proj" analyzer AnalysisResults.new false) store)
    as Hseq by reflexivity.
  assert (ProjectAnalyzer.analyze (Examples.readlines Examples.project_fs)
            Examples.relative_to Examples.project_files
            (ProjectAnalyzer.mk "proj" analyzer AnalysisResults.new true) store)
    as Hpar.
  { (* the workers finish c.py, then a.py, then bad.py; the main thread
       collects as soon as it can *)
    eexists. split_and!; [| | ].
    - eapply rtc_l.
      { apply (ProjectAnalyzer.worker_finishes _ _ _ _ _ 2 "c.py"); reflexivity. }
      eapply rtc_l.
      { apply (ProjectAnalyzer.worker_finishes _ _ _ _ _ 0 "a.py"); reflexivity. }
      eapply rtc_l.
      { eapply ProjectAnalyzer.main_collects; reflexivity. }
      eapply rtc_l.
      { apply (ProjectAnalyzer.worker_finishes _ _ _ _ _ 1 "bad.py"); reflexivity. }
      eapply rtc_l.
      { eapply ProjectAnalyzer.main_collects; reflexivity. }
      eapply rtc_l.
      { eapply ProjectAnalyzer.main_collects; reflexivity. }
      apply rtc_refl.
    - reflexivity.
    - reflexivity. }
  split_and!; [exact Hseq | exact Hpar |].
  exact (proj2 (proj2 (proj2 (C4_sequential_parallel_same_store
           (Examples.readlines Examples.project_fs) Examples.relative_to
           Examples.project_files "proj" analyzer AnalysisResults.new))
         store store Hseq Hpar)).
Defined.

(** ** Loading patterns *)

Section Loader.
Variable re_compile : string -> string + (string -> bool).
Variable safe_load : Path -> res YamlDocument.


(** The two kinds of malformed entry of C6 make [load_entry] raise
    [ValueError]. *)
Lemma load_entry_invalid_regex regex ideas msg :
  re_compile regex = inl msg ->
  load_entry re_compile regex (IdeasList ideas)
  = raise (ValueError ("Invalid regex pattern '" +:+ regex +:+ "': " +:+ msg)).
Proof.
  intros Hre. unfold load_entry, new_ImprovementPattern.
  by rewrite Hre.
Qed.

Lemma load_entry_unknown_severity regex text tags ideas e :
  Severity_of_value text = inl e ->
  load_entry re_compile regex (Structured (Some text) tags ideas) = raise e.
Proof. intros Hs. unfold load_entry. simpl. by rewrite Hs. Qed.

Lemma load_entries_raises entries regex data e patterns log :
  (regex, data) ∈ entries ->
  load_entry re_compile regex data = inl e ->
  exists e' log', load_entries re_compile entries patterns log = (inl e', log').
Proof.
  intros Hin Hbad. revert patterns log.
  induction entries as [|[regex' data'] entries IH]; intros patterns log.
  - by apply elem_of_nil in Hin.
  - simpl. destruct (load_entry re_compile regex' data') as [e0|[p|]] eqn:Hentry.
    + by eexists _, _.
    + apply elem_of_cons in Hin as [Heq|Hin]; [congruence|]. by apply IH.
    + apply elem_of_cons in Hin as [Heq|Hin]; [congruence|]. by apply IH.
Qed.

Lemma load_entries_all_good entries patterns log :
  Forall (fun '(regex, data) => exists p, load_entry re_compile regex data = inr (Some p))
         entries ->
  exists loaded,
    load_entries re_compile entries patterns log = (inr (patterns ++ loaded), log)
    /\ Forall2 (fun '(regex, data) p => load_entry re_compile regex data = inr (Some p))
               entries loaded.
Proof.
  intros Hall. revert patterns.
  induction Hall as [|[regex data] entries [p Hp] _ IH]; intros patterns.
  - exists []. by rewrite app_nil_r.
  - simpl. rewrite Hp. destruct (IH (patterns ++ [p])) as (loaded & -> & Hl).
    exists (p :: loaded). rewrite <- app_assoc. split; [done|].
    by constructor.
Qed.
End Loader.

(** C6, as stated, fails: one malformed entry, be it an expression that does
    not compile or an unknown severity, empties the whole document; the
    well-formed entries before and after it are not loaded. *)
Lemma C6_malformed_entry_empties_document :
  fst (load_from_yaml Examples.re_compile
         (Examples.safe_load Examples.rule_documents) "regex.yaml") = []
  /\ fst (load_from_yaml Examples.re_compile
            (Examples.safe_load Examples.rule_documents) "severity.yaml") = []
  /\ snd (load_from_yaml Examples.re_compile
            (Examples.safe_load Examples.rule_documents) "severity.yaml")
     = [LogError "Error loading patterns from severity.yaml"
          (ValueError "'fatal' is not a valid Severity")]
  /\ length (fst (load_multiple Examples.re_compile
                    (Examples.safe_load Examples.rule_documents)
                    ["regex.yaml"; "severity.yaml"; "good.yaml"])) = 1.
Proof. by vm_compute. Qed.

(** C6 (amended): an entry that makes the loader raise (an expression that
    does not compile, an unknown severity) is caught and logged once per
    document by [load_from_yaml], which then returns no pattern at all for
    that document; [load_multiple] goes on with the remaining documents and
    returns exactly their patterns.  A document all of whose entries load
    yields one pattern per entry, in order. *)
Theorem C6_malformed_entry_drops_document
    (re_compile : string -> string + (string -> bool))
    (safe_load : Path -> res YamlDocument)
    (path : Path) (others : list Path)
    (entries : list (string * PatternData)) :
  safe_load path = ret (YMapping entries) ->
  ((exists regex data e,
       (regex, data) ∈ entries /\ load_entry re_compile regex data = inl e) ->
   (exists e log,
       load_from_yaml re_compile safe_load path
       = ([], log ++ [LogError ("Error loading patterns from " +:+ path) e]))
   /\ fst (load_multiple re_compile safe_load (path :: others))
      = fst (load_multiple re_compile safe_load others))
  /\ (Forall (fun '(regex, data) =>
                exists p, load_entry re_compile regex data = inr (Some p))
             entries ->
      exists loaded,
        load_from_yaml re_compile safe_load path = (loaded, [])
        /\ Forall2 (fun '(regex, data) p =>
                      load_entry re_compile regex data = inr (Some p))
                   entries loaded).
Proof.
  intros Hdoc. split.
  - intros (regex & data & e & Hin & Hbad).
    destruct (load_entries_raises re_compile entries regex data e [] [] Hin Hbad)
      as (e' & log' & Hraise).
    assert (load_from_yaml re_compile safe_load path
            = ([], log' ++ [LogError ("Error loading patterns from " +:+ path) e']))
      as Hload.
    { unfold load_from_yaml. rewrite Hdoc. unfold ret. by rewrite Hraise. }
    split; [by eexists _, _|].
    simpl. rewrite Hload.
    by destruct (load_multiple re_compile safe_load others).
  - intros Hall.
    destruct (load_entries_all_good re_compile entries [] [] Hall)
      as (loaded & Hload & Hl).
    exists loaded. split; [|done].
    unfold load_from_yaml. rewrite Hdoc. unfold ret. by rewrite Hload.
Qed.

Lemma C6_malformed_entry_drops_document_witness :
  fst (load_multiple Examples.re_compile
         (Examples.safe_load Examples.rule_documents)
         ["regex.yaml"; "good.yaml"])
  = fst (load_multiple Examples.re_compile
           (Examples.safe_load Examples.rule_documents) ["good.yaml"]).
Proof.
  refine (proj2 (proj1 (C6_malformed_entry_drops_document Examples.re_compile
            (Examples.safe_load Examples.rule_documents) "regex.yaml"
            ["good.yaml"] _ eq_refl) _)).
  exists "(", (IdeasList ["Balance the parentheses"]),
    (ValueError "Invalid regex pattern '(': unsupported or malformed expression").
  split; [apply list_elem_of_further, list_elem_of_here | reflexivity].
Defined.

(** ** The format fixer *)

Section StringFacts.
Import PyStr.

Lemma substring_0_app (t rest : string) :
  String.substring 0 (String.length t) (t +:+ rest) = t.
Proof. induction t as [|c t IH]; simpl; [by destruct rest | by rewrite IH]. Qed.

Lemma length_app_one (t : string) (c : ascii) :
  String.length (t +:+ String c "") = S (String.length t).
Proof. induction t as [|c' t IH]; simpl; [done | by rewrite IH]. Qed.

(** [s[1:-1]] removes the first and the last character. *)
Lemma slice_1_m1_spec (c1 c2 : ascii) (body : string) :
  slice_1_m1 (String c1 (body +:+ String c2 "")) = body.
Proof.
  unfold slice_1_m1, slice. cbn [String.length].
  rewrite length_app_one.
  replace (S (S (String.length body)) - 1 - 1) with (String.length body) by lia.
  cbn [String.substring]. apply substring_0_app.
Qed.

Lemma all_ascii_digits_isdigit (s : string) :
  all_ascii_digits s = true -> isdigit s = true.
Proof.
  unfold all_ascii_digits, isdigit. destruct s as [|c s]; [done|].
  generalize (String c s). clear. intros s.
  induction s as [|c s IH]; simpl; [done|].
  intros [Hc Hs]%andb_true_iff. rewrite IH by done.
  unfold is_digit_char. by rewrite Hc.
Qed.

Lemma all_ascii_digits_nonempty (s : string) :
  all_ascii_digits s = true -> String.eqb s "" = false.
Proof. by destruct s. Qed.






Lemma string_app_cons (c : ascii) (s t : string) :
  String c s +:+ t = String c (s +:+ t).
Proof. reflexivity. Qed.

Lemma string_app_nil_l (t : string) : "" +:+ t = t.
Proof. reflexivity. Qed.

Lemma forallb_string_app p (s t : string) :
  forallb_string p (s +:+ t) = forallb_string p s && forallb_string p t.
Proof.
  induction s as [|c s IH]; [done|].
  rewrite string_app_cons. simpl. by rewrite IH, andb_assoc.
Qed.

Lemma string_app_assoc (s t u : string) : (s +:+ t) +:+ u = s +:+ (t +:+ u).
Proof.
  induction s as [|c s IH]; [done|]. rewrite !string_app_cons. by rewrite IH.
Qed.

Lemma string_app_nil_r (s : string) : s +:+ "" = s.
Proof. induction s as [|c s IH]; [done|]. rewrite string_app_cons. by rewrite IH. Qed.





End StringFacts.

(** ** The placeholder scanner *)

Section Scanner.
Import FormatToFString.

Lemma string_length_app (s t : string) :
  String.length (s +:+ t) = String.length s + String.length t.
Proof.
  induction s as [|c s IH]; [done|]. rewrite string_app_cons. simpl. by rewrite IH.
Qed.

Lemma substring_skip (s t : string) (m : nat) :
  String.substring (String.length s) m (s +:+ t) = String.substring 0 m t.
Proof.
  induction s as [|c s IH]; [done|]. rewrite string_app_cons. simpl. apply IH.
Qed.

Lemma substring_middle (a b c : string) :
  String.substring (String.length a) (String.length b) (a +:+ b +:+ c) = b.
Proof. rewrite substring_skip. apply substring_0_app. Qed.

(** Every match the scanner reports is an occurrence of the pattern. *)
Lemma finditer_go_sound (template : string) (rest pre : string)
    (opened : option nat) (m : re_match) :
  template = pre +:+ rest ->
  (forall start, opened = Some start ->
     exists pre0 body0,
       pre = pre0 +:+ "{" +:+ body0 /\ String.length pre0 = start
       /\ no_brace body0 = true) ->
  m ∈ finditer_go template rest (String.length pre) opened ->
  is_placeholder template m.
Proof.
  revert pre opened m. induction rest as [|c rest IH]; intros pre opened m Ht Hop.
  - by intros ?%elem_of_nil.
  - assert (template = (pre +:+ String c "") +:+ rest) as Ht'
      by (by rewrite string_app_assoc).
    assert (S (String.length pre) = String.length (pre +:+ String c "")) as Hlen
      by (by rewrite length_app_one).
    simpl. destruct (Ascii.eqb c "{") eqn:Hopen.
    { apply Ascii.eqb_eq in Hopen as ->. rewrite Hlen. apply IH; [done|].
      intros start [= <-]. exists pre, "". by rewrite string_app_nil_r. }
    destruct (Ascii.eqb c "}") eqn:Hclose.
    { apply Ascii.eqb_eq in Hclose as ->.
      assert (forall m', m' ∈ finditer_go template rest (S (String.length pre)) None
                         -> is_placeholder template m') as Htail.
      { intros m'. rewrite Hlen. by apply IH. }
      destruct opened as [start|]; [|apply Htail].
      intros [->|?]%elem_of_cons; [|by apply Htail].
      destruct (Hop start eq_refl) as (pre0 & body0 & Hpre & Hstart & Hbody).
      assert (PyStr.slice template (S start) (String.length pre) = body0) as Hgroup.
      { assert (pre = (pre0 +:+ "{") +:+ body0) as Hpre'
          by (by rewrite string_app_assoc).
        pose proof (length_app_one pre0 "{") as HlenA.
        unfold PyStr.slice. subst start.
        rewrite Ht, Hpre', string_length_app, HlenA.
        replace (S (String.length pre0) + String.length body0
                 - S (String.length pre0))
          with (String.length body0) by lia.
        rewrite <- HlenA, string_app_assoc. apply substring_middle. }
      exists pre0, rest. simpl. rewrite Hgroup. split_and!.
      - rewrite Ht, Hpre. by rewrite !string_app_assoc.
      - done.
      - rewrite Hpre, !string_length_app. simpl. lia.
      - done. }
    rewrite Hlen. apply IH; [done|].
    intros start Hs. destruct (Hop start Hs) as (pre0 & body0 & -> & Hstart & Hbody).
    exists pre0, (body0 +:+ String c ""). split_and!; [|done|].
    + by rewrite !string_app_assoc.
    + unfold no_brace in *. rewrite forallb_string_app, Hbody. simpl.
      by rewrite Hopen, Hclose.
Qed.

Lemma finditer_sound (template : string) (m : re_match) :
  m ∈ finditer template -> is_placeholder template m.
Proof.
  unfold finditer. apply (finditer_go_sound template template ""); [done|].
  by intros start [=].
Qed.
End Scanner.

Section ScannerMore.
Import Cst FormatToFString.

Lemma no_brace_cons (c : ascii) (s : string) :
  no_brace (String c s) = true ->
  Ascii.eqb c "{" = false /\ Ascii.eqb c "}" = false /\ no_brace s = true.
Proof.
  unfold no_brace. simpl. intros [[H1 H2]%andb_true_iff Hs]%andb_true_iff.
  by destruct (Ascii.eqb c "{"), (Ascii.eqb c "}").
Qed.

(** Text without braces moves the scanner on and changes nothing else. *)
Lemma finditer_go_skip (template a b : string) (pos : nat) (opened : option nat) :
  no_brace a = true ->
  finditer_go template (a +:+ b) pos opened
  = finditer_go template b (pos + String.length a) opened.
Proof.
  revert pos. induction a as [|c a IH]; intros pos Ha.
  - rewrite string_app_nil_l. simpl. by rewrite Nat.add_0_r.
  - apply no_brace_cons in Ha as (Ho & Hc & Ha).
    rewrite string_app_cons. cbn [finditer_go]. rewrite Ho, Hc, IH by done.
    simpl. f_equal. lia.
Qed.

Lemma finditer_go_no_brace (template rest : string) (pos : nat)
    (opened : option nat) :
  no_brace rest = true -> finditer_go template rest pos opened = [].
Proof.
  intros Hr. rewrite <- (string_app_nil_r rest), finditer_go_skip by done. done.
Qed.

(** Any text is passed with some matches reported and some candidate start
    left open. *)
Lemma finditer_go_prefix (template a b : string) (pos : nat)
    (opened : option nat) :
  exists ms opened',
    finditer_go template (a +:+ b) pos opened
    = ms ++ finditer_go template b (pos + String.length a) opened'.
Proof.
  revert pos opened. induction a as [|c a IH]; intros pos opened.
  - exists [], opened. rewrite string_app_nil_l. simpl. by rewrite Nat.add_0_r.
  - rewrite string_app_cons. cbn [finditer_go String.length].
    replace (pos + S (String.length a)) with (S pos + String.length a) by lia.
    destruct (Ascii.eqb c "{"); [apply IH|].
    destruct (Ascii.eqb c "}"); [|apply IH].
    destruct opened as [start|]; [|apply IH].
    destruct (IH (S pos) None) as (ms & opened' & ->).
    by eexists (_ :: ms), opened'.
Qed.

Lemma substring_all (s : string) : String.substring 0 (String.length s) s = s.
Proof. rewrite <- (string_app_nil_r s) at 2. apply substring_0_app. Qed.

Lemma slice_group (a g c : string) (i j : nat) :
  i = S (String.length a) -> j = S (String.length a + String.length g) ->
  PyStr.slice (a +:+ "{" +:+ g +:+ c) i j = g.
Proof.
  intros -> ->. unfold PyStr.slice.
  replace (S (String.length a + String.length g) - S (String.length a))
    with (String.length g) by lia.
  replace (S (String.length a)) with (String.length (a +:+ "{"))
    by apply length_app_one.
  rewrite <- (string_app_assoc a "{"). apply substring_middle.
Qed.

(** The one match of a template with a single placeholder. *)
Lemma finditer_single (pre body post : string) :
  no_brace pre = true -> no_brace body = true -> no_brace post = true ->
  finditer (pre +:+ "{" +:+ body +:+ "}" +:+ post)
  = [mk_match (String.length pre)
       (String.length pre + String.length body + 2) body].
Proof.
  intros Hpre Hbody Hpost. unfold finditer.
  set (template := pre +:+ "{" +:+ body +:+ "}" +:+ post).
  unfold template at 2.
  rewrite finditer_go_skip by done.
  change ("{" +:+ body +:+ "}" +:+ post) with (String "{" (body +:+ "}" +:+ post)).
  cbn [finditer_go Ascii.eqb Bool.eqb]. simpl (0 + _).
  rewrite finditer_go_skip by done.
  change ("}" +:+ post) with (String "}" post).
  cbn [finditer_go Ascii.eqb Bool.eqb].
  rewrite finditer_go_no_brace by done.
  f_equal. f_equal; [lia|].
  unfold template. apply slice_group; lia.
Qed.
End ScannerMore.

(** ** Worked examples of the placeholder scanner *)

Lemma finditer_examples :
  FormatToFString.finditer "{0} {1} {0}"
  = [ FormatToFString.mk_match 0 3 "0"; FormatToFString.mk_match 4 7 "1";
      FormatToFString.mk_match 8 11 "0" ]
  /\ FormatToFString.finditer "a{b{c}d}e{}{"
     = [ FormatToFString.mk_match 3 6 "c"; FormatToFString.mk_match 9 11 "" ]
  /\ FormatToFString.finditer "{{}}" = [ FormatToFString.mk_match 1 3 "" ]
  /\ FormatToFString.finditer "}{" = [].
Proof. by vm_compute. Qed.

(** ** Templates with a single placeholder *)

Section SinglePlaceholder.
Import Cst FormatToFString.

Local Abbreviation text s :=
  (match s%string with
   | EmptyString => []
   | _ => [FormattedStringText s%string]
   end).


Lemma strip_quotes_quoted (first last : ascii) (body : string) :
  first = "'"%char \/ first = ascii_of_N 34 ->
  strip_quotes (String first (body +:+ String last "")) = body.
Proof.
  intros Hc. unfold strip_quotes.
  assert (PyStr.startswith "'" (String first (body +:+ String last ""))
          || PyStr.startswith Json.quote (String first (body +:+ String last ""))
          = true) as ->.
  { destruct Hc as [-> | ->]; simpl; by destruct (body +:+ String last ""). }
  apply slice_1_m1_spec.
Qed.



(** A template without braces: no match, one text part unless empty. *)
Lemma fstring_parts_no_brace (template : string) (pos : list expr)
    (kw : PyDict.t string expr) :
  no_brace template = true ->
  fstring_parts template pos kw = ret (text template).
Proof.
  intros Hnb. unfold fstring_parts, finditer.
  rewrite finditer_go_no_brace by done. cbn [run_matches bind ret].
  cbn [loop_init last_end parts].
  destruct template as [|c t]; [done|].
  cbn [String.length Nat.ltb Nat.leb app]. unfold PyStr.slice_from.
  rewrite Nat.sub_0_r. by rewrite substring_all.
Qed.







(** [leave_Call] on a quoted literal without braces. *)
Lemma leave_Call_no_brace (first last : ascii) (template : string)
    (args : list Arg) (updated : expr) (changes : nat) :
  first = "'"%char \/ first = ascii_of_N 34 ->
  no_brace template = true ->
  leave_Call
    (Call (Attribute
             (SimpleString (String first (template +:+ String last "")))
             "format") args)
    updated changes
  = ret (FormattedString (text template) fstring_start fstring_end, S changes).
Proof.
  intros Hfirst Hnb.
  unfold leave_Call. cbn [String.eqb Ascii.eqb Bool.eqb].
  rewrite strip_quotes_quoted by done.
  destruct (split_args args [] PyDict.empty) as [pos kw].
  by rewrite fstring_parts_no_brace.
Qed.
End SinglePlaceholder.

(** C7: when [parse_module] raises on the source, [apply] returns the
    source itself and the count 0; its result is a plain pair, no exception
    leaves it. *)
Theorem C7_unparsable_source_unchanged
    (parse_module : string -> res Cst.expr) (code_for : Cst.expr -> string)
    (source_code : string) (e : exn) :
  parse_module source_code = raise e ->
  FormatToFString.apply parse_module code_for source_code = (source_code, 0).
Proof. intros Hparse. unfold FormatToFString.apply. by rewrite Hparse. Qed.

Lemma C7_unparsable_source_unchanged_witness :
  FormatToFString.apply (Examples.parse_module Examples.known_modules)
    Examples.code_for "print('{}'.format(x)"
  = ("print('{}'.format(x)", 0).
Proof.
  apply (C7_unparsable_source_unchanged _ _ _ ParserSyntaxError).
  reflexivity.
Defined.

(** The same handler catches what the transformer raises: a placeholder of
    superscript digits passes [isdigit] and makes [int] raise. *)
Lemma apply_catches_transformer_error
    (parse_module : string -> res Cst.expr) (code_for : Cst.expr -> string)
    (source_code : string) (module : Cst.expr) (e : exn) :
  parse_module source_code = ret module ->
  FormatToFString.visit module 0 = raise e ->
  FormatToFString.apply parse_module code_for source_code = (source_code, 0).
Proof.
  intros Hparse Hvisit. unfold FormatToFString.apply.
  rewrite Hparse. simpl. by rewrite Hvisit.
Qed.




(** C10, as stated, fails for a literal with a prefix: the guard on the
    first character keeps the whole literal as the template, prefix and
    quotes included; nothing is stripped. *)
Lemma C10_prefixed_literal_not_stripped :
  FormatToFString.strip_quotes ("r" +:+ Examples.dq "{}") = "r" +:+ Examples.dq "{}"
  /\ FormatToFString.leave_Call
       (Examples.format_call ("r" +:+ Examples.dq "{}")
          [Cst.mkArg None (Cst.Name "x")])
       (Cst.Name "unused") 0
     = ret (Cst.FormattedString
              [Cst.FormattedStringText ("r" +:+ Json.quote);
               Cst.FormattedStringExpression (Cst.Name "x") None;
               Cst.FormattedStringText Json.quote]
              ("f" +:+ Json.quote) Json.quote, 1).
Proof. split; reflexivity. Qed.

(** C10 (amended): every format call that [leave_Call] rewrites becomes an
    interpolated string delimited by [f"] and ["], whatever the quotes of
    the receiver, and counts one change; its parts are those of the
    template, which is the receiver literal without its first and its last
    character when the literal starts with a quote character, and the
    literal as it is otherwise.  The text of the template is copied as it
    is: for a quoted literal whose template has no brace the node has the
    template as its only text part, so that, the printer writing the start,
    the text and the end, the printed node is the letter f followed by the
    receiver literal exactly when the literal starts and ends with a double
    quote.  A receiver in double quotes or in triple double quotes thus
    keeps its quoting; a receiver in single quotes comes out in double
    quotes. *)
Theorem C10_fstring_delimiters
    (code_for : Cst.expr -> string)
    (literal : string) (args : list Cst.Arg) (updated_node : Cst.expr)
    (changes : nat) :
  (forall node n,
      FormatToFString.leave_Call (Examples.format_call literal args)
        updated_node changes = ret (node, n) ->
      n = S changes
      /\ exists parts,
           node = Cst.FormattedString parts ("f" +:+ Json.quote) Json.quote
           /\ FormatToFString.fstring_parts
                (FormatToFString.strip_quotes literal)
                (fst (FormatToFString.split_args args [] PyDict.empty))
                (snd (FormatToFString.split_args args [] PyDict.empty))
              = ret parts)
  /\ (forall (c c' : ascii) (body : string),
        c = "'"%char \/ c = ascii_of_N 34 ->
        FormatToFString.strip_quotes (String c (body +:+ String c' "")) = body)
  /\ (PyStr.startswith "'" literal = false ->
      PyStr.startswith Json.quote literal = false ->
      FormatToFString.strip_quotes literal = literal)
  /\ (forall (first last : ascii) (template : string),
        first = "'"%char \/ first = ascii_of_N 34 ->
        FormatToFString.no_brace template = true ->
        let receiver := String first (template +:+ String last "") in
        let node :=
          Cst.FormattedString
            (match template with
             | EmptyString => []
             | _ => [Cst.FormattedStringText template]
             end)
            ("f" +:+ Json.quote) Json.quote in
        FormatToFString.leave_Call (Examples.format_call receiver args)
          updated_node changes
        = ret (node, S changes)
        /\ (code_for node = ("f" +:+ Json.quote) +:+ template +:+ Json.quote ->
            code_for node = "f" +:+ receiver
            <-> first = ascii_of_N 34 /\ last = ascii_of_N 34))
  /\ FormatToFString.leave_Call
       (Examples.format_call "'it is {}'" [Cst.mkArg None (Cst.Name "x")])
       updated_node changes
     = ret (Cst.FormattedString
              [Cst.FormattedStringText "it is ";
               Cst.FormattedStringExpression (Cst.Name "x") None]
              ("f" +:+ Json.quote) Json.quote, S changes).
Proof.
  split_and!.
  - intros node n. unfold FormatToFString.leave_Call, Examples.format_call.
    simpl. destruct (FormatToFString.split_args args [] PyDict.empty) as [pos kw].
    simpl. destruct (FormatToFString.fstring_parts _ pos kw) as [e|parts]; simpl.
    + done.
    + intros [= <- <-]. split; [done|]. by exists parts.
  - intros c c' body Hc. by apply strip_quotes_quoted.
  - intros H1 H2. unfold FormatToFString.strip_quotes. by rewrite H1, H2.
  - intros first last template Hfirst Hnb receiver node. split.
    + by apply leave_Call_no_brace.
    + intros ->. subst receiver.
      change (("f" +:+ Json.quote) +:+ template +:+ Json.quote)
        with (String "f" (String (ascii_of_N 34)
                            (template +:+ String (ascii_of_N 34) ""))).
      change ("f" +:+ String first (template +:+ String last ""))
        with (String "f" (String first (template +:+ String last ""))).
      split.
      * intros [= <- Htail]. split; [done|].
        clear -Htail. induction template as [|c t IH].
        -- by injection Htail as <-.
        -- rewrite !string_app_cons in Htail. injection Htail as Htail.
           by apply IH.
      * by intros [-> ->].
  - reflexivity.
Qed.

Lemma C10_fstring_delimiters_witness :
  FormatToFString.strip_quotes "'it is {}'" = "it is {}"
  /\ FormatToFString.strip_quotes "r'{}'" = "r'{}'"
  /\ (Examples.code_for
        (Cst.FormattedString [Cst.FormattedStringText "done"]
           ("f" +:+ Json.quote) Json.quote)
      = "f" +:+ "'done'"
      <-> "'"%char = ascii_of_N 34 /\ "'"%char = ascii_of_N 34)
  /\ (Examples.code_for
        (Cst.FormattedString [Cst.FormattedStringText "done"]
           ("f" +:+ Json.quote) Json.quote)
      = "f" +:+ Examples.dq "done"
      <-> ascii_of_N 34 = ascii_of_N 34 /\ ascii_of_N 34 = ascii_of_N 34).
Proof.
  split_and!.
  - refine (proj1 (proj2 (C10_fstring_delimiters Examples.code_for "" []
                            (Cst.Name "u") 0))
              "'"%char "'"%char "it is {}" _).
    by left.
  - refine (proj1 (proj2 (proj2 (C10_fstring_delimiters Examples.code_for
                                   "r'{}'" [] (Cst.Name "u") 0))) _ _);
      reflexivity.
  - refine (proj2 (proj1 (proj2 (proj2 (proj2
              (C10_fstring_delimiters Examples.code_for "" []
                 (Cst.Name "u") 0))))
              "'"%char "'"%char "done" _ _) _);
      [by left | reflexivity | reflexivity].
  - refine (proj2 (proj1 (proj2 (proj2 (proj2
              (C10_fstring_delimiters Examples.code_for "" []
                 (Cst.Name "u") 0))))
              (ascii_of_N 34) (ascii_of_N 34) "done" _ _) _);
      [by right | reflexivity | reflexivity].
Defined.

(** ** The fixer registry *)

Section ApplyFixesFacts.
Variable parse_module : string -> res Cst.expr.
Variable code_for : Cst.expr -> string.
Variable FS : Type.
Variable read_text : FS -> Path -> res string.
Variable write_text : FS -> Path -> string -> res FS.

Local Abbreviation apply_each := (Fix.apply_each parse_module code_for).
Local Abbreviation apply_fixes :=
  (Fix.apply_fixes parse_module code_for FS read_text write_text).
Local Abbreviation not_found file_path fixer_name :=
  (LogError ("Error applying fixer " +:+ fixer_name +:+ " to " +:+ file_path)
     (ValueError (Fix.not_found_message fixer_name))).

(** One turn of the loop of [apply_fixes]: the identifier is unknown, or the
    fixer runs and reports changes, or it runs and reports none. *)
Local Ltac loop_turn :=
  match goal with
  | |- context [Fix.get_fixer ?fixer_name] =>
      destruct (Fix.get_fixer fixer_name); simpl
  end;
  [ | match goal with
      | |- context [Fix.fixer_apply ?p ?c ?cls ?content] =>
          let applied := fresh "applied" in
          destruct (Fix.fixer_apply p c cls content) as [? applied];
          destruct (0 <? applied)%nat
      end ].

Lemma get_fixer_unknown fixer_name :
  PyDict.get fixer_name Fix.AVAILABLE_FIXERS = None ->
  Fix.get_fixer fixer_name
  = raise (ValueError ("Fixer " +:+ fixer_name
                       +:+ " not found. Available fixers: format_to_fstring")).
Proof. intros Hnone. unfold Fix.get_fixer. by rewrite Hnone. Qed.

(** What was printed before does not influence the content and the count. *)
Lemma apply_each_out_irrelevant file_path fixers content n out out' :
  fst (apply_each file_path fixers content n out)
  = fst (apply_each file_path fixers content n out').
Proof.
  revert content n out out'.
  induction fixers as [|fixer_name rest IH]; intros content n out out'; simpl.
  - done.
  - loop_turn; apply IH.
Qed.

Lemma apply_each_out_kept file_path fixers content n out record :
  record ∈ out -> record ∈ snd (apply_each file_path fixers content n out).
Proof.
  revert content n out.
  induction fixers as [|fixer_name rest IH]; intros content n out Hin; simpl.
  - done.
  - loop_turn; [apply IH, elem_of_app; by left | by apply IH..].
Qed.

(** An unknown identifier changes neither the content nor the count, and
    its error is printed. *)
Lemma apply_each_skips_unknown file_path before fixer_name after content n out :
  PyDict.get fixer_name Fix.AVAILABLE_FIXERS = None ->
  fst (apply_each file_path (before ++ fixer_name :: after) content n out)
  = fst (apply_each file_path (before ++ after) content n out)
  /\ not_found file_path fixer_name
     ∈ snd (apply_each file_path (before ++ fixer_name :: after) content n out).
Proof.
  intros Hnone.
  assert (Fix.get_fixer fixer_name
          = inl (ValueError (Fix.not_found_message fixer_name))) as Hraise
    by (unfold Fix.get_fixer; by rewrite Hnone).
  revert content n out.
  induction before as [|b before IH]; intros content n out; simpl.
  - rewrite Hraise. simpl. split.
    + apply apply_each_out_irrelevant.
    + apply apply_each_out_kept, elem_of_app. right. apply list_elem_of_here.
  - loop_turn; apply IH.
Qed.
End ApplyFixesFacts.

(** C5, as stated, fails: [apply_fixes] catches the error of [get_fixer],
    prints it and goes on; with an unknown identifier in the list the call
    returns the count of the other fixers and has rewritten the file. *)
Lemma C5_unknown_fixer_does_not_fail :
  Fix.apply_fixes (Examples.parse_module Examples.known_modules)
    Examples.code_for Examples.FS Examples.read_text Examples.write_text
    Examples.fixer_fs "m.py" ["no_such_fixer"; "format_to_fstring"]
  = (1,
     [ ("m.py", Examples.Text ("print(f" +:+ Examples.dq "{x} and {y}" +:+ ")"));
       ("locked.py", Examples.Unreadable) ],
     [ LogError "Error applying fixer no_such_fixer to m.py"
         (ValueError
            "Fixer no_such_fixer not found. Available fixers: format_to_fstring") ]).
Proof. reflexivity. Qed.

(** C5 (amended): for an identifier that is not in the registry [get_fixer]
    raises an error that names the identifier and the known identifiers,
    before any fixer is applied; [apply_fixes] catches it, prints it, and
    returns the count and leaves the file system as if the identifier were
    not in the list: the other fixers of the list are still applied. *)
Theorem C5_unknown_fixer_reported_and_skipped
    (parse_module : string -> res Cst.expr) (code_for : Cst.expr -> string)
    (FS : Type) (read_text : FS -> Path -> res string)
    (write_text : FS -> Path -> string -> res FS)
    (fs : FS) (file_path : Path) (before after : list string)
    (fixer_name : string) :
  PyDict.get fixer_name Fix.AVAILABLE_FIXERS = None ->
  Fix.get_fixer fixer_name
  = raise (ValueError ("Fixer " +:+ fixer_name
                       +:+ " not found. Available fixers: format_to_fstring"))
  /\ fst (Fix.apply_fixes parse_module code_for FS read_text write_text
            fs file_path (before ++ fixer_name :: after))
     = fst (Fix.apply_fixes parse_module code_for FS read_text write_text
              fs file_path (before ++ after))
  /\ (forall content,
        PyStr.endswith ".py" (Fix.name file_path) = true ->
        read_text fs file_path = ret content ->
        LogError ("Error applying fixer " +:+ fixer_name +:+ " to " +:+ file_path)
          (ValueError ("Fixer " +:+ fixer_name
                       +:+ " not found. Available fixers: format_to_fstring"))
        ∈ snd (Fix.apply_fixes parse_module code_for FS read_text write_text
                 fs file_path (before ++ fixer_name :: after))).
Proof.
  intros Hnone. split_and!.
  - by apply get_fixer_unknown.
  - unfold Fix.apply_fixes. destruct (negb _); [done|].
    destruct (read_text fs file_path) as [e|content]; [done|].
    destruct (apply_each_skips_unknown parse_module code_for file_path before
                fixer_name after content 0 [] Hnone) as [Hsame _].
    destruct (Fix.apply_each _ _ _ (before ++ fixer_name :: after) _ _ _)
      as [[c1 n1] o1].
    destruct (Fix.apply_each _ _ _ (before ++ after) _ _ _) as [[c2 n2] o2].
    simpl in Hsame. injection Hsame as -> ->.
    destruct (0 <? n2)%nat; [|done].
    by destruct (write_text fs file_path c2).
  - intros content Hpy Hread. unfold Fix.apply_fixes. rewrite Hpy, Hread. simpl.
    destruct (apply_each_skips_unknown parse_module code_for file_path before
                fixer_name after content 0 [] Hnone) as [_ Hprinted].
    destruct (Fix.apply_each _ _ _ (before ++ fixer_name :: after) _ _ _)
      as [[c1 n1] o1].
    simpl in Hprinted.
    destruct (0 <? n1)%nat; [|done].
    destruct (write_text fs file_path c1); simpl; [|done].
    apply elem_of_app. by left.
Qed.

Lemma C5_unknown_fixer_reported_and_skipped_witness :
  fst (Fix.apply_fixes (Examples.parse_module Examples.known_modules)
         Examples.code_for Examples.FS Examples.read_text Examples.write_text
         Examples.fixer_fs "m.py" ["no_such_fixer"; "format_to_fstring"])
  = fst (Fix.apply_fixes (Examples.parse_module Examples.known_modules)
           Examples.code_for Examples.FS Examples.read_text Examples.write_text
           Examples.fixer_fs "m.py" ["format_to_fstring"]).
Proof.
  refine (proj1 (proj2 (C5_unknown_fixer_reported_and_skipped
            (Examples.parse_module Examples.known_modules) Examples.code_for
            Examples.FS Examples.read_text Examples.write_text
            Examples.fixer_fs "m.py" [] ["format_to_fstring"] "no_such_fixer" _))).
  reflexivity.
Defined.

(** C2 fails on the code for a format call inside the arguments of a format
    call.  [leave_Call] builds the f-string from the arguments of the
    original node, so the inner call, though visited and counted, is put
    back unchanged: the first run reports 2 changes and leaves the inner
    call in the text, the second run rewrites it and reports 1.  This holds
    with every parser and printer that round-trip the two texts. *)
Theorem C2_nested_format_call_rewritten_again :
  FormatToFString.visit Examples.nested_source 0 = ret (Examples.nested_once, 2)
  /\ FormatToFString.visit Examples.nested_once 0 = ret (Examples.nested_twice, 1)
  /\ Examples.code_for Examples.nested_source
     = Examples.dq "{}" +:+ ".format('{}'.format(x))"
  /\ Examples.code_for Examples.nested_once
     = "f" +:+ Examples.dq "{'{}'.format(x)}"
  /\ forall (parse_module : string -> res Cst.expr)
            (code_for : Cst.expr -> string) (source_code : string),
       parse_module source_code = ret Examples.nested_source ->
       parse_module (code_for Examples.nested_once) = ret Examples.nested_once ->
       snd (FormatToFString.apply parse_module code_for
              (fst (FormatToFString.apply parse_module code_for source_code)))
       = 1.
Proof.
  split_and!; [reflexivity..|].
  intros parse_module code_for source_code Hsrc Honce.
  assert (FormatToFString.apply parse_module code_for source_code
          = (code_for Examples.nested_once, 2)) as ->.
  { unfold FormatToFString.apply. rewrite Hsrc. reflexivity. }
  unfold FormatToFString.apply, fst. rewrite Honce. reflexivity.
Qed.

Lemma C2_nested_format_call_rewritten_again_witness :
  snd (FormatToFString.apply (Examples.parse_module Examples.known_modules)
         Examples.code_for
         (fst (FormatToFString.apply
                 (Examples.parse_module Examples.known_modules)
                 Examples.code_for
                 (Examples.dq "{}" +:+ ".format('{}'.format(x))"))))
  = 1.
Proof.
  refine (proj2 (proj2 (proj2 (proj2 C2_nested_format_call_rewritten_again)))
            (Examples.parse_module Examples.known_modules) Examples.code_for
            _ _ _); reflexivity.
Defined.

(** * Further properties of the code *)

(** ** The line matcher *)

Section LineMatcherMore.
Import CodeAnalyzer.

Lemma should_include_tags (self : CodeAnalyzer.t) pattern tag more :
  selected_tags self = Some (tag :: more) ->
  _should_include_pattern self pattern = true ->
  tags_intersect (ImprovementPattern.tags pattern) (tag :: more) = true.
Proof.
  unfold _should_include_pattern. intros ->.
  destruct (_ <? _)%nat; [done|].
  by destruct (tags_intersect _ _).
Qed.

Lemma tags_intersect_spec (tags selected : list string) :
  tags_intersect tags selected = true <->
  exists t, t ∈ tags /\ t ∈ selected.
Proof.
  unfold tags_intersect. rewrite existsb_exists. split.
  - intros (t & Hin & Hsel). exists t.
    rewrite list_elem_of_In. split; [done|]. by apply bool_decide_eq_true in Hsel.
  - intros (t & Hin & Hsel). exists t.
    rewrite <- list_elem_of_In. split; [done|]. by apply bool_decide_eq_true.
Qed.

(** The loop of [analyze_line] as a filter followed by a map. *)
Lemma match_patterns_filter (self : CodeAnalyzer.t) line pats acc :
  match_patterns self line pats acc
  = acc ++ map (fun p => CodeLine.mk line (ImprovementPattern.ideas p)
                           (ImprovementPattern.severity p)
                           (ImprovementPattern.tags p))
             (List.filter (fun p => _should_include_pattern self p
                                    && ImprovementPattern.matches p line) pats).
Proof.
  revert acc. induction pats as [|p pats IH]; intros acc; simpl.
  - by rewrite app_nil_r.
  - destruct (_should_include_pattern self p); simpl; [|apply IH].
    destruct (ImprovementPattern.matches p line); simpl; [|apply IH].
    rewrite IH. by rewrite <- app_assoc.
Qed.
End LineMatcherMore.

(** X1: with a non-empty tag filter every match returned by [analyze_line]
    carries at least one of the selected tags. *)
Theorem X1_tag_filter_sound
    (patterns : list ImprovementPattern.t) (min_severity : Severity)
    (tag : string) (more : list string) (line : string) (r : CodeLine.t) :
  r ∈ CodeAnalyzer.analyze_line
        (CodeAnalyzer.new patterns min_severity (Some (tag :: more))) line ->
  exists t, t ∈ CodeLine.tags r /\ t ∈ tag :: more.
Proof.
  intros Hr.
  destruct (analyze_line_sound _ _ _ Hr) as (p & _ & Hinc & _ & ->).
  simpl. apply tags_intersect_spec.
  by apply (should_include_tags _ p tag more) in Hinc.
Qed.

Lemma X1_tag_filter_sound_witness :
  exists t, t ∈ ["return"] /\ t ∈ ["return"; "style"].
Proof.
  apply (X1_tag_filter_sound Examples.project_patterns INFO "return" ["style"]
           "    return x"
           (CodeLine.mk "return x" ["Validate return values"] WARNING ["return"])).
  vm_compute. apply list_elem_of_here.
Defined.

(** X2: on a line that is neither blank nor a comment, [analyze_line]
    returns one match for every pattern that passes the severity and tag
    filters and is found in the stripped line, in the order of the pattern
    list and with the ideas, severity and tags of the pattern; nothing
    else. *)
Theorem X2_analyze_line_all_eligible_matches
    (self : CodeAnalyzer.t) (line : string) :
  PyStr.strip line <> "" ->
  PyStr.startswith "#" (PyStr.strip line) = false ->
  CodeAnalyzer.analyze_line self line
  = map (fun p => CodeLine.mk (PyStr.strip line) (ImprovementPattern.ideas p)
                    (ImprovementPattern.severity p) (ImprovementPattern.tags p))
        (List.filter
           (fun p => CodeAnalyzer._should_include_pattern self p
                     && ImprovementPattern.matches p (PyStr.strip line))
           (CodeAnalyzer.patterns self)).
Proof.
  intros Hne Hnc. unfold CodeAnalyzer.analyze_line.
  apply String.eqb_neq in Hne. rewrite Hne, Hnc. simpl.
  apply match_patterns_filter.
Qed.

Lemma X2_analyze_line_all_eligible_matches_witness :
  CodeAnalyzer.analyze_line
    (CodeAnalyzer.new Examples.project_patterns INFO None)
    "  return import random  "
  = [ CodeLine.mk "return import random" ["Validate return values"] WARNING
        ["return"];
      CodeLine.mk "return import random" ["Use a safer RNG"] CRITICAL
        ["import"] ].
Proof.
  refine (X2_analyze_line_all_eligible_matches
            (CodeAnalyzer.new Examples.project_patterns INFO None)
            "  return import random  " _ _); [discriminate | reflexivity].
Defined.

Section StripFacts.
Import PyStr.

Lemma lstrip_whitespace (ws s : string) :
  forallb_string is_whitespace ws = true -> lstrip (ws +:+ s) = lstrip s.
Proof.
  induction ws as [|c ws IH]; [done|]. rewrite string_app_cons. simpl.
  intros [Hc Hws]%andb_true_iff. rewrite Hc. by apply IH.
Qed.

Lemma rstrip_cons_visible (c : ascii) (s : string) :
  is_whitespace c = false -> rstrip (String c s) = String c (rstrip s).
Proof. intros Hc. simpl. rewrite Hc. by destruct (rstrip s). Qed.

Lemma strip_whitespace (ws : string) :
  forallb_string is_whitespace ws = true -> strip ws = "".
Proof.
  intros Hws. unfold strip.
  rewrite <- (string_app_nil_r ws), lstrip_whitespace by done. done.
Qed.

Lemma strip_indented (ws : string) (c : ascii) (s : string) :
  forallb_string is_whitespace ws = true -> is_whitespace c = false ->
  strip (ws +:+ String c s) = String c (rstrip s).
Proof.
  intros Hws Hc. unfold strip. rewrite lstrip_whitespace by done.
  simpl lstrip. rewrite Hc. by apply rstrip_cons_visible.
Qed.
End StripFacts.

(** X3: [analyze_line] returns nothing for a line of white space only and
    for a line whose first character after the leading white space is [#],
    whatever the patterns. *)
Theorem X3_blank_and_comment_lines_skipped
    (self : CodeAnalyzer.t) (ws rest : string) :
  PyStr.forallb_string PyStr.is_whitespace ws = true ->
  CodeAnalyzer.analyze_line self ws = []
  /\ CodeAnalyzer.analyze_line self (ws +:+ "#" +:+ rest) = [].
Proof.
  intros Hws. unfold CodeAnalyzer.analyze_line. split.
  - by rewrite strip_whitespace.
  - change ("#" +:+ rest) with (String "#" rest).
    rewrite strip_indented by done.
    assert (PyStr.startswith "#" (String "#" (PyStr.rstrip rest)) = true) as ->
      by (unfold PyStr.startswith; simpl; by destruct (PyStr.rstrip rest)).
    by rewrite orb_true_r.
Qed.

Lemma X3_blank_and_comment_lines_skipped_witness :
  CodeAnalyzer.analyze_line
    (CodeAnalyzer.new Examples.project_patterns INFO None) "    "
  = []
  /\ CodeAnalyzer.analyze_line
       (CodeAnalyzer.new Examples.project_patterns INFO None)
       ("    " +:+ "#" +:+ " return x")
     = [].
Proof.
  apply (X3_blank_and_comment_lines_skipped
           (CodeAnalyzer.new Examples.project_patterns INFO None)
           "    " " return x").
  reflexivity.
Defined.

Section FileScan.
Variable self : CodeAnalyzer.t.

Lemma scan_lines_get (lines : list string) (start : nat)
    (acc : PyDict.t nat CodeLine.t) (n : nat) :
  (forall k, start <= k -> PyDict.get k acc = None) ->
  PyDict.get n (CodeAnalyzer.scan_lines self start lines acc)
  = if decide (n < start) then PyDict.get n acc
    else line ← lines !! (n - start); head (CodeAnalyzer.analyze_line self line).
Proof.
  revert start acc. induction lines as [|line rest IH]; intros start acc Hfree.
  - simpl. case_decide; [done|]. apply Hfree. lia.
  - assert (forall v k, S start <= k ->
              PyDict.get k (PyDict.set start v acc) = None) as Hfree'.
    { intros v k Hk. rewrite get_set_ne by lia. apply Hfree. lia. }
    simpl. destruct (CodeAnalyzer.analyze_line self line) as [|first more] eqn:Hl.
    + rewrite IH by (intros k Hk; apply Hfree; lia).
      destruct (decide (n < S start)), (decide (n < start)); try lia; try done.
      * assert (n = start) as -> by lia. rewrite Nat.sub_diag. simpl.
        rewrite Hl. apply Hfree. lia.
      * by replace (n - start) with (S (n - S start)) by lia.
    + rewrite IH by apply Hfree'.
      destruct (decide (n < S start)), (decide (n < start)); try lia.
      * apply get_set_ne. lia.
      * assert (n = start) as -> by lia. rewrite Nat.sub_diag. simpl.
        rewrite Hl. apply get_set_eq.
      * by replace (n - start) with (S (n - S start)) by lia.
Qed.
End FileScan.

(** X4: for a file that can be read, the result of [analyze_file] holds
    under the 1-based number of a line the first match of that line, and
    holds nothing for a line without a match or for a number that is no
    line of the file. *)
Theorem X4_analyze_file_first_match_per_line
    (readlines : Path -> res (list string)) (self : CodeAnalyzer.t)
    (file_path : Path) (lines : list string) (n : nat) :
  readlines file_path = ret lines ->
  PyDict.get n (fst (CodeAnalyzer.analyze_file readlines self file_path))
  = match n with
    | O => None
    | S k => line ← lines !! k; head (CodeAnalyzer.analyze_line self line)
    end.
Proof.
  intros Hread. unfold CodeAnalyzer.analyze_file. rewrite Hread. simpl.
  rewrite scan_lines_get by done.
  destruct n as [|k]; [done|].
  case_decide; [lia|]. by replace (S k - 1) with k by lia.
Qed.

Lemma X4_analyze_file_first_match_per_line_witness :
  PyDict.get 2
    (fst (CodeAnalyzer.analyze_file (Examples.readlines Examples.project_fs)
            (CodeAnalyzer.new Examples.project_patterns INFO None) "c.py"))
  = Some (CodeLine.mk "return x" ["Validate return values"] WARNING ["return"]).
Proof.
  refine (X4_analyze_file_first_match_per_line
            (Examples.readlines Examples.project_fs)
            (CodeAnalyzer.new Examples.project_patterns INFO None) "c.py"
            _ 2 eq_refl).
Defined.

(** ** The result store, continued *)

Section PyDictMore.
Context {K V : Type} `{EqDecision K}.
Implicit Types (d : PyDict.t K V) (k : K) (v : V).

Lemma get_app_notin d1 d2 k :
  k ∉ PyDict.keys d1 -> PyDict.get k (d1 ++ d2) = PyDict.get k d2.
Proof.
  unfold PyDict.keys. induction d1 as [|[k0 v0] d1 IH]; [done|].
  rewrite fmap_cons, not_elem_of_cons. intros [Hne Hd1]. simpl in *.
  rewrite decide_False by congruence. by apply IH.
Qed.

Lemma set_app_notin d1 d2 k v :
  k ∉ PyDict.keys d1 -> PyDict.set k v (d1 ++ d2) = d1 ++ PyDict.set k v d2.
Proof.
  unfold PyDict.keys. induction d1 as [|[k0 v0] d1 IH]; [done|].
  rewrite fmap_cons, not_elem_of_cons. intros [Hne Hd1]. simpl in *.
  rewrite decide_False by congruence. by rewrite IH.
Qed.
End PyDictMore.

Section StoreMore.
Implicit Types (results : AnalysisResults.t) (path : string)
               (fr inner : PyDict.t nat CodeLine.t).

Lemma assign_all_tail path fr inner results :
  path ∉ PyDict.keys results ->
  NoDup (PyDict.keys inner ++ PyDict.keys fr) ->
  AnalysisResults.assign_all path fr (results ++ [(path, inner)])
  = results ++ [(path, inner ++ fr)].
Proof.
  intros Hpath. revert inner.
  induction fr as [|[k c] fr IH]; intros inner Hnd.
  - by rewrite app_nil_r.
  - rewrite assign_all_cons. unfold AnalysisResults.setitem.
    rewrite get_app_notin by done. simpl. rewrite decide_True by done. simpl.
    rewrite set_app_notin by done. simpl. rewrite decide_True by done.
    unfold PyDict.keys in Hnd. rewrite fmap_cons in Hnd. simpl in Hnd.
    apply NoDup_app in Hnd as (Hin & Hdisj & Hfr).
    apply NoDup_cons in Hfr as [Hk Hfr].
    rewrite set_fresh.
    2:{ intros Hkin. apply (Hdisj k Hkin). by left. }
    rewrite IH.
    + by rewrite <- app_assoc.
    + unfold PyDict.keys. rewrite fmap_app. simpl.
      apply NoDup_app. split_and!; [|  | done].
      * apply NoDup_app. split_and!; [done | | apply NoDup_singleton].
        intros x Hx ->%list_elem_of_singleton.
        apply (Hdisj k Hx). by left.
      * intros x [Hx| ->%list_elem_of_singleton]%elem_of_app Hxfr.
        -- apply (Hdisj x Hx). by right.
        -- done.
Qed.

(** A non-empty result for a path the store does not hold yet becomes the
    last entry of the store, as it is. *)
Lemma add_file_results_fresh path fr results :
  NoDup (PyDict.keys fr) -> fr <> [] -> PyDict.get path results = None ->
  AnalysisResults.add_file_results path fr results = results ++ [(path, fr)].
Proof.
  intros Hnd Hne Hnone. apply get_None_notin in Hnone.
  rewrite add_file_results_assign.
  destruct fr as [|[k c] fr]; [done|].
  rewrite assign_all_cons. unfold AnalysisResults.setitem.
  rewrite (proj2 (get_None_notin _ _) Hnone). simpl.
  rewrite set_fresh by done.
  unfold PyDict.keys in Hnd. rewrite fmap_cons in Hnd.
  apply (assign_all_tail path fr [(k, c)] results Hnone). done.
Qed.
End StoreMore.

(** X5: [add_file_results] changes nothing when the file has no match, and
    appends a non-empty result, unchanged, as the last entry of the store
    when the store has no entry for the path yet. *)
Theorem X5_add_file_results_appends
    (results : AnalysisResults.t) (path : string)
    (fr : PyDict.t nat CodeLine.t) :
  AnalysisResults.add_file_results path PyDict.empty results = results
  /\ (NoDup (PyDict.keys fr) -> fr <> [] -> PyDict.get path results = None ->
      AnalysisResults.add_file_results path fr results = results ++ [(path, fr)]).
Proof. split; [done | apply add_file_results_fresh]. Qed.

Lemma X5_add_file_results_appends_witness :
  AnalysisResults.add_file_results "b.py"
    [(3, CodeLine.mk "import random" [] CRITICAL []);
     (9, CodeLine.mk "return x" [] WARNING [])]
    [("a.py", [(1, CodeLine.mk "return y" [] WARNING [])])]
  = [("a.py", [(1, CodeLine.mk "return y" [] WARNING [])]);
     ("b.py", [(3, CodeLine.mk "import random" [] CRITICAL []);
               (9, CodeLine.mk "return x" [] WARNING [])])].
Proof.
  refine (proj2 (X5_add_file_results_appends
                   [("a.py", [(1, CodeLine.mk "return y" [] WARNING [])])]
                   "b.py" _) _ _ _).
  - compute_done.
  - discriminate.
  - reflexivity.
Defined.

Section StoreContent.
Variable readlines : Path -> res (list string).
Variable relative_to : Path -> Path -> string.
Variable project : Path.
Variable analyzer : CodeAnalyzer.t.

Local Abbreviation rel f := (relative_to f project).
Local Abbreviation file_results f :=
  (fst (CodeAnalyzer.analyze_file readlines analyzer f)).
Local Abbreviation add_result :=
  (fun (results : AnalysisResults.t) (f : Path) =>
     AnalysisResults.add_file_results (rel f) (file_results f) results).
Local Abbreviation has_match f := (negb (PyDict.is_empty (file_results f))).

Lemma fold_store (l : list Path) (r0 : AnalysisResults.t) :
  NoDup ((fun f => rel f) <$> l) ->
  (forall f, f ∈ l -> rel f ∉ PyDict.keys r0) ->
  fold_left add_result l r0
  = r0 ++ map (fun f => (rel f, file_results f))
              (List.filter (fun f => has_match f) l).
Proof.
  revert r0. induction l as [|h t IH]; intros r0 Hnd Hfresh.
  - by rewrite app_nil_r.
  - rewrite fmap_cons in Hnd. apply NoDup_cons in Hnd as [Hh Hnd]. simpl.
    destruct (file_results h) as [|entry more] eqn:Hfr; simpl.
    + apply IH; [done|]. intros f Hf. apply Hfresh. by right.
    + rewrite <- Hfr.
      rewrite add_file_results_fresh.
      * rewrite IH; [by rewrite <- app_assoc | done |].
        intros f Hf. unfold PyDict.keys. rewrite fmap_app. simpl.
        intros [Hin|Heq%list_elem_of_singleton]%elem_of_app.
        -- apply (Hfresh f); [by right | done].
        -- apply Hh. rewrite <- Heq. apply list_elem_of_fmap. by exists f.
      * apply file_results_NoDup.
      * by rewrite Hfr.
      * apply get_None_notin, Hfresh. by left.
Qed.
End StoreContent.

(** X6: a scan, sequential or parallel, of files with distinct relative
    paths into an empty store returns exactly one entry per file with at
    least one match, in the order of the file list, holding the result of
    [analyze_file] for that file; files without a match have no entry. *)
Theorem X6_store_lists_files_with_matches
    (readlines : Path -> res (list string))
    (relative_to : Path -> Path -> string) (rglob_py : Path -> list Path)
    (self : ProjectAnalyzer.t) (r : AnalysisResults.t) :
  let rel := fun f => relative_to f (ProjectAnalyzer.project_path self) in
  let file_results := fun f =>
    fst (CodeAnalyzer.analyze_file readlines
           (ProjectAnalyzer.code_analyzer self) f) in
  NoDup (rel <$> ProjectAnalyzer.get_python_files rglob_py self) ->
  ProjectAnalyzer.results self = AnalysisResults.new ->
  ProjectAnalyzer.analyze readlines relative_to rglob_py self r ->
  r = map (fun f => (rel f, file_results f))
          (List.filter (fun f => negb (PyDict.is_empty (file_results f)))
             (ProjectAnalyzer.get_python_files rglob_py self)).
Proof.
  intros rel file_results Hnd Hnew Hr.
  apply analyze_sequential_store in Hr. rewrite Hnew in Hr. subst r.
  subst rel file_results. cbv beta.
  rewrite fold_store; [done | done |].
  intros f _. apply not_elem_of_nil.
Qed.

Lemma X6_store_lists_files_with_matches_witness :
  fst (ProjectAnalyzer.analyze_sequential
         (Examples.readlines Examples.project_fs) Examples.relative_to
         Examples.project_files
         (ProjectAnalyzer.new "proj" Examples.project_patterns INFO None false))
  = [ ("a.py", [(1, CodeLine.mk "import random" ["Use a safer RNG"] CRITICAL
                      ["import"])]);
      ("c.py", [(2, CodeLine.mk "return x" ["Validate return values"] WARNING
                      ["return"])]) ].
Proof.
  refine (X6_store_lists_files_with_matches
            (Examples.readlines Examples.project_fs) Examples.relative_to
            Examples.project_files
            (ProjectAnalyzer.new "proj" Examples.project_patterns INFO None false)
            _ _ eq_refl eq_refl).
  compute_done.
Defined.

(** ** Loading patterns, continued *)

Section LoaderMore.
Variable re_compile : string -> string + (string -> bool).
Variable safe_load : Path -> res YamlDocument.

Lemma load_entry_missing_ideas regex sev tags :
  exists e, load_entry re_compile regex (Structured sev tags None) = inl e.
Proof.
  unfold load_entry. destruct (Severity_of_value (default "info" sev)); simpl;
    by eexists.
Qed.

(** The loop when no entry raises: the entries that are lists or mappings
    give their patterns, the others a warning each. *)
Lemma load_entries_no_raise entries patterns log :
  Forall (fun '(regex, data) =>
            match data with
            | OtherData => True
            | _ => exists p, load_entry re_compile regex data = inr (Some p)
            end) entries ->
  exists loaded,
    load_entries re_compile entries patterns log
    = (inr (patterns ++ loaded),
       log ++ omap (fun '(regex, data) =>
                      match data with
                      | OtherData =>
                          Some (LogWarning ("Invalid pattern format for " +:+ regex))
                      | _ => None
                      end) entries)
    /\ Forall2 (fun '(regex, data) p =>
                  load_entry re_compile regex data = inr (Some p))
               (List.filter (fun '(_, data) =>
                               match data with OtherData => false | _ => true end)
                            entries)
               loaded.
Proof.
  intros Hall. revert patterns log.
  induction Hall as [|[regex data] entries Hhead _ IH]; intros patterns log.
  - exists []. by rewrite !app_nil_r.
  - destruct data as [ideas|sev tags ideas|].
    + destruct Hhead as [p Hp]. cbn [load_entries List.filter omap list_omap].
      rewrite Hp.
      destruct (IH (patterns ++ [p]) log) as (loaded & -> & Hl).
      exists (p :: loaded). rewrite <- app_assoc. split; [done|]. by constructor.
    + destruct Hhead as [p Hp]. cbn [load_entries List.filter omap list_omap].
      rewrite Hp.
      destruct (IH (patterns ++ [p]) log) as (loaded & -> & Hl).
      exists (p :: loaded). rewrite <- app_assoc. split; [done|]. by constructor.
    + cbn [load_entries List.filter omap list_omap load_entry].
      destruct (IH patterns
                  (log ++ [LogWarning ("Invalid pattern format for " +:+ regex)]))
        as (loaded & -> & Hl).
      exists loaded. by rewrite <- app_assoc.
Qed.

End LoaderMore.

(** X7: [load_multiple] on a list of files returns the patterns of the files
    in the order of the list: loading two lists one after the other gives
    the patterns, and the log, of the first followed by those of the
    second. *)
Theorem X7_load_multiple_concatenates
    (re_compile : string -> string + (string -> bool))
    (safe_load : Path -> res YamlDocument) (paths1 paths2 : list Path) :
  load_multiple re_compile safe_load (paths1 ++ paths2)
  = (fst (load_multiple re_compile safe_load paths1)
       ++ fst (load_multiple re_compile safe_load paths2),
     snd (load_multiple re_compile safe_load paths1)
       ++ snd (load_multiple re_compile safe_load paths2)).
Proof.
  induction paths1 as [|path paths1 IH]; simpl.
  - by destruct (load_multiple re_compile safe_load paths2).
  - rewrite IH.
    destruct (load_from_yaml re_compile safe_load path) as [ps log].
    destruct (load_multiple re_compile safe_load paths1) as [ps1 log1].
    simpl. by rewrite !app_assoc.
Qed.

(** X8: a structured entry without the key [ideas] makes [load_from_yaml]
    return no pattern for the whole document; the error is logged and does
    not reach the caller. *)
Theorem X8_missing_ideas_drops_document
    (re_compile : string -> string + (string -> bool))
    (safe_load : Path -> res YamlDocument) (path : Path)
    (entries : list (string * PatternData))
    (regex : string) (sev : option string) (tags : option (list string)) :
  safe_load path = ret (YMapping entries) ->
  (regex, Structured sev tags None) ∈ entries ->
  exists e log,
    load_from_yaml re_compile safe_load path
    = ([], log ++ [LogError ("Error loading patterns from " +:+ path) e]).
Proof.
  intros Hdoc Hin.
  destruct (load_entry_missing_ideas re_compile regex sev tags) as [e He].
  destruct (load_entries_raises re_compile entries _ _ e [] [] Hin He)
    as (e' & log' & Hraise).
  exists e', log'. unfold load_from_yaml. rewrite Hdoc. unfold ret.
  by rewrite Hraise.
Qed.

Lemma X8_missing_ideas_drops_document_witness :
  exists e log,
    load_from_yaml Examples.re_compile
      (Examples.safe_load
         [("rules.yaml",
           YMapping [ ("return", IdeasList ["Validate return values"]);
                      ("print", Structured (Some "warning") None None) ])])
      "rules.yaml"
    = ([], log ++ [LogError "Error loading patterns from rules.yaml" e]).
Proof.
  refine (X8_missing_ideas_drops_document Examples.re_compile _ "rules.yaml"
            _ "print" (Some "warning") None eq_refl _).
  apply list_elem_of_further, list_elem_of_here.
Defined.

(** X9: when every entry of a document that is a list or a mapping loads,
    [load_from_yaml] returns their patterns in the order of the document;
    an entry that is neither a list nor a mapping is skipped, costs only a
    warning and does not stop the loading. *)
Theorem X9_other_entries_skipped_with_warning
    (re_compile : string -> string + (string -> bool))
    (safe_load : Path -> res YamlDocument) (path : Path)
    (entries : list (string * PatternData)) :
  safe_load path = ret (YMapping entries) ->
  Forall (fun '(regex, data) =>
            match data with
            | OtherData => True
            | _ => exists p, load_entry re_compile regex data = inr (Some p)
            end) entries ->
  exists loaded,
    load_from_yaml re_compile safe_load path
    = (loaded,
       omap (fun '(regex, data) =>
               match data with
               | OtherData =>
                   Some (LogWarning ("Invalid pattern format for " +:+ regex))
               | _ => None
               end) entries)
    /\ Forall2 (fun '(regex, data) p =>
                  load_entry re_compile regex data = inr (Some p))
               (List.filter (fun '(_, data) =>
                               match data with OtherData => false | _ => true end)
                            entries)
               loaded.
Proof.
  intros Hdoc Hall.
  destruct (load_entries_no_raise re_compile entries [] [] Hall)
    as (loaded & Hload & Hl).
  exists loaded. split; [|done].
  unfold load_from_yaml. rewrite Hdoc. unfold ret. by rewrite Hload.
Qed.

Lemma X9_other_entries_skipped_with_warning_witness :
  exists loaded,
    load_from_yaml Examples.re_compile
      (Examples.safe_load
         [("rules.yaml",
           YMapping [ ("return", IdeasList ["Validate return values"]);
                      ("print", OtherData);
                      ("import random",
                       Structured None None (Some ["Use a safer RNG"])) ])])
      "rules.yaml"
    = (loaded, [LogWarning "Invalid pattern format for print"])
    /\ length loaded = 2.
Proof.
  destruct (X9_other_entries_skipped_with_warning Examples.re_compile
              (Examples.safe_load
                 [("rules.yaml",
                   YMapping [ ("return", IdeasList ["Validate return values"]);
                              ("print", OtherData);
                              ("import random",
                               Structured None None (Some ["Use a safer RNG"])) ])])
              "rules.yaml" _ eq_refl) as (loaded & Hload & Hl).
  - repeat constructor; by eexists.
  - exists loaded. split; [exact Hload|].
    apply Forall2_length in Hl. by rewrite <- Hl.
Defined.

Section ConvertFacts.
Variable re_compile : string -> string + (string -> bool).

Lemma fold_set_fresh {V W : Type} (f : V -> W) (l : list (string * V))
    (acc : PyDict.t string W) :
  NoDup (PyDict.keys acc ++ PyDict.keys l) ->
  fold_left (fun d '(k, v) => PyDict.set k (f v) d) l acc
  = acc ++ map (fun '(k, v) => (k, f v)) l.
Proof.
  revert acc. induction l as [|[k v] l IH]; intros acc Hnd; simpl.
  - by rewrite app_nil_r.
  - unfold PyDict.keys in Hnd. rewrite fmap_cons in Hnd. simpl in Hnd.
    apply NoDup_app in Hnd as (Hacc & Hdisj & Hl).
    apply NoDup_cons in Hl as [Hk Hl].
    rewrite set_fresh by (intros Hin; apply (Hdisj k Hin); by left).
    rewrite IH; [by rewrite <- app_assoc|].
    unfold PyDict.keys. rewrite fmap_app. simpl.
    apply NoDup_app. split_and!; [| | done].
    + apply NoDup_app. split_and!; [done | | apply NoDup_singleton].
      intros x Hx ->%list_elem_of_singleton. apply (Hdisj k Hx). by left.
    + intros x [Hx|Hx%list_elem_of_singleton]%elem_of_app Hxl.
      * apply (Hdisj x Hx). by right.
      * by subst x.
Qed.

(** The structured form with severity [info] and no tags loads as the plain
    list of ideas does. *)
Lemma load_entry_structured_info regex ideas :
  load_entry re_compile regex (Structured (Some "info") (Some []) (Some ideas))
  = load_entry re_compile regex (IdeasList ideas).
Proof. reflexivity. Qed.

Lemma load_entries_structured_info (patterns : list (string * list string))
    acc log :
  load_entries re_compile
    (map (fun '(regex, ideas) =>
            (regex, Structured (Some "info") (Some []) (Some ideas))) patterns)
    acc log
  = load_entries re_compile
      (map (fun '(regex, ideas) => (regex, IdeasList ideas)) patterns) acc log.
Proof.
  revert acc log. induction patterns as [|[regex ideas] patterns IH];
    intros acc log; [done|].
  cbn [map load_entries]. rewrite load_entry_structured_info.
  destruct (load_entry re_compile regex (IdeasList ideas)) as [e|[p|]]; [done|..];
    apply IH.
Qed.

Lemma load_entries_shorthand_defaults (patterns : list (string * list string))
    acc log loaded log' :
  Forall (fun p => ImprovementPattern.severity p = INFO
                   /\ ImprovementPattern.tags p = []) acc ->
  load_entries re_compile
    (map (fun '(regex, ideas) => (regex, IdeasList ideas)) patterns) acc log
  = (inr loaded, log') ->
  Forall (fun p => ImprovementPattern.severity p = INFO
                   /\ ImprovementPattern.tags p = []) loaded
  /\ map (fun p => (ImprovementPattern.regex p, ImprovementPattern.ideas p)) loaded
     = map (fun p => (ImprovementPattern.regex p, ImprovementPattern.ideas p)) acc
       ++ patterns.
Proof.
  revert acc log. induction patterns as [|[regex ideas] patterns IH];
    intros acc log Hacc; cbn [map load_entries].
  - intros [= <- <-]. by rewrite app_nil_r.
  - unfold load_entry, new_ImprovementPattern.
    destruct (re_compile regex) as [msg|search]; simpl; [done|].
    intros Hload. apply IH in Hload as [Hall Hmap].
    + split; [done|]. rewrite Hmap, map_app. simpl. by rewrite <- app_assoc.
    + apply Forall_app. split; [done|]. by repeat constructor.
Qed.
End ConvertFacts.

(** X10: the document that [convert_patterns_to_yaml] builds from a table
    of patterns loads exactly like the table written as plain lists of
    ideas: when the loader accepts it, it yields one pattern per entry of the
    table, in order, with the regex and the ideas of the entry, severity
    [INFO] and no tags. *)
Theorem X10_converted_table_loads_as_info
    (re_compile : string -> string + (string -> bool))
    (safe_load : Path -> res YamlDocument) (path : Path)
    (table : PyDict.t string (list string)) :
  NoDup (PyDict.keys table) ->
  safe_load path = ret (convert_patterns_to_yaml table) ->
  Forall (fun '(regex, _) => exists search, re_compile regex = inr search) table ->
  let loaded := fst (load_from_yaml re_compile safe_load path) in
  map (fun p => (ImprovementPattern.regex p, ImprovementPattern.ideas p)) loaded
  = table
  /\ Forall (fun p => ImprovementPattern.severity p = INFO
                      /\ ImprovementPattern.tags p = []) loaded.
Proof.
  intros Hnd Hdoc Hvalid loaded. subst loaded.
  unfold load_from_yaml. rewrite Hdoc. unfold ret, convert_patterns_to_yaml.
  unfold PyDict.items, PyDict.empty.
  rewrite (fold_set_fresh
             (fun ideas => Structured (Some "info") (Some []) (Some ideas)))
    by done.
  rewrite app_nil_l, load_entries_structured_info.
  destruct (load_entries re_compile _ [] []) as [[e|loaded] log] eqn:Hload.
  - exfalso. clear Hdoc Hnd.
    assert (forall acc log0 e0 log1,
              load_entries re_compile
                (map (fun '(regex, ideas) => (regex, IdeasList ideas)) table)
                acc log0 <> (inl e0, log1)) as Hno.
    { clear Hload. induction Hvalid as [|[regex ideas] table [search Hs] _ IH];
        intros acc log0 e0 log1; cbn [map load_entries]; [done|].
      unfold load_entry, new_ImprovementPattern. rewrite Hs. simpl. apply IH. }
    by apply Hno in Hload.
  - apply load_entries_shorthand_defaults in Hload as [Hall Hmap]; [|done].
    simpl. split; [by rewrite Hmap | done].
Qed.

Lemma X10_converted_table_loads_as_info_witness :
  let table := [("return", ["Validate return values"]);
                ("import random", ["Use a safer RNG"; "Seed it"])] in
  map (fun p => (ImprovementPattern.regex p, ImprovementPattern.ideas p))
      (fst (load_from_yaml Examples.re_compile
              (Examples.safe_load
                 [("base_patterns.yaml", convert_patterns_to_yaml table)])
              "base_patterns.yaml"))
  = table.
Proof.
  intros table.
  refine (proj1 (X10_converted_table_loads_as_info Examples.re_compile
            (Examples.safe_load
               [("base_patterns.yaml", convert_patterns_to_yaml table)])
            "base_patterns.yaml" table _ eq_refl _)).
  - compute_done.
  - repeat constructor; by eexists.
Defined.



(** ** The traversal of the fixer *)

Section VisitFacts.
Import Cst FormatToFString.

(** Induction over a tree with the lists of arguments, parts and children
    taken along, and over the parts of an f-string with their format
    specifications. *)
Lemma expr_nested_ind (P : expr -> Prop) (Q : FormattedStringContent -> Prop) :
  (forall v, P (Name v)) ->
  (forall v, P (SimpleString v)) ->
  (forall value attr, P value -> P (Attribute value attr)) ->
  (forall func args,
      P func -> Forall (fun a => P (arg_value a)) args -> P (Call func args)) ->
  (forall parts start end_,
      Forall Q parts -> P (FormattedString parts start end_)) ->
  (forall kind children, Forall P children -> P (Node kind children)) ->
  (forall t, Q (FormattedStringText t)) ->
  (forall x format_spec,
      P x ->
      match format_spec with
      | Some spec => Forall Q spec
      | None => True
      end ->
      Q (FormattedStringExpression x format_spec)) ->
  (forall e, P e) /\ (forall p, Q p).
Proof.
  intros HName HString HAttr HCall HFString HNode HText HExpr.
  assert (forall e, P e) as He.
  { fix IHe 1 with (IHp (p : FormattedStringContent) {struct p} : Q p).
    - intros [v|v|value attr|func args|parts start end_|kind children].
      + apply HName.
      + apply HString.
      + apply HAttr, IHe.
      + apply HCall; [apply IHe|].
        induction args as [|[k v] l IHl]; constructor; [apply IHe | exact IHl].
      + apply HFString.
        induction parts as [|p l IHl]; constructor; [apply IHp | exact IHl].
      + apply HNode.
        induction children as [|c l IHl]; constructor; [apply IHe | exact IHl].
    - destruct p as [t|x [spec|]].
      + apply HText.
      + apply HExpr; [apply IHe|].
        induction spec as [|p l IHl]; constructor; [apply IHp | exact IHl].
      + apply HExpr; [apply IHe | exact I]. }
  split; [exact He|].
  fix IHp 1. intros [t|x [spec|]].
  - apply HText.
  - apply HExpr; [apply He|].
    induction spec as [|p l IHl]; constructor; [apply IHp | exact IHl].
  - apply HExpr; [apply He | exact I].
Qed.

Lemma visit_Call_eq func args n :
  visit (Call func args) n
  = (do '(func', c1) <- visit func n;
     do '(args', c2) <- visit_all visit_arg args c1;
     leave_Call (Call func args) (Call func' args') c2)%res.
Proof.
  cbn [visit]. destruct (visit func n) as [e|[func' c1]]; [done|]. cbn [bind].
  f_equal. clear. revert c1. induction args as [|a l IH]; intros c; [done|].
  cbn [visit_all]. cbn -[visit_arg visit_all].
  destruct (visit_arg a c) as [e|[a' c']]; [done|]. cbn [bind].
  by rewrite IH.
Qed.

Lemma visit_FormattedString_eq parts start end_ n :
  visit (FormattedString parts start end_) n
  = (do '(parts', c) <- visit_all visit_part parts n;
     ret (FormattedString parts' start end_, c))%res.
Proof.
  cbn [visit]. f_equal. revert n.
  induction parts as [|p l IH]; intros c; [done|].
  cbn [visit_all]. cbn -[visit_part visit_all].
  destruct (visit_part p c) as [e|[p' c']]; [done|]. cbn [bind].
  by rewrite IH.
Qed.

Lemma visit_Node_eq kind children n :
  visit (Node kind children) n
  = (do '(children', c) <- visit_all visit children n;
     ret (Node kind children', c))%res.
Proof.
  cbn [visit]. f_equal. revert n.
  induction children as [|e l IH]; intros c; [done|].
  cbn [visit_all]. cbn -[visit visit_all].
  destruct (visit e c) as [err|[e' c']]; [done|]. cbn [bind].
  by rewrite IH.
Qed.

Lemma visit_part_Expression_eq x format_spec n :
  visit_part (FormattedStringExpression x format_spec) n
  = (do '(x', c) <- visit x n;
     do '(format_spec', c') <- visit_format_spec format_spec c;
     ret (FormattedStringExpression x' format_spec', c'))%res.
Proof.
  cbn [visit_part]. destruct (visit x n) as [e|[x' c]]; [done|]. cbn [bind].
  destruct format_spec as [spec|]; [|done]. unfold visit_format_spec.
  do 2 f_equal. clear. revert c.
  induction spec as [|p l IH]; intros c; [done|].
  cbn [visit_all]. cbn -[visit_part visit_all].
  destruct (visit_part p c) as [e|[p' c']]; [done|]. cbn [bind].
  by rewrite IH.
Qed.

Lemma count_targets_Call_eq func args :
  count_targets (Call func args)
  = (if is_target (Call func args) then 1 else 0)
    + (count_targets func + sum_list (count_targets_arg <$> args)).
Proof.
  cbn [count_targets]. do 2 f_equal.
  induction args as [|[k v] l IH]; [done|]. csimpl. by rewrite <- IH.
Qed.

Lemma count_targets_FormattedString_eq parts start end_ :
  count_targets (FormattedString parts start end_)
  = sum_list (count_targets_part <$> parts).
Proof.
  cbn [count_targets is_target]. rewrite Nat.add_0_l.
  induction parts as [|p l IH]; [done|]. csimpl. by rewrite <- IH.
Qed.

Lemma count_targets_Node_eq kind children :
  count_targets (Node kind children) = sum_list (count_targets <$> children).
Proof.
  cbn [count_targets is_target]. rewrite Nat.add_0_l.
  induction children as [|e l IH]; [done|]. csimpl. by rewrite <- IH.
Qed.

Lemma count_targets_part_Expression_eq x format_spec :
  count_targets_part (FormattedStringExpression x format_spec)
  = count_targets x
    + match format_spec with
      | Some spec => sum_list (count_targets_part <$> spec)
      | None => 0
      end.
Proof.
  cbn [count_targets_part]. f_equal. destruct format_spec as [spec|]; [|done].
  induction spec as [|p l IH]; [done|]. csimpl. by rewrite <- IH.
Qed.

Lemma visit_all_counts {A : Type} (visit_one : A -> nat -> res (A * nat))
    (count : A -> nat) (l : list A) :
  Forall (fun a => forall n a' n',
            visit_one a n = inr (a', n') -> n' = n + count a) l ->
  forall n l' n', visit_all visit_one l n = inr (l', n') ->
                  n' = n + sum_list (count <$> l).
Proof.
  induction 1 as [|a l Ha _ IH]; intros n l' n'; cbn [visit_all].
  - intros [= <- <-]. simpl. lia.
  - destruct (visit_one a n) as [e|[a' c']] eqn:Hone; [done|]. cbn [bind].
    destruct (visit_all visit_one l c') as [e|[rest c2]] eqn:Hrest; [done|].
    cbn [bind]. intros [= <- <-].
    apply Ha in Hone. apply IH in Hrest. csimpl. lia.
Qed.

Lemma visit_all_unchanged {A : Type} (visit_one : A -> nat -> res (A * nat))
    (l : list A) :
  Forall (fun a => forall n, visit_one a n = inr (a, n)) l ->
  forall n, visit_all visit_one l n = inr (l, n).
Proof.
  induction 1 as [|a l Ha _ IH]; intros n; cbn [visit_all]; [done|].
  rewrite Ha. cbn [bind]. by rewrite IH.
Qed.

Lemma leave_Call_counts original updated n e' n' :
  leave_Call original updated n = inr (e', n') ->
  n' = n + (if is_target original then 1 else 0).
Proof.
  unfold leave_Call, is_target.
  destruct original as [| |?|[| |[|lit| | | |] attr| | |] args| |];
    try (intros [= <- <-]; lia).
  destruct (String.eqb attr "format"); [|intros [= <- <-]; lia].
  destruct (split_args args [] PyDict.empty) as [pos kw].
  destruct (fstring_parts _ pos kw); simpl; [done|].
  intros [= <- <-]. lia.
Qed.

Lemma leave_Call_not_target original updated n :
  is_target original = false ->
  leave_Call original updated n = inr (updated, n).
Proof.
  unfold leave_Call, is_target.
  destruct original as [| |?|[| |[|lit| | | |] attr| | |] args| |]; try done.
  by intros ->.
Qed.

(** The counter grows by the number of calls that pass the test, in an
    expression and in a part of an f-string. *)
Lemma visit_counts_both :
  (forall e n e' n', visit e n = inr (e', n') -> n' = n + count_targets e)
  /\ (forall p n p' n',
        visit_part p n = inr (p', n') -> n' = n + count_targets_part p).
Proof.
  apply (expr_nested_ind
           (fun e => forall n e' n',
                visit e n = inr (e', n') -> n' = n + count_targets e)
           (fun p => forall n p' n',
                visit_part p n = inr (p', n') -> n' = n + count_targets_part p)).
  - intros v n e' n' [= <- <-]. simpl. lia.
  - intros v n e' n' [= <- <-]. simpl. lia.
  - intros value attr IH n e' n'. cbn [visit count_targets is_target].
    destruct (visit value n) as [e|[value' c]] eqn:Hv; [done|]. cbn [bind].
    intros [= <- <-]. apply IH in Hv. lia.
  - intros func args IHf IHargs n e' n'.
    rewrite visit_Call_eq, count_targets_Call_eq.
    destruct (visit func n) as [e|[func' c1]] eqn:Hf; [done|]. cbn [bind].
    destruct (visit_all visit_arg args c1) as [e|[args' c2]] eqn:Ha; [done|].
    cbn [bind]. intros Hleave%leave_Call_counts.
    apply IHf in Hf.
    apply (visit_all_counts visit_arg count_targets_arg) in Ha; [lia|].
    eapply Forall_impl; [exact IHargs|].
    intros [k v] Hv m a' m'. cbn [visit_arg count_targets_arg].
    destruct (visit v m) as [e|[v' c]] eqn:Hvv; [done|]. cbn [bind].
    intros [= <- <-]. exact (Hv _ _ _ Hvv).
  - intros parts start end_ IHparts n e' n'.
    rewrite visit_FormattedString_eq, count_targets_FormattedString_eq.
    destruct (visit_all visit_part parts n) as [e|[parts' c]] eqn:Hp; [done|].
    cbn [bind]. intros [= <- <-].
    by apply (visit_all_counts visit_part count_targets_part) in Hp.
  - intros kind children IHch n e' n'.
    rewrite visit_Node_eq, count_targets_Node_eq.
    destruct (visit_all visit children n) as [e|[children' c]] eqn:Hc; [done|].
    cbn [bind]. intros [= <- <-].
    by apply (visit_all_counts visit count_targets) in Hc.
  - intros t n p' n' [= <- <-]. simpl. lia.
  - intros x format_spec IHx IHspec n p' n'.
    rewrite visit_part_Expression_eq, count_targets_part_Expression_eq.
    destruct (visit x n) as [e|[x' c]] eqn:Hx; [done|]. cbn [bind].
    apply IHx in Hx. destruct format_spec as [spec|]; cbn [visit_format_spec].
    + destruct (visit_all visit_part spec c) as [e|[spec' c']] eqn:Hs; [done|].
      cbn [bind]. intros [= <- <-].
      apply (visit_all_counts visit_part count_targets_part) in Hs; [lia|done].
    + cbn [bind ret]. intros [= <- <-]. lia.
Qed.

Lemma visit_counts_targets e :
  forall n e' n', visit e n = inr (e', n') -> n' = n + count_targets e.
Proof. apply visit_counts_both. Qed.

Lemma sum_list_zero (l : list nat) : sum_list l = 0 -> Forall (fun x => x = 0) l.
Proof.
  induction l as [|x l IH]; [constructor|]. simpl. intros Hs.
  constructor; [lia | apply IH; lia].
Qed.

(** Without such a call nothing changes, in an expression and in a part
    of an f-string. *)
Lemma visit_without_both :
  (forall e, count_targets e = 0 -> forall n, visit e n = inr (e, n))
  /\ (forall p, count_targets_part p = 0 ->
                forall n, visit_part p n = inr (p, n)).
Proof.
  apply (expr_nested_ind
           (fun e => count_targets e = 0 -> forall n, visit e n = inr (e, n))
           (fun p => count_targets_part p = 0 ->
                     forall n, visit_part p n = inr (p, n))).
  - done.
  - done.
  - intros value attr IH Hzero n. cbn [visit].
    cbn [count_targets is_target] in Hzero. by rewrite IH.
  - intros func args IHf IHargs Hzero n.
    rewrite count_targets_Call_eq in Hzero. rewrite visit_Call_eq.
    rewrite IHf by lia. cbn [bind].
    rewrite (visit_all_unchanged visit_arg).
    + cbn [bind]. apply leave_Call_not_target.
      destruct (is_target (Call func args)); [lia | done].
    + assert (sum_list (count_targets_arg <$> args) = 0) as Hs by lia.
      apply sum_list_zero, Forall_fmap in Hs.
      pose proof (conj IHargs Hs) as Hboth. apply Forall_and in Hboth.
      eapply Forall_impl; [exact Hboth|].
      intros [k v] [Hv Hc] m. cbn [visit_arg]. by rewrite Hv.
  - intros parts start end_ IHparts Hzero n.
    rewrite count_targets_FormattedString_eq in Hzero.
    rewrite visit_FormattedString_eq.
    rewrite (visit_all_unchanged visit_part); [done|].
    apply sum_list_zero, Forall_fmap in Hzero.
    pose proof (conj IHparts Hzero) as Hboth. apply Forall_and in Hboth.
    eapply Forall_impl; [exact Hboth|].
    intros p [Hp Hc]. by apply Hp.
  - intros kind children IHch Hzero n.
    rewrite count_targets_Node_eq in Hzero. rewrite visit_Node_eq.
    rewrite (visit_all_unchanged visit); [done|].
    apply sum_list_zero, Forall_fmap in Hzero.
    pose proof (conj IHch Hzero) as Hboth. apply Forall_and in Hboth.
    eapply Forall_impl; [exact Hboth|].
    intros e [He Hc]. by apply He.
  - done.
  - intros x format_spec IHx IHspec Hzero n.
    rewrite count_targets_part_Expression_eq in Hzero.
    rewrite visit_part_Expression_eq, IHx by lia. cbn [bind].
    destruct format_spec as [spec|]; cbn [visit_format_spec]; [|done].
    rewrite (visit_all_unchanged visit_part); [done|].
    assert (sum_list (count_targets_part <$> spec) = 0) as Hs by lia.
    apply sum_list_zero, Forall_fmap in Hs.
    pose proof (conj IHspec Hs) as Hboth. apply Forall_and in Hboth.
    eapply Forall_impl; [exact Hboth|].
    intros p [Hp Hc]. by apply Hp.
Qed.

Lemma visit_without_targets e :
  count_targets e = 0 -> forall n, visit e n = inr (e, n).
Proof. apply visit_without_both. Qed.
End VisitFacts.

(** X12: when the source parses and the transformer raises nothing, the
    change count that [apply] returns is the number of calls of [format] on
    a string literal in the parsed tree, those inside the arguments of
    another such call and those inside the format specification of an
    f-string included; when the transformer raises, [apply] returns the
    source and 0. *)
Theorem X12_change_count_is_number_of_format_calls
    (parse_module : string -> res Cst.expr) (code_for : Cst.expr -> string)
    (source_code : string) (module : Cst.expr) :
  parse_module source_code = ret module ->
  (forall modified n,
      FormatToFString.visit module 0 = ret (modified, n) ->
      FormatToFString.apply parse_module code_for source_code
      = (code_for modified, FormatToFString.count_targets module))
  /\ (forall e,
        FormatToFString.visit module 0 = raise e ->
        FormatToFString.apply parse_module code_for source_code
        = (source_code, 0)).
Proof.
  intros Hparse. unfold FormatToFString.apply. rewrite Hparse. cbn [bind ret].
  split.
  - intros modified n Hvisit. rewrite Hvisit. cbn [bind].
    apply visit_counts_targets in Hvisit. by subst n.
  - intros e Hvisit. by rewrite Hvisit.
Qed.

Lemma X12_change_count_is_number_of_format_calls_witness :
  FormatToFString.apply (Examples.parse_module Examples.known_modules)
    Examples.code_for (Examples.code_for Examples.nested_source)
  = (Examples.code_for Examples.nested_once, 2)
  /\ FormatToFString.apply (Examples.parse_module [Examples.spec_source])
       Examples.code_for (Examples.code_for Examples.spec_source)
     = (Examples.code_for Examples.spec_once, 1).
Proof.
  split.
  - refine (proj1 (X12_change_count_is_number_of_format_calls
                     (Examples.parse_module Examples.known_modules)
                     Examples.code_for (Examples.code_for Examples.nested_source)
                     Examples.nested_source eq_refl)
              Examples.nested_once 2 eq_refl).
  - refine (proj1 (X12_change_count_is_number_of_format_calls
                     (Examples.parse_module [Examples.spec_source])
                     Examples.code_for (Examples.code_for Examples.spec_source)
                     Examples.spec_source eq_refl)
              Examples.spec_once 1 eq_refl).
Defined.

(** X13: a tree without a call of [format] on a string literal, the
    format specifications of its f-strings included, comes back from the
    transformer as it is, so [apply] returns the printed tree and the
    count 0. *)
Theorem X13_no_format_call_no_change
    (parse_module : string -> res Cst.expr) (code_for : Cst.expr -> string)
    (source_code : string) (module : Cst.expr) :
  parse_module source_code = ret module ->
  FormatToFString.count_targets module = 0 ->
  FormatToFString.visit module 0 = ret (module, 0)
  /\ FormatToFString.apply parse_module code_for source_code
     = (code_for module, 0).
Proof.
  intros Hparse Hzero.
  pose proof (visit_without_targets module Hzero 0) as Hvisit.
  split; [done|].
  unfold FormatToFString.apply. rewrite Hparse. cbn [bind ret].
  by rewrite Hvisit.
Qed.

Lemma X13_no_format_call_no_change_witness :
  FormatToFString.apply (Examples.parse_module [Examples.nested_twice])
    Examples.code_for (Examples.code_for Examples.nested_twice)
  = (Examples.code_for Examples.nested_twice, 0).
Proof.
  refine (proj2 (X13_no_format_call_no_change
                   (Examples.parse_module [Examples.nested_twice])
                   Examples.code_for (Examples.code_for Examples.nested_twice)
                   Examples.nested_twice eq_refl eq_refl)).
Defined.

(** ** The parts of the f-string *)

Section PartsFacts.
Import Cst FormatToFString.
Variable template : string.
Variable positional_args : list expr.
Variable keyword_args : PyDict.t string expr.

Lemma expressions_of_app (p q : list FormattedStringContent) :
  expressions_of (p ++ q) = expressions_of p ++ expressions_of q.
Proof. apply omap_app. Qed.

Lemma process_match_empty (st : loop_state) (m : re_match) :
  group1 m = "" ->
  exists st',
    process_match template positional_args keyword_args st m = ret st'
    /\ expressions_of (parts st')
       = expressions_of (parts st) ++ take 1 (drop (idx st) positional_args)
    /\ idx st' = (if (idx st <? length positional_args)%nat
                  then S (idx st) else idx st).
Proof.
  intros Hg. unfold process_match. rewrite Hg. cbn [String.eqb].
  set (before := if (last_end st <? m_start m)%nat then _ else _).
  assert (expressions_of before = expressions_of (parts st)) as Hbefore.
  { subst before. destruct (_ <? _)%nat; [|done].
    rewrite expressions_of_app. simpl. by rewrite app_nil_r. }
  destruct (idx st <? length positional_args)%nat eqn:Hlt.
  - apply Nat.ltb_lt in Hlt.
    destruct (lookup_lt_is_Some_2 positional_args (idx st) Hlt) as [e He].
    rewrite He. eexists. split; [reflexivity|]. cbn [parts idx bind ret].
    rewrite expressions_of_app, Hbefore.
    by rewrite (drop_S _ _ _ He).
  - apply Nat.ltb_ge in Hlt.
    eexists. split; [reflexivity|]. cbn [parts idx bind ret].
    rewrite drop_ge by done. simpl. by rewrite app_nil_r.
Qed.

Lemma run_matches_empty (ms : list re_match) (st : loop_state) :
  Forall (fun m => group1 m = "") ms ->
  exists st',
    run_matches template positional_args keyword_args ms st = ret st'
    /\ expressions_of (parts st')
       = expressions_of (parts st)
         ++ take (length ms) (drop (idx st) positional_args).
Proof.
  intros Hall. revert st.
  induction Hall as [|m ms Hm _ IH]; intros st.
  - exists st. split; [done|]. simpl. by rewrite app_nil_r.
  - destruct (process_match_empty st m Hm) as (st1 & Hstep & Hexpr & Hidx).
    destruct (IH st1) as (st' & Hrun & Hexpr').
    exists st'. cbn [run_matches]. rewrite Hstep. cbn [bind ret].
    split; [done|]. rewrite Hexpr', Hexpr, Hidx, <- app_assoc. f_equal.
    destruct (idx st <? length positional_args)%nat eqn:Hlt.
    + apply Nat.ltb_lt in Hlt.
      destruct (lookup_lt_is_Some_2 positional_args (idx st) Hlt) as [e He].
      by rewrite (drop_S _ _ _ He).
    + apply Nat.ltb_ge in Hlt. rewrite drop_ge by done. by rewrite !take_nil.
Qed.
End PartsFacts.

(** X14: when every placeholder of the template is empty, the expressions
    of the f-string are the first positional arguments, one per
    placeholder and in their order; placeholders beyond the last
    positional argument contribute nothing. *)
Theorem X14_empty_placeholders_take_arguments_in_order
    (template : string) (positional_args : list Cst.expr)
    (keyword_args : PyDict.t string Cst.expr) :
  Forall (fun m => FormatToFString.group1 m = "")
         (FormatToFString.finditer template) ->
  exists parts,
    FormatToFString.fstring_parts template positional_args keyword_args
    = ret parts
    /\ FormatToFString.expressions_of parts
       = take (length (FormatToFString.finditer template)) positional_args.
Proof.
  intros Hall. unfold FormatToFString.fstring_parts.
  destruct (run_matches_empty template positional_args keyword_args _
              FormatToFString.loop_init Hall) as (st & Hrun & Hexpr).
  rewrite Hrun. cbn [bind ret]. eexists. split; [reflexivity|].
  simpl in Hexpr. rewrite ?drop_0 in Hexpr. rewrite <- Hexpr.
  destruct (_ <? _)%nat; [|done].
  rewrite expressions_of_app. simpl. by rewrite app_nil_r.
Qed.

Lemma X14_empty_placeholders_take_arguments_in_order_witness :
  exists parts,
    FormatToFString.fstring_parts "{}, {} and {}"
      [Cst.Name "a"; Cst.Name "b"] PyDict.empty
    = ret parts
    /\ FormatToFString.expressions_of parts = [Cst.Name "a"; Cst.Name "b"].
Proof.
  apply (X14_empty_placeholders_take_arguments_in_order "{}, {} and {}"
           [Cst.Name "a"; Cst.Name "b"] PyDict.empty).
  repeat constructor.
Defined.

(** ** The placeholder scanner, continued *)


(** X15: the scanner reports exactly the occurrences of the placeholder
    pattern: a reported match has an opening brace at its start, a body
    without braces as its group and a closing brace before its end, and
    every such occurrence in the template is reported. *)
Theorem X15_scanner_finds_exactly_the_placeholders
    (template : string) (m : FormatToFString.re_match) :
  m ∈ FormatToFString.finditer template
  <-> FormatToFString.is_placeholder template m.
Proof.
  split.
  - unfold FormatToFString.finditer.
    apply (finditer_go_sound template template ""); [done|].
    by intros start [=].
  - intros (before & after & Ht & Hstart & Hend & Hbody).
    unfold FormatToFString.finditer.
    destruct (finditer_go_prefix template before
                ("{" +:+ FormatToFString.group1 m +:+ "}" +:+ after) 0 None)
      as (ms & opened' & Hgo).
    rewrite <- Ht in Hgo. rewrite Hgo. apply elem_of_app. right.
    change ("{" +:+ FormatToFString.group1 m +:+ "}" +:+ after)
      with (String "{" (FormatToFString.group1 m +:+ "}" +:+ after)).
    cbn [FormatToFString.finditer_go Ascii.eqb Bool.eqb].
    rewrite finditer_go_skip by done.
    change ("}" +:+ after) with (String "}" after).
    cbn [FormatToFString.finditer_go Ascii.eqb Bool.eqb].
    assert (m = FormatToFString.mk_match (0 + String.length before)
                  (S (S (0 + String.length before)
                      + String.length (FormatToFString.group1 m)))
                  (PyStr.slice template (S (0 + String.length before))
                     (S (0 + String.length before)
                      + String.length (FormatToFString.group1 m)))) as <-;
      [|apply list_elem_of_here].
    destruct m as [s e g]. simpl in *. subst s e. f_equal; [lia|].
    rewrite Ht. symmetry. apply slice_group; lia.
Qed.

Lemma X15_scanner_finds_exactly_the_placeholders_witness :
  FormatToFString.mk_match 6 12 "name" ∈ FormatToFString.finditer "Hello {name}!".
Proof.
  apply (X15_scanner_finds_exactly_the_placeholders "Hello {name}!"
           (FormatToFString.mk_match 6 12 "name")).
  by exists "Hello ", "!".
Defined.

(** X16: a format call on a quoted literal whose template has no brace
    becomes an f-string whose only part is the template text itself, and
    an f-string without parts when the template is empty; the arguments of
    the call are dropped, and the call counts as one change. *)
Theorem X16_template_without_placeholders
    (first last : ascii) (template : string) (args : list Cst.Arg)
    (updated_node : Cst.expr) (changes : nat) :
  first = "'"%char \/ first = ascii_of_N 34 ->
  FormatToFString.no_brace template = true ->
  FormatToFString.leave_Call
    (Cst.Call
       (Cst.Attribute
          (Cst.SimpleString (String first (template +:+ String last "")))
          "format") args)
    updated_node changes
  = ret (Cst.FormattedString
           (match template with
            | EmptyString => []
            | _ => [Cst.FormattedStringText template]
            end)
           FormatToFString.fstring_start FormatToFString.fstring_end,
         S changes).
Proof. apply leave_Call_no_brace. Qed.

Lemma X16_template_without_placeholders_witness :
  FormatToFString.leave_Call
    (Cst.Call (Cst.Attribute (Cst.SimpleString "'plain text'") "format")
       [Cst.mkArg None (Cst.Name "unused")])
    (Cst.Name "updated") 3
  = ret (Cst.FormattedString [Cst.FormattedStringText "plain text"]
           FormatToFString.fstring_start FormatToFString.fstring_end, 4).
Proof.
  apply (X16_template_without_placeholders "'"%char "'"%char "plain text"
           [Cst.mkArg None (Cst.Name "unused")] (Cst.Name "updated") 3).
  - by left.
  - reflexivity.
Defined.

(** X17: for a template with one named placeholder, text without braces
    before and after it, the f-string consists of the text before (if any),
    the expression of the keyword argument with that name, and the text
    after (if any), both texts unchanged; when no keyword argument has the
    name, the placeholder gives no part at all. *)
Theorem X17_named_placeholder_keeps_surrounding_text
    (pre name post : string) (positional_args : list Cst.expr)
    (keyword_args : PyDict.t string Cst.expr) :
  FormatToFString.no_brace pre = true ->
  FormatToFString.no_brace name = true ->
  FormatToFString.no_brace post = true ->
  name <> "" -> PyStr.isdigit name = false ->
  let text := fun s : string =>
    match s with
    | EmptyString => []
    | _ => [Cst.FormattedStringText s]
    end in
  FormatToFString.fstring_parts (pre +:+ "{" +:+ name +:+ "}" +:+ post)
    positional_args keyword_args
  = ret (text pre
         ++ match PyDict.get name keyword_args with
            | Some e => [Cst.FormattedStringExpression e None]
            | None => []
            end
         ++ text post).
Proof.
  intros Hpre Hname Hpost Hne Hnd text.
  unfold FormatToFString.fstring_parts. rewrite finditer_single by done.
  set (template := pre +:+ "{" +:+ name +:+ "}" +:+ post).
  cbn [FormatToFString.run_matches]. unfold FormatToFString.process_match.
  cbn [FormatToFString.group1 FormatToFString.m_start FormatToFString.m_end
       FormatToFString.loop_init FormatToFString.last_end FormatToFString.parts
       FormatToFString.idx].
  apply String.eqb_neq in Hne. rewrite Hne, Hnd.
  assert ((if (0 <? String.length pre)%nat
           then [] ++ [Cst.FormattedStringText
                         (PyStr.slice template 0 (String.length pre))]
           else []) = text pre) as ->.
  { destruct pre as [|c pre']; [done|].
    assert ((0 <? String.length (String c pre'))%nat = true) as -> by done.
    unfold PyStr.slice. rewrite Nat.sub_0_r. unfold template.
    subst text. cbv beta. rewrite app_nil_l. by rewrite substring_0_app. }
  assert (String.length template
          = String.length pre + String.length name + 2 + String.length post)
    as Hlen.
  { unfold template. rewrite !string_length_app. simpl. lia. }
  assert (forall middle : list Cst.FormattedStringContent,
            (if (String.length pre + String.length name + 2
                 <? String.length template)%nat
             then middle ++ [Cst.FormattedStringText
                               (PyStr.slice_from template
                                  (String.length pre + String.length name + 2))]
             else middle) = middle ++ text post) as Htail.
  { intros middle. rewrite Hlen. destruct post as [|c post'].
    - simpl. rewrite Nat.add_0_r, Nat.ltb_irrefl. by rewrite app_nil_r.
    - assert ((String.length pre + String.length name + 2
               <? String.length pre + String.length name + 2
                  + String.length (String c post'))%nat = true) as ->
        by (apply Nat.ltb_lt; simpl; lia).
      subst text. cbv beta. do 3 f_equal.
      unfold PyStr.slice_from. rewrite Hlen.
      replace (String.length pre + String.length name + 2
               + String.length (String c post')
               - (String.length pre + String.length name + 2))
        with (String.length (String c post')) by lia.
      replace (String.length pre + String.length name + 2)
        with (String.length (pre +:+ "{" +:+ name +:+ "}"))
        by (rewrite !string_length_app; simpl; lia).
      unfold template.
      replace (pre +:+ "{" +:+ name +:+ "}" +:+ String c post')
        with ((pre +:+ "{" +:+ name +:+ "}") +:+ String c post')
        by (by rewrite !string_app_assoc).
      rewrite substring_skip. apply substring_all. }
  destruct (PyDict.get name keyword_args) as [e|];
    cbn [bind ret FormatToFString.parts FormatToFString.last_end];
    rewrite Htail; by rewrite <- ?app_assoc, ?app_nil_r.
Qed.

Lemma X17_named_placeholder_keeps_surrounding_text_witness :
  FormatToFString.fstring_parts "Hello {name}!" []
    [("name", Cst.Name "user")]
  = ret [Cst.FormattedStringText "Hello ";
         Cst.FormattedStringExpression (Cst.Name "user") None;
         Cst.FormattedStringText "!"].
Proof.
  refine (X17_named_placeholder_keeps_surrounding_text "Hello " "name" "!" []
            [("name", Cst.Name "user")] _ _ _ _ _); (reflexivity || discriminate).
Defined.

(** ** Applying fixers to a file *)


(** ** The older analyzers, continued *)

Section LegacyMore.
Variable re_search : string -> string -> bool.

Lemma assign_matches_none table path n line (results : Legacy.results_t) :
  Forall (fun '(pattern, _) => re_search pattern line = false) table ->
  Legacy.assign_matches re_search table path n line results = results.
Proof.
  intros Hall. revert results.
  induction Hall as [|[p i] table Hp _ IH]; intros results; simpl; [done|].
  rewrite Hp. apply IH.
Qed.

Lemma assign_matches_app t1 t2 path n line (results : Legacy.results_t) :
  Legacy.assign_matches re_search (t1 ++ t2) path n line results
  = Legacy.assign_matches re_search t2 path n line
      (Legacy.assign_matches re_search t1 path n line results).
Proof.
  revert results. induction t1 as [|[p i] t1 IH]; intros results; simpl; [done|].
  apply IH.
Qed.

Lemma assign_first_match_none table path n line (results : Legacy.results_t) :
  Forall (fun '(pattern, _) => re_search pattern line = false) table ->
  Legacy.assign_first_match re_search table path n line results = results.
Proof.
  intros Hall. revert results.
  induction Hall as [|[p i] table Hp _ IH]; intros results; simpl; [done|].
  rewrite Hp. apply IH.
Qed.
End LegacyMore.

(** X19: in code_analyzer.py a line that several patterns of the table
    match ends up with the ideas of the last of them: every matching
    pattern assigns the entry of the line again. *)
Theorem X19_legacy_last_matching_pattern_wins
    (re_search : string -> string -> bool)
    (before after : list (string * list string))
    (pattern : string) (ideas : list string)
    (path : string) (n : nat) (line : string) (results : Legacy.results_t) :
  re_search pattern line = true ->
  Forall (fun '(later, _) => re_search later line = false) after ->
  Legacy.lookup
    (Legacy.assign_matches re_search (before ++ (pattern, ideas) :: after)
       path n line results) path n
  = Some (Legacy.mk_entry line ideas).
Proof.
  intros Hm Hafter.
  change ((pattern, ideas) :: after) with ([(pattern, ideas)] ++ after).
  rewrite app_assoc, assign_matches_app,
          (assign_matches_none re_search after) by done.
  by apply legacy_last_match_wins.
Qed.

Lemma X19_legacy_last_matching_pattern_wins_witness :
  Legacy.lookup
    (Legacy.assign_matches Examples.re_search
       [("return", ["first"]); ("x", ["second"]); ("import", ["third"])]
       "a.py" 1 "return x" [])
    "a.py" 1
  = Some (Legacy.mk_entry "return x" ["second"]).
Proof.
  refine (X19_legacy_last_matching_pattern_wins Examples.re_search
            [("return", ["first"])] [("import", ["third"])] "x" ["second"]
            "a.py" 1 "return x" [] eq_refl _).
  by repeat constructor.
Defined.

(** X20: in enhanced_code_analyzer.py a line that has an entry keeps it
    whatever matches later, and a line without an entry gets the ideas of
    the first pattern of the table that matches it. *)
Theorem X20_enhanced_first_matching_pattern_wins
    (re_search : string -> string -> bool)
    (before after : list (string * list string))
    (pattern : string) (ideas : list string)
    (path : string) (n : nat) (line : string) (results : Legacy.results_t) :
  (forall e table,
      Legacy.lookup results path n = Some e ->
      Legacy.lookup
        (Legacy.assign_first_match re_search table path n line results) path n
      = Some e)
  /\ (Legacy.lookup results path n = None ->
      Forall (fun '(earlier, _) => re_search earlier line = false) before ->
      re_search pattern line = true ->
      Legacy.lookup
        (Legacy.assign_first_match re_search
           (before ++ (pattern, ideas) :: after) path n line results) path n
      = Some (Legacy.mk_entry line ideas)).
Proof.
  split.
  - intros e table He. by apply enhanced_first_match_kept.
  - intros Hnone Hbefore Hm.
    assert (forall t1 t2 r,
              Legacy.assign_first_match re_search (t1 ++ t2) path n line r
              = Legacy.assign_first_match re_search t2 path n line
                  (Legacy.assign_first_match re_search t1 path n line r)) as Happ.
    { induction t1 as [|[p i] t1 IH]; intros t2 r; simpl; [done|]. apply IH. }
    rewrite Happ, (assign_first_match_none re_search before) by done.
    cbn [Legacy.assign_first_match]. rewrite Hm.
    apply enhanced_first_match_kept.
    unfold Legacy.lookup in Hnone. unfold PyDict.mem.
    destruct (PyDict.get path results) as [inner|] eqn:Hp; simpl in *.
    + rewrite Hnone. apply legacy_lookup_setitem_eq.
    + apply legacy_lookup_setitem_eq.
Qed.

Lemma X20_enhanced_first_matching_pattern_wins_witness :
  Legacy.lookup
    (Legacy.assign_first_match Examples.re_search
       [("import", ["zeroth"]); ("return", ["first"]); ("x", ["second"])]
       "a.py" 1 "return x" [])
    "a.py" 1
  = Some (Legacy.mk_entry "return x" ["first"]).
Proof.
  refine (proj2 (X20_enhanced_first_matching_pattern_wins Examples.re_search
                   [("import", ["zeroth"])] [("x", ["second"])] "return"
                   ["first"] "a.py" 1 "return x" []) eq_refl _ eq_refl).
  by repeat constructor.
Defined.

Section LegacyScan.
Variable re_search : string -> string -> bool.
Variable readlines : Path -> res (list string).
Variable table : list (string * list string).
Variable relpath : string -> string -> string.

Local Abbreviation analyze_files :=
  (Legacy.analyze_files re_search readlines table relpath).
Local Abbreviation analyze_dirs :=
  (Legacy.analyze_dirs re_search readlines table relpath).
Local Abbreviation analyze_files_enhanced :=
  (Legacy.analyze_files_enhanced re_search readlines table relpath).
Local Abbreviation analyze_dirs_enhanced :=
  (Legacy.analyze_dirs_enhanced re_search readlines table relpath).
Local Abbreviation scanned root file :=
  (PyStr.endswith ".py" file
   && match readlines (Legacy.path_join root file) with
      | inr _ => true
      | inl _ => false
      end).

Lemma analyze_files_raises directory_path root files file e results :
  file ∈ files -> PyStr.endswith ".py" file = true ->
  readlines (Legacy.path_join root file) = inl e ->
  exists e', analyze_files directory_path root files results = inl e'.
Proof.
  intros Hin Hpy Hread. revert results.
  induction files as [|f files IH]; intros results.
  - by apply elem_of_nil in Hin.
  - cbn [Legacy.analyze_files].
    destruct (decide (f = file)) as [->|Hne].
    + rewrite Hpy. unfold Legacy.analyze_file. rewrite Hread. by eexists.
    + apply elem_of_cons in Hin as [->|Hin]; [done|].
      destruct (PyStr.endswith ".py" f); [|by apply IH].
      destruct (Legacy.analyze_file _ _ _ _ _ _) as [e0|results']; [by eexists|].
      cbn [bind]. by apply IH.
Qed.

Lemma analyze_dirs_raises directory_path dirs root files file e results :
  (root, files) ∈ dirs -> file ∈ files -> PyStr.endswith ".py" file = true ->
  readlines (Legacy.path_join root file) = inl e ->
  exists e', analyze_dirs directory_path dirs results = inl e'.
Proof.
  intros Hdir Hin Hpy Hread. revert results.
  induction dirs as [|[r fs] dirs IH]; intros results.
  - by apply elem_of_nil in Hdir.
  - cbn [Legacy.analyze_dirs].
    apply elem_of_cons in Hdir as [[= <- <-]|Hdir].
    + destruct (analyze_files_raises directory_path root files file e results
                  Hin Hpy Hread) as [e' ->]. by eexists.
    + destruct (analyze_files directory_path r fs results) as [e0|results'];
        [by eexists|]. cbn [bind]. by apply IH.
Qed.

Lemma analyze_files_enhanced_filter directory_path root files results :
  analyze_files_enhanced directory_path root files results
  = analyze_files_enhanced directory_path root
      (List.filter (fun file => scanned root file) files) results.
Proof.
  revert results. induction files as [|f files IH]; intros results; [done|].
  cbn [Legacy.analyze_files_enhanced List.filter].
  destruct (PyStr.endswith ".py" f) eqn:Hpy; cbn [andb]; [|apply IH].
  destruct (readlines (Legacy.path_join root f)) as [e|lines] eqn:Hread.
  - unfold Legacy.analyze_file_enhanced at 1. rewrite Hread. apply IH.
  - cbn [Legacy.analyze_files_enhanced]. rewrite Hpy. apply IH.
Qed.

Lemma analyze_dirs_enhanced_filter directory_path dirs results :
  analyze_dirs_enhanced directory_path dirs results
  = analyze_dirs_enhanced directory_path
      (map (fun '(root, files) =>
              (root, List.filter (fun file => scanned root file) files)) dirs)
      results.
Proof.
  revert results. induction dirs as [|[r fs] dirs IH]; intros results; [done|].
  cbn [Legacy.analyze_dirs_enhanced map].
  by rewrite <- analyze_files_enhanced_filter, IH.
Qed.
End LegacyScan.

(** X21: in code_analyzer.py one Python file that cannot be read makes
    [analyze_code_files] fail as a whole: the exception of [analyze_file]
    is not caught, and no results are returned. *)
Theorem X21_legacy_scan_aborts_on_unreadable_file
    (re_search : string -> string -> bool)
    (readlines : Path -> res (list string))
    (table : list (string * list string))
    (walk : string -> list (string * list string))
    (relpath : string -> string -> string)
    (directory_path root : string) (files : list string) (file : string)
    (e : exn) :
  (root, files) ∈ walk directory_path ->
  file ∈ files ->
  PyStr.endswith ".py" file = true ->
  readlines (Legacy.path_join root file) = raise e ->
  exists e',
    Legacy.analyze_code_files re_search readlines table walk relpath
      directory_path = raise e'.
Proof.
  intros Hdir Hin Hpy Hread. unfold Legacy.analyze_code_files.
  by eapply analyze_dirs_raises.
Qed.

(** X22: in enhanced_code_analyzer.py [analyze_code_files] returns the
    results of the Python files that can be read: files with another
    ending and files whose reading raises do not influence the result. *)
Theorem X22_enhanced_scan_skips_unreadable_files
    (re_search : string -> string -> bool)
    (readlines : Path -> res (list string))
    (table : list (string * list string))
    (walk : string -> list (string * list string))
    (relpath : string -> string -> string) (directory_path : string) :
  Legacy.analyze_code_files_enhanced re_search readlines table walk relpath
    directory_path
  = Legacy.analyze_code_files_enhanced re_search readlines table
      (fun d =>
         map (fun '(root, files) =>
                (root,
                 List.filter
                   (fun file =>
                      PyStr.endswith ".py" file
                      && match readlines (Legacy.path_join root file) with
                         | inr _ => true
                         | inl _ => false
                         end) files))
             (walk d))
      relpath directory_path.
Proof.
  unfold Legacy.analyze_code_files_enhanced. apply analyze_dirs_enhanced_filter.
Qed.

Lemma X21_legacy_scan_aborts_on_unreadable_file_witness :
  exists e',
    Legacy.analyze_code_files Examples.re_search
      (Examples.readlines [("proj/a.py", Examples.Text "return x")])
      [("return", ["Validate return values"])]
      (fun _ => [("proj", ["a.py"; "notes.txt"; "bad.py"])])
      (fun file_path _ => file_path) "proj"
    = raise e'.
Proof.
  apply (X21_legacy_scan_aborts_on_unreadable_file Examples.re_search
           (Examples.readlines [("proj/a.py", Examples.Text "return x")])
           [("return", ["Validate return values"])]
           (fun _ => [("proj", ["a.py"; "notes.txt"; "bad.py"])])
           (fun file_path _ => file_path) "proj" "proj"
           ["a.py"; "notes.txt"; "bad.py"] "bad.py" OSError).
  - apply list_elem_of_here.
  - compute_done.
  - reflexivity.
  - reflexivity.
Defined.

(** ** Merging the command line into the configuration *)

Section MergeFacts.
Variable V : Type.
Variable class_attribute : string -> bool.

Local Abbreviation merge := (Config.merge_with_args V class_attribute).
Local Abbreviation turn :=
  (fun (config : Config.attributes V) '(key, value) =>
     if Config.hasattr V class_attribute config key
        && match value : option V with Some _ => true | None => false end
     then PyDict.set key value config
     else config).

Lemma merge_other_keys (args : list (string * option V))
    (config : Config.attributes V) (key : string) :
  key ∉ PyDict.keys args ->
  PyDict.get key (fold_left turn args config) = PyDict.get key config.
Proof.
  revert config. unfold PyDict.keys.
  induction args as [|[k v] args IH]; intros config; [done|].
  rewrite fmap_cons, not_elem_of_cons. intros [Hne Hrest]. cbn [fold_left].
  rewrite IH by done. destruct (_ && _); [|done].
  apply get_set_ne. simpl in Hne. congruence.
Qed.

Lemma merge_attribute (args : list (string * option V))
    (config : Config.attributes V) (key : string) (old : option V) :
  NoDup (PyDict.keys args) ->
  PyDict.get key config = Some old ->
  PyDict.get key (fold_left turn args config)
  = Some match PyDict.get key args with
         | Some (Some v) => Some v
         | _ => old
         end.
Proof.
  revert config old. unfold PyDict.keys.
  induction args as [|[k v] args IH]; intros config old Hnd Hold; [done|].
  rewrite fmap_cons in Hnd. apply NoDup_cons in Hnd as [Hk Hnd].
  cbn [fold_left PyDict.get]. destruct (decide (k = key)) as [->|Hne].
  - rewrite merge_other_keys by done.
    unfold Config.hasattr, PyDict.mem. rewrite Hold. simpl.
    destruct v as [x|]; [apply get_set_eq | done].
  - apply IH; [done|].
    destruct (_ && _); [|done]. by rewrite get_set_ne.
Qed.

Lemma merge_no_attribute (args : list (string * option V))
    (config : Config.attributes V) (key : string) :
  PyDict.get key config = None -> class_attribute key = false ->
  PyDict.get key (fold_left turn args config) = None.
Proof.
  revert config. induction args as [|[k v] args IH]; intros config Hnone Hc;
    [done|].
  cbn [fold_left]. apply IH; [|done].
  destruct (decide (k = key)) as [->|Hne].
  - unfold Config.hasattr, PyDict.mem. by rewrite Hnone, Hc.
  - destruct (_ && _); [|done]. by rewrite get_set_ne.
Qed.
End MergeFacts.

(** X23: [merge_with_args] gives the command line precedence: an attribute
    of the configuration takes the value of the argument of the same name
    when that value is not [None], and keeps its own value when the
    argument is [None] or absent. *)
Theorem X23_arguments_take_precedence
    (V : Type) (class_attribute : string -> bool)
    (config args_dict : Config.attributes V) (key : string) (old : option V) :
  NoDup (PyDict.keys args_dict) ->
  PyDict.get key config = Some old ->
  PyDict.get key (Config.merge_with_args V class_attribute config args_dict)
  = Some match PyDict.get key args_dict with
         | Some (Some v) => Some v
         | _ => old
         end.
Proof. intros Hnd Hold. by apply merge_attribute. Qed.

Lemma X23_arguments_take_precedence_witness :
  PyDict.get "severity"
    (Config.merge_with_args string (fun _ => false)
       [("severity", Some "info"); ("parallel", Some "True")]
       [("severity", Some "critical"); ("tags", None)])
  = Some (Some "critical").
Proof.
  refine (X23_arguments_take_precedence string (fun _ => false)
            [("severity", Some "info"); ("parallel", Some "True")]
            [("severity", Some "critical"); ("tags", None)]
            "severity" (Some "info") _ eq_refl).
  compute_done.
Defined.

(** X24: [merge_with_args] never gives the configuration an attribute it
    does not have: an argument whose name is neither an attribute of the
    configuration object nor a name of its class is dropped.  The arguments
    [sequential] and [project_path] of the command line are such names for
    [AnalyzerConfig], so the merged configuration has neither; and an
    attribute that no argument names, such as [parallel], keeps its
    value. *)
Theorem X24_unknown_arguments_are_dropped
    (V : Type) (class_attribute : string -> bool)
    (config args_dict : Config.attributes V) (key : string) :
  PyDict.get key config = None ->
  class_attribute key = false ->
  PyDict.get key (Config.merge_with_args V class_attribute config args_dict)
  = None
  /\ forall other,
       other ∉ PyDict.keys args_dict ->
       PyDict.get other
         (Config.merge_with_args V class_attribute config args_dict)
       = PyDict.get other config.
Proof.
  intros Hnone Hc. split; [by apply merge_no_attribute|].
  intros other Hother. by apply merge_other_keys.
Qed.

Lemma X24_unknown_arguments_are_dropped_witness :
  PyDict.get "sequential"
    (Config.merge_with_args string (fun _ => false)
       [("severity", Some "info"); ("parallel", Some "True")]
       [("sequential", Some "True")])
  = None.
Proof.
  refine (proj1 (X24_unknown_arguments_are_dropped string (fun _ => false)
                   [("severity", Some "info"); ("parallel", Some "True")]
                   [("sequential", Some "True")] "sequential" eq_refl eq_refl)).
Defined.

(** ** Where the expressions of the f-string come from *)

Section PartsOrigin.
Import Cst FormatToFString.

Lemma get_Some_elem_of {V : Type} (d : PyDict.t string V) k v :
  PyDict.get k d = Some v -> (k, v) ∈ d.
Proof.
  induction d as [|[k0 v0] d IH]; simpl; [done|].
  destruct (decide (k0 = k)) as [->|Hne].
  - intros [= ->]. apply list_elem_of_here.
  - intros Hg. apply list_elem_of_further. by apply IH.
Qed.

Lemma elem_of_set {V : Type} (d : PyDict.t string V) k v k' v' :
  (k', v') ∈ PyDict.set k v d -> (k', v') ∈ d \/ (k', v') = (k, v).
Proof.
  induction d as [|[k0 v0] d IH]; simpl.
  - intros ->%list_elem_of_singleton. by right.
  - destruct (decide (k0 = k)) as [->|Hne].
    + intros [->|Hin]%elem_of_cons; [by right|]. left. by right.
    + intros [->|Hin]%elem_of_cons; [left; by left|].
      destruct (IH Hin) as [?|?]; [left; by right | by right].
Qed.

Lemma split_args_values (args : list Arg) (pos0 : list expr)
    (kw0 : PyDict.t string expr) :
  (forall e, e ∈ fst (split_args args pos0 kw0) ->
             e ∈ pos0 \/ e ∈ arg_value <$> args)
  /\ (forall k e, (k, e) ∈ snd (split_args args pos0 kw0) ->
                  (k, e) ∈ kw0 \/ e ∈ arg_value <$> args).
Proof.
  revert pos0 kw0. induction args as [|[[key|] value] args IH]; intros pos0 kw0.
  - split; intros; by left.
  - destruct (IH pos0 (PyDict.set key value kw0)) as [Hp Hk].
    cbn [split_args]. split.
    + intros e He. destruct (Hp e He) as [?|?]; [by left|].
      right. rewrite fmap_cons. by right.
    + intros k e He. destruct (Hk k e He) as [Hin|?].
      * apply elem_of_set in Hin as [?|[= -> ->]]; [by left|].
        right. rewrite fmap_cons. by left.
      * right. rewrite fmap_cons. by right.
  - destruct (IH (pos0 ++ [value]) kw0) as [Hp Hk].
    cbn [split_args]. split.
    + intros e He. destruct (Hp e He) as [Hin|?].
      * apply elem_of_app in Hin as [?| ->%list_elem_of_singleton]; [by left|].
        right. rewrite fmap_cons. by left.
      * right. rewrite fmap_cons. by right.
    + intros k e He. destruct (Hk k e He) as [?|?]; [by left|].
      right. rewrite fmap_cons. by right.
Qed.

Section Origin.
Variable template : string.
Variable positional_args : list expr.
Variable keyword_args : PyDict.t string expr.

(** Every part is a text or an expression without format specification
    that is a positional argument or the value of a keyword argument. *)
Local Abbreviation from_args parts :=
  (Forall (fun p => match p with
                    | FormattedStringText _ => True
                    | FormattedStringExpression e format_spec =>
                        format_spec = None
                        /\ (e ∈ positional_args
                            \/ exists k, (k, e) ∈ keyword_args)
                    end) parts).

Lemma from_args_text (parts : list FormattedStringContent) (t : string) :
  from_args parts -> from_args (parts ++ [FormattedStringText t]).
Proof. intros H. apply Forall_app. split; [done|]. by constructor. Qed.

Lemma from_args_expression (parts : list FormattedStringContent) (x : expr) :
  from_args parts ->
  x ∈ positional_args \/ (exists k, (k, x) ∈ keyword_args) ->
  from_args (parts ++ [FormattedStringExpression x None]).
Proof. intros H Hx. apply Forall_app. split; [done|]. by constructor. Qed.

Lemma process_match_from_args (st st' : loop_state) (m : re_match) :
  from_args (parts st) ->
  process_match template positional_args keyword_args st m = inr st' ->
  from_args (parts st').
Proof.
  intros Hst. unfold process_match.
  set (before := if (last_end st <? m_start m)%nat then _ else _).
  assert (from_args before) as Hbefore.
  { subst before. destruct (_ <? _)%nat; [by apply from_args_text | done]. }
  clearbody before.
  destruct (String.eqb (group1 m) "").
  { destruct (idx st <? length positional_args)%nat.
    - destruct (positional_args !! idx st) as [e|] eqn:He;
        cbn [bind ret]; intros [= <-]; cbn [parts]; [|done].
      apply from_args_expression; [done|]. left.
      by eapply list_elem_of_lookup_2.
    - cbn [bind ret]. by intros [= <-]. }
  destruct (PyStr.isdigit (group1 m)).
  { destruct (PyStr.int (group1 m)) as [err|index]; [done|]. cbn [bind].
    destruct (index <? N.of_nat (length positional_args))%N.
    - destruct (positional_args !! N.to_nat index) as [e|] eqn:He;
        cbn [bind ret]; intros [= <-]; cbn [parts]; [|done].
      apply from_args_expression; [done|]. left.
      by eapply list_elem_of_lookup_2.
    - cbn [bind ret]. by intros [= <-]. }
  destruct (PyDict.get (group1 m) keyword_args) as [e|] eqn:He;
    cbn [bind ret]; intros [= <-]; cbn [parts]; [|done].
  apply from_args_expression; [done|]. right.
  exists (group1 m). by apply get_Some_elem_of.
Qed.

Lemma run_matches_from_args (ms : list re_match) (st st' : loop_state) :
  from_args (parts st) ->
  run_matches template positional_args keyword_args ms st = inr st' ->
  from_args (parts st').
Proof.
  revert st. induction ms as [|m ms IH]; intros st Hst; cbn [run_matches].
  - by intros [= <-].
  - destruct (process_match template positional_args keyword_args st m)
      as [e|st1] eqn:Hstep; [done|]. cbn [bind].
    apply IH. by eapply process_match_from_args.
Qed.

Lemma fstring_parts_from_args (result : list FormattedStringContent) :
  fstring_parts template positional_args keyword_args = inr result ->
  from_args result.
Proof.
  unfold fstring_parts.
  destruct (run_matches _ _ _ _ _) as [e|st] eqn:Hrun; [done|].
  cbn [bind ret]. intros [= <-].
  assert (from_args (parts st)) as Hst.
  { eapply run_matches_from_args; [|exact Hrun]. constructor. }
  destruct (_ <? _)%nat; [by apply from_args_text | done].
Qed.
End Origin.

(** The parts that [leave_Call] builds: texts, and argument expressions
    without format specification. *)
Lemma leave_Call_target_parts literal args updated n node n' :
  leave_Call (Call (Attribute (SimpleString literal) "format") args) updated n
  = inr (node, n') ->
  exists result,
    node = FormattedString result fstring_start fstring_end
    /\ Forall (fun p => match p with
                        | FormattedStringText _ => True
                        | FormattedStringExpression e format_spec =>
                            format_spec = None /\ e ∈ arg_value <$> args
                        end) result.
Proof.
  unfold leave_Call. cbn [String.eqb Ascii.eqb Bool.eqb].
  destruct (split_args args [] PyDict.empty) as [pos kw] eqn:Hsplit.
  destruct (fstring_parts (strip_quotes literal) pos kw) as [err|result] eqn:Hp;
    [done|]. cbn [bind ret]. intros [= <- <-].
  exists result. split; [done|].
  destruct (split_args_values args [] PyDict.empty) as [Hpos Hkw].
  rewrite Hsplit in Hpos, Hkw. simpl in Hpos, Hkw.
  eapply Forall_impl; [exact (fstring_parts_from_args _ _ _ _ Hp)|].
  intros [t|e format_spec]; [done|]. intros [-> [Hin|[k Hin]]]; (split; [done|]).
  - destruct (Hpos e Hin) as [?%elem_of_nil|?]; done.
  - destruct (Hkw k e Hin) as [?%elem_of_nil|?]; done.
Qed.

Lemma expressions_of_Forall (P : expr -> Prop)
    (parts : list FormattedStringContent) :
  Forall (fun p => match p with
                   | FormattedStringText _ => True
                   | FormattedStringExpression e format_spec =>
                       format_spec = None /\ P e
                   end) parts ->
  forall e, e ∈ expressions_of parts -> P e.
Proof.
  induction 1 as [|[t|x format_spec] l Hp _ IH]; intros e; simpl.
  - by intros ?%elem_of_nil.
  - apply IH.
  - intros [->|?]%elem_of_cons; [by destruct Hp | by apply IH].
Qed.
End PartsOrigin.

(** X25: every expression in the f-string that replaces a format call is
    the expression of one of the arguments of that call, as it stood in the
    source; the fixer invents none. *)
Theorem X25_expressions_come_from_the_arguments
    (literal : string) (args : list Cst.Arg) (updated_node node : Cst.expr)
    (changes n : nat) :
  FormatToFString.leave_Call
    (Cst.Call (Cst.Attribute (Cst.SimpleString literal) "format") args)
    updated_node changes = ret (node, n) ->
  exists parts,
    node = Cst.FormattedString parts FormatToFString.fstring_start
             FormatToFString.fstring_end
    /\ forall e, e ∈ FormatToFString.expressions_of parts ->
                 e ∈ Cst.arg_value <$> args.
Proof.
  intros (parts & -> & Hparts)%leave_Call_target_parts.
  exists parts. split; [done|].
  by apply (expressions_of_Forall (fun e => e ∈ Cst.arg_value <$> args)).
Qed.

Lemma X25_expressions_come_from_the_arguments_witness :
  exists parts,
    Cst.FormattedString
      [Cst.FormattedStringExpression (Cst.Name "x") None;
       Cst.FormattedStringText " and ";
       Cst.FormattedStringExpression (Cst.Name "y") None]
      FormatToFString.fstring_start FormatToFString.fstring_end
    = Cst.FormattedString parts FormatToFString.fstring_start
        FormatToFString.fstring_end
    /\ forall e, e ∈ FormatToFString.expressions_of parts ->
                 e ∈ [Cst.Name "x"; Cst.Name "y"].
Proof.
  apply (X25_expressions_come_from_the_arguments (Examples.dq "{} and {age}")
           [Cst.mkArg None (Cst.Name "x"); Cst.mkArg (Some "age") (Cst.Name "y")]
           (Cst.Name "unused") _ 0 1).
  reflexivity.
Defined.

(** ** A second run of the transformer *)

Section FlatFacts.
Import Cst FormatToFString.

Lemma flat_Call_eq func args :
  flat (Call func args)
  = if is_target (Call func args)
    then forallb (fun a => Nat.eqb (count_targets_arg a) 0) args
    else flat func && forallb (fun a => flat (arg_value a)) args.
Proof.
  cbn [flat]. destruct (is_target (Call func args)); [done|]. f_equal.
  induction args as [|[k v] l IH]; [done|]. simpl. by rewrite <- IH.
Qed.

Lemma flat_FormattedString_eq parts start end_ :
  flat (FormattedString parts start end_) = forallb flat_part parts.
Proof.
  cbn [flat]. induction parts as [|p l IH]; [done|]. simpl. by rewrite <- IH.
Qed.

Lemma flat_part_Expression_eq x format_spec :
  flat_part (FormattedStringExpression x format_spec)
  = flat x && match format_spec with
              | Some spec => forallb flat_part spec
              | None => true
              end.
Proof.
  cbn [flat_part]. by destruct format_spec.
Qed.

Lemma flat_Node_eq kind children :
  flat (Node kind children) = forallb flat children.
Proof.
  cbn [flat]. induction children as [|e l IH]; [done|]. simpl.
  by rewrite <- IH.
Qed.

Lemma visit_all_clears {A : Type} (visit_one : A -> nat -> res (A * nat))
    (count : A -> nat) (l : list A) :
  Forall (fun a => forall n a' n',
            visit_one a n = inr (a', n') -> count a' = 0) l ->
  forall n l' n', visit_all visit_one l n = inr (l', n') ->
                  sum_list (count <$> l') = 0.
Proof.
  induction 1 as [|a l Ha _ IH]; intros n l' n'; cbn [visit_all].
  - by intros [= <- <-].
  - destruct (visit_one a n) as [e|[a' c']] eqn:Hone; [done|]. cbn [bind].
    destruct (visit_all visit_one l c') as [e|[rest c2]] eqn:Hrest; [done|].
    cbn [bind]. intros [= <- <-].
    apply Ha in Hone. apply IH in Hrest. csimpl. lia.
Qed.

Lemma leave_Call_shape original updated n e' n' :
  leave_Call original updated n = inr (e', n') ->
  e' = updated \/ exists parts start end_, e' = FormattedString parts start end_.
Proof.
  unfold leave_Call.
  destruct original as [| |?|[| |[|lit| | | |] attr| | |] args| |];
    try (intros [= <- <-]; by left).
  destruct (String.eqb attr "format"); [|intros [= <- <-]; by left].
  destruct (split_args args [] PyDict.empty) as [pos kw].
  destruct (fstring_parts _ pos kw); simpl; [done|].
  intros [= <- <-]. right. eauto.
Qed.

(** A visited node is a string literal only when the node was one. *)
Lemma visit_SimpleString e n e' n' :
  visit e n = inr (e', n') ->
  match e' with
  | SimpleString _ => e' = e
  | _ => match e with SimpleString _ => False | _ => True end
  end.
Proof.
  destruct e as [v|v|value attr|func args|parts start end_|kind children].
  - by intros [= <- <-].
  - by intros [= <- <-].
  - cbn [visit]. destruct (visit value n) as [?|[value' c]]; [done|].
    cbn [bind]. by intros [= <- <-].
  - rewrite visit_Call_eq.
    destruct (visit func n) as [?|[func' c1]]; [done|]. cbn [bind].
    destruct (visit_all visit_arg args c1) as [?|[args' c2]]; [done|].
    cbn [bind]. intros [->|(p & s & t & ->)]%leave_Call_shape; done.
  - rewrite visit_FormattedString_eq.
    destruct (visit_all visit_part parts n) as [?|[parts' c]]; [done|].
    cbn [bind]. by intros [= <- <-].
  - rewrite visit_Node_eq.
    destruct (visit_all visit children n) as [?|[children' c]]; [done|].
    cbn [bind]. by intros [= <- <-].
Qed.

(** Visiting the callee does not turn a call into one that [leave_Call]
    rewrites, nor the other way round. *)
Lemma visit_keeps_target func n func' n' args args' :
  visit func n = inr (func', n') ->
  is_target (Call func' args') = is_target (Call func args).
Proof.
  destruct func as [v|v|value attr|f a|parts start end_|kind children].
  - by intros [= <- <-].
  - by intros [= <- <-].
  - cbn [visit]. destruct (visit value n) as [?|[value' c]] eqn:Hv; [done|].
    cbn [bind]. intros [= <- <-]. apply visit_SimpleString in Hv.
    cbn [is_target]. destruct value'; destruct value; try done; by inversion Hv.
  - rewrite visit_Call_eq.
    destruct (visit f n) as [?|[f' c1]]; [done|]. cbn [bind].
    destruct (visit_all visit_arg a c1) as [?|[a' c2]]; [done|].
    cbn [bind]. intros [->|(p & s & t & ->)]%leave_Call_shape; done.
  - rewrite visit_FormattedString_eq.
    destruct (visit_all visit_part parts n) as [?|[parts' c]]; [done|].
    cbn [bind]. by intros [= <- <-].
  - rewrite visit_Node_eq.
    destruct (visit_all visit children n) as [?|[children' c]]; [done|].
    cbn [bind]. by intros [= <- <-].
Qed.

Lemma is_target_inv node :
  is_target node = true ->
  exists literal args,
    node = Call (Attribute (SimpleString literal) "format") args.
Proof.
  destruct node as [| |?|[| |[|lit| | | |] attr| | |] args| |]; try done.
  cbn [is_target]. intros ->%String.eqb_eq. eauto.
Qed.

Lemma parts_without_targets (P : expr -> Prop)
    (parts : list FormattedStringContent) :
  Forall (fun p => match p with
                   | FormattedStringText _ => True
                   | FormattedStringExpression e format_spec =>
                       format_spec = None /\ P e
                   end) parts ->
  (forall e, P e -> count_targets e = 0) ->
  sum_list (count_targets_part <$> parts) = 0.
Proof.
  intros Hparts HP.
  induction Hparts as [|[t|x format_spec] l Hp _ IH]; [done|..].
  - csimpl. exact IH.
  - destruct Hp as [-> Hx]. csimpl. by rewrite (HP x Hx), IH.
Qed.

(** After one visit of a tree in which no rewritten call has such a call
    inside its arguments, no call is left that passes the test. *)
Lemma visit_flat_both :
  (forall e, flat e = true ->
             forall n e' n', visit e n = inr (e', n') -> count_targets e' = 0)
  /\ (forall p, flat_part p = true ->
                forall n p' n', visit_part p n = inr (p', n') ->
                                count_targets_part p' = 0).
Proof.
  apply (expr_nested_ind
           (fun e => flat e = true ->
                     forall n e' n', visit e n = inr (e', n') ->
                                     count_targets e' = 0)
           (fun p => flat_part p = true ->
                     forall n p' n', visit_part p n = inr (p', n') ->
                                     count_targets_part p' = 0)).
  - by intros v _ n e' n' [= <- <-].
  - by intros v _ n e' n' [= <- <-].
  - intros value attr IH Hflat n e' n'. cbn [visit]. cbn [flat] in Hflat.
    destruct (visit value n) as [?|[value' c]] eqn:Hv; [done|]. cbn [bind].
    intros [= <- <-]. cbn [count_targets is_target].
    by rewrite (IH Hflat _ _ _ Hv).
  - intros func args IHf IHargs Hflat n e' n'.
    rewrite flat_Call_eq in Hflat. rewrite visit_Call_eq.
    destruct (visit func n) as [?|[func' c1]] eqn:Hf; [done|]. cbn [bind].
    destruct (visit_all visit_arg args c1) as [?|[args' c2]] eqn:Ha; [done|].
    cbn [bind].
    destruct (is_target (Call func args)) eqn:Htarget.
    + destruct (is_target_inv _ Htarget) as (literal & args0 & Heq).
      injection Heq as -> ->.
      intros (result & -> & Hfrom)%leave_Call_target_parts.
      rewrite count_targets_FormattedString_eq.
      apply (parts_without_targets _ _ Hfrom). intros e He.
      apply list_elem_of_fmap in He as ([k v] & -> & Hin).
      rewrite forallb_forall in Hflat.
      apply list_elem_of_In, Hflat, Nat.eqb_eq in Hin. exact Hin.
    + rewrite leave_Call_not_target by done. intros [= <- <-].
      apply andb_true_iff in Hflat as [Hff Hfa].
      rewrite count_targets_Call_eq, (visit_keeps_target _ _ _ _ args _ Hf),
        Htarget, (IHf Hff _ _ _ Hf).
      assert (sum_list (count_targets_arg <$> args') = 0) as ->; [|done].
      eapply (visit_all_clears visit_arg); [|exact Ha].
      rewrite forallb_forall in Hfa. rewrite Forall_forall in IHargs.
      apply Forall_forall. intros [k v] Hin m a' m'. cbn [visit_arg].
      destruct (visit v m) as [?|[v' c]] eqn:Hvv; [done|]. cbn [bind].
      intros [= <- <-]. cbn [count_targets_arg].
      eapply (IHargs _ Hin); [|exact Hvv].
      by apply (Hfa (mkArg k v)), list_elem_of_In.
  - intros parts start end_ IHparts Hflat n e' n'.
    rewrite flat_FormattedString_eq in Hflat.
    rewrite visit_FormattedString_eq.
    destruct (visit_all visit_part parts n) as [?|[parts' c]] eqn:Hp; [done|].
    cbn [bind]. intros [= <- <-]. rewrite count_targets_FormattedString_eq.
    eapply (visit_all_clears visit_part); [|exact Hp].
    rewrite forallb_forall in Hflat. rewrite Forall_forall in IHparts.
    apply Forall_forall. intros p Hin m p' m' Hpp.
    eapply (IHparts _ Hin); [|exact Hpp].
    by apply Hflat, list_elem_of_In.
  - intros kind children IHch Hflat n e' n'.
    rewrite flat_Node_eq in Hflat. rewrite visit_Node_eq.
    destruct (visit_all visit children n) as [?|[children' c]] eqn:Hc; [done|].
    cbn [bind]. intros [= <- <-]. rewrite count_targets_Node_eq.
    eapply (visit_all_clears visit); [|exact Hc].
    rewrite forallb_forall in Hflat. rewrite Forall_forall in IHch.
    apply Forall_forall. intros x Hin m x' m' Hxx.
    eapply (IHch _ Hin); [|exact Hxx].
    by apply Hflat, list_elem_of_In.
  - by intros t _ n p' n' [= <- <-].
  - intros x format_spec IHx IHspec Hflat n p' n'.
    rewrite flat_part_Expression_eq in Hflat.
    apply andb_true_iff in Hflat as [Hfx Hfs].
    rewrite visit_part_Expression_eq.
    destruct (visit x n) as [?|[x' c]] eqn:Hx; [done|]. cbn [bind].
    destruct format_spec as [spec|]; cbn [visit_format_spec].
    + destruct (visit_all visit_part spec c) as [?|[spec' c']] eqn:Hs; [done|].
      cbn [bind ret]. intros [= <- <-].
      rewrite count_targets_part_Expression_eq, (IHx Hfx _ _ _ Hx).
      eapply (visit_all_clears visit_part); [|exact Hs].
      rewrite forallb_forall in Hfs. rewrite Forall_forall in IHspec.
      apply Forall_forall. intros p Hin m p' m' Hpp.
      eapply (IHspec _ Hin); [|exact Hpp].
      by apply Hfs, list_elem_of_In.
    + cbn [bind ret]. intros [= <- <-].
      rewrite count_targets_part_Expression_eq, (IHx Hfx _ _ _ Hx). done.
Qed.

Lemma visit_flat_clears e :
  flat e = true ->
  forall n e' n', visit e n = inr (e', n') -> count_targets e' = 0.
Proof. apply visit_flat_both. Qed.
End FlatFacts.

(** X26: when no format call that the fixer rewrites has another such call
    inside its arguments, one visit rewrites them all: the tree that the
    transformer returns holds no such call, and the transformer maps that
    tree to itself without counting a change.  A second [apply], on the
    text of the first result, returns that text and the count 0 whenever
    the parser reads the text back as that tree; the parts of the f-string
    being unescaped copies of the template, nothing in the fixer ensures
    that it does. *)
Theorem X26_second_run_changes_nothing_without_nesting
    (module modified : Cst.expr) (n : nat) :
  FormatToFString.flat module = true ->
  FormatToFString.visit module 0 = ret (modified, n) ->
  FormatToFString.count_targets modified = 0
  /\ (forall changes,
        FormatToFString.visit modified changes = ret (modified, changes))
  /\ (forall (parse_module : string -> res Cst.expr)
             (code_for : Cst.expr -> string) (source_code : string),
        parse_module source_code = ret module ->
        parse_module (code_for modified) = ret modified ->
        FormatToFString.apply parse_module code_for
          (fst (FormatToFString.apply parse_module code_for source_code))
        = (code_for modified, 0)).
Proof.
  intros Hflat Hvisit.
  pose proof (visit_flat_clears module Hflat 0 modified n Hvisit) as Hzero.
  split_and!; [done | by apply visit_without_targets |].
  intros parse_module code_for source_code Hparse Hround.
  assert (FormatToFString.apply parse_module code_for source_code
          = (code_for modified, n)) as ->.
  { unfold FormatToFString.apply. rewrite Hparse. cbn [bind ret].
    by rewrite Hvisit. }
  cbn [fst]. unfold FormatToFString.apply. rewrite Hround. cbn [bind ret].
  by rewrite (visit_without_targets modified Hzero 0).
Qed.

Lemma X26_second_run_changes_nothing_without_nesting_witness :
  FormatToFString.count_targets Examples.spec_once = 0
  /\ FormatToFString.visit Examples.spec_once 5 = ret (Examples.spec_once, 5)
  /\ FormatToFString.apply
       (Examples.parse_module [Examples.spec_source; Examples.spec_once])
       Examples.code_for
       (fst (FormatToFString.apply
               (Examples.parse_module [Examples.spec_source; Examples.spec_once])
               Examples.code_for (Examples.code_for Examples.spec_source)))
     = (Examples.code_for Examples.spec_once, 0).
Proof.
  destruct (X26_second_run_changes_nothing_without_nesting
              Examples.spec_source Examples.spec_once 1 eq_refl eq_refl)
    as (Hzero & Hsame & Happly).
  split_and!; [exact Hzero | exact (Hsame 5) |].
  exact (Happly
           (Examples.parse_module [Examples.spec_source; Examples.spec_once])
           Examples.code_for (Examples.code_for Examples.spec_source)
           eq_refl eq_refl).
Defined.
